(** * lambda_function.py: the Cognito claim extractor, embedded and verified

    The Lambda handler of the repository reads an unverified Cognito ID
    token from a request header, decodes its payload and echoes identity,
    groups and two role flags.  This file embeds the four functions of
    [lambda_function.py] together with the parts of the Python runtime they
    call ([str] methods, [base64.urlsafe_b64decode], [bytes.decode],
    [json.loads], [json.dumps], [logging]) and proves the properties the
    specification states about them. *)

From Stdlib Require Import ZArith List String Ascii Bool Lia.
Import ListNotations.
Local Open Scope Z_scope.

Ltac Zify.zify_post_hook ::= Z.div_mod_to_equations.

(** ** Python values *)

(** A Python [str] is a sequence of Unicode code points, a [bytes] object a
    sequence of octets. *)
Definition str : Type := list Z.
Definition bytes : Type := list Z.

(** [lit "text"] is the [str] written as the ASCII literal ["text"]. *)
Definition lit (s : string) : str :=
  map (fun a => Z.of_N (N_of_ascii a)) (list_ascii_of_string s).

Definition str_eqb (a b : str) : bool :=
  if list_eq_dec Z.eq_dec a b then true else false.

(** A Python [float] is represented by the decimal number its literal
    denotes, [(-1)^neg * significand * 10^exponent], or by one of the three
    constants the [json] module reads and writes.  The program performs no
    float arithmetic; it only tests floats for truth and prints them. *)
Inductive pyfloat : Type :=
| FNaN
| FInf (neg : bool)
| FDec (neg : bool) (significand : Z) (exponent : Z).

(** The values [json.loads] produces and [json.dumps] accepts: [None],
    [bool], [int], [float], [str], [list] and [dict] with [str] keys.  A
    [dict] keeps its items in insertion order. *)
#[warnings="-register-all"]
Inductive json : Type :=
| JNull
| JBool (b : bool)
| JInt (n : Z)
| JFloat (f : pyfloat)
| JStr (s : str)
| JList (items : list json)
| JDict (items : list (str * json)).

Definition dict : Type := list (str * json).

(** The exceptions the modelled code can meet; all derive from [Exception]. *)
Inductive exn : Type :=
| AttributeError
| TypeError
| KeyError
| ValueError
| BinasciiError
| UnicodeDecodeError
| UnicodeEncodeError
| JSONDecodeError
| RecursionError.

Inductive result (A : Type) : Type :=
| Ok (a : A)
| Raise (e : exn).
Arguments Ok {A} a.
Arguments Raise {A} e.

Definition rbind {A B} (m : result A) (f : A -> result B) : result B :=
  match m with
  | Ok a => f a
  | Raise e => Raise e
  end.

Definition rmap {A B} (f : A -> B) (m : result A) : result B :=
  rbind m (fun a => Ok (f a)).

(** ** Logging

    Every call of [logger.error], [logger.warning] and [logger.info] of the
    source is a record; the message names the call site and carries the
    values interpolated into its text. *)
Inductive level : Type := ERROR | WARNING | INFO.

Record context : Type := { aws_request_id : str }.

Inductive message : Type :=
| Invalid_JWT_token_format
| Error_decoding_JWT_payload (e : exn)
| No_X_Cognito_Id_Token_header_found
| Token_payload (payload : json)
| User_info (user_info : json)
| User_groups (groups : list json)
| Error_extracting_user_info_from_token (e : exn)
| Cognito_context_user_info (user_info : json)
| Error_extracting_user_from_Cognito_context (e : exn)
| Event (dumped : str)
| Invocation_context (c : context).

Definition record : Type := (level * message)%type.

(** A computation writes log records and then returns or raises. *)
Definition M (A : Type) : Type := (list record * result A)%type.

Definition ret {A} (a : A) : M A := ([], Ok a).
Definition raise {A} (e : exn) : M A := ([], Raise e).
Definition lift {A} (r : result A) : M A := ([], r).
Definition log (l : level) (m : message) : M unit := ([(l, m)], Ok tt).

Definition bind {A B} (m : M A) (f : A -> M B) : M B :=
  match m with
  | (w, Ok a) => let (w', r) := f a in (w ++ w', r)
  | (w, Raise e) => (w, Raise e)
  end.

(** [try: body except Exception as e: handler e] *)
Definition try_except {A} (body : M A) (handler : exn -> M A) : M A :=
  match body with
  | (w, Ok a) => (w, Ok a)
  | (w, Raise e) => let (w', r) := handler e in (w ++ w', r)
  end.

Declare Scope py_scope.
Delimit Scope py_scope with py.
Notation "x <- m ;; k" := (bind m (fun x => k))
  (at level 61, m at next level, right associativity) : py_scope.
Notation "m ;;; k" := (bind m (fun _ => k))
  (at level 61, right associativity) : py_scope.

(** ** Builtins *)

(** [bool(v)]: the truth value of an object. *)
Definition float_is_zero (f : pyfloat) : bool :=
  match f with
  | FNaN => false
  | FInf _ => false
  | FDec _ d e =>
      if d =? 0 then true
      else if 0 <=? e then false
      else d * 2 ^ 1075 <=? 10 ^ (- e)
  end.

Definition truthy (v : json) : bool :=
  match v with
  | JNull => false
  | JBool b => b
  | JInt n => negb (n =? 0)
  | JFloat f => negb (float_is_zero f)
  | JStr s => match s with [] => false | _ => true end
  | JList l => match l with [] => false | _ => true end
  | JDict d => match d with [] => false | _ => true end
  end.

(** Lookup of a key in a [dict]. *)
Fixpoint lookup (k : str) (d : dict) : option json :=
  match d with
  | [] => None
  | (k', v) :: d' => if str_eqb k k' then Some v else lookup k d'
  end.

(** [d[k] = v]: an existing key keeps its position. *)
Fixpoint dict_set (d : dict) (k : str) (v : json) : dict :=
  match d with
  | [] => [(k, v)]
  | (k', v') :: d' =>
      if str_eqb k k' then (k', v) :: d' else (k', v') :: dict_set d' k v
  end.

(** [dict(pairs)] *)
Definition dict_of_pairs (pairs : list (str * json)) : dict :=
  fold_left (fun d kv => dict_set d (fst kv) (snd kv)) pairs [].

(** [obj.get(key, default)]: only a [dict] has the attribute. *)
Definition get (obj : json) (key : str) (default : json) : result json :=
  match obj with
  | JDict d => Ok (match lookup key d with Some v => v | None => default end)
  | _ => Raise AttributeError
  end.

(** [obj.items()] *)
Definition items (obj : json) : result (list (str * json)) :=
  match obj with
  | JDict d => Ok d
  | _ => Raise AttributeError
  end.

(** [needle in haystack] for [str] operands. *)
Fixpoint starts_with (p s : str) : bool :=
  match p, s with
  | [], _ => true
  | a :: p', b :: s' => (a =? b) && starts_with p' s'
  | _ :: _, [] => false
  end.

Fixpoint substring (p s : str) : bool :=
  starts_with p s || match s with [] => false | _ :: s' => substring p s' end.

(** [x == y] where [x] is a [str]: only an equal [str] compares equal. *)
Definition eq_str (x : str) (y : json) : bool :=
  match y with
  | JStr s => str_eqb x s
  | _ => false
  end.

(** [key in obj] for a [str] key. *)
Definition contains (key : str) (obj : json) : result bool :=
  match obj with
  | JDict d => Ok (match lookup key d with Some _ => true | None => false end)
  | JList l => Ok (existsb (eq_str key) l)
  | JStr s => Ok (substring key s)
  | _ => Raise TypeError
  end.

(** [obj[key]] for a [str] key. *)
Definition getitem (obj : json) (key : str) : result json :=
  match obj with
  | JDict d => match lookup key d with Some v => Ok v | None => Raise KeyError end
  | _ => Raise TypeError
  end.

(** [s.split(sep)] for a separator of one character, the only use the
    source makes of it. *)
Fixpoint split (sep : Z) (s : str) : list str :=
  match s with
  | [] => [[]]
  | c :: r =>
      if c =? sep then [] :: split sep r
      else match split sep r with
           | [] => [[c]]
           | p :: ps => (c :: p) :: ps
           end
  end.

(** [str.isspace] for one character. *)
Definition isspace (c : Z) : bool :=
  ((9 <=? c) && (c <=? 13)) || ((28 <=? c) && (c <=? 32))
  || (c =? 133) || (c =? 160) || (c =? 5760)
  || ((8192 <=? c) && (c <=? 8202))
  || (c =? 8232) || (c =? 8233) || (c =? 8239) || (c =? 8287) || (c =? 12288).

Fixpoint lstrip (s : str) : str :=
  match s with
  | c :: r => if isspace c then lstrip r else s
  | [] => []
  end.

Definition rstrip (s : str) : str := rev (lstrip (rev s)).

(** [s.strip()] *)
Definition strip (s : str) : str := rstrip (lstrip s).

(** [s.lower()].  The source compares the result with an ASCII literal, so
    the mapping is given where its image meets ASCII: the letters [A]-[Z]
    and the Kelvin sign U+212A; every other character is left as it is. *)
Definition lower_char (c : Z) : Z :=
  if (65 <=? c) && (c <=? 90) then c + 32
  else if c =? 8490 then 107
  else c.

Definition lower (s : str) : str := map lower_char s.

(** [s.split(sep)] and the other [str] methods exist on [str] only. *)
Definition as_str (v : json) : result str :=
  match v with
  | JStr s => Ok s
  | _ => Raise AttributeError
  end.

(** ** base64 *)

(** [s.encode('ascii')] inside [base64._bytes_from_decode_data]; a [str]
    outside ASCII makes [urlsafe_b64decode] raise [ValueError]. *)
Definition encode_ascii (s : str) : result bytes :=
  if forallb (fun c => (0 <=? c) && (c <? 128)) s then Ok s else Raise ValueError.

(** [bytes.translate] with the URL-safe table: [-] becomes [+], [_]
    becomes [/]. *)
Definition urlsafe_translate (b : Z) : Z :=
  if b =? 45 then 43 else if b =? 95 then 47 else b.

(** [binascii]'s table from a character of the standard alphabet to its six
    bits; [None] for every other octet. *)
Definition table_a2b_base64 (b : Z) : option Z :=
  if (65 <=? b) && (b <=? 90) then Some (b - 65)
  else if (97 <=? b) && (b <=? 122) then Some (b - 71)
  else if (48 <=? b) && (b <=? 57) then Some (b + 4)
  else if b =? 43 then Some 62
  else if b =? 47 then Some 63
  else None.

(** [binascii.a2b_base64] in its default, non-strict mode: a loop over the
    input with the position in the current quad, the bits left over from
    the previous character and the count of pad characters just seen.
    Octets outside the alphabet are skipped, a pad sequence that completes
    a quad ends the decoding, and an incomplete quad at the end of the
    input is an error. *)
Fixpoint a2b_loop (quad_pos leftchar pads : Z) (input : bytes) : result bytes :=
  match input with
  | [] => if quad_pos =? 0 then Ok [] else Raise BinasciiError
  | this_ch :: rest =>
      if this_ch =? 61 then
        if (2 <=? quad_pos) && (4 <=? quad_pos + (pads + 1)) then Ok []
        else a2b_loop quad_pos leftchar
               (if 2 <=? quad_pos then pads + 1 else pads) rest
      else
        match table_a2b_base64 this_ch with
        | None => a2b_loop quad_pos leftchar pads rest
        | Some v =>
            if quad_pos =? 0 then a2b_loop 1 v 0 rest
            else if quad_pos =? 1 then
              rmap (cons (leftchar * 4 + v / 16)) (a2b_loop 2 (v mod 16) 0 rest)
            else if quad_pos =? 2 then
              rmap (cons (leftchar * 16 + v / 4)) (a2b_loop 3 (v mod 4) 0 rest)
            else
              rmap (cons (leftchar * 64 + v)) (a2b_loop 0 0 0 rest)
        end
  end.

Definition a2b_base64 (data : bytes) : result bytes := a2b_loop 0 0 0 data.

(** [base64.urlsafe_b64decode(s)] for a [str] argument. *)
Definition urlsafe_b64decode (s : str) : result bytes :=
  rbind (encode_ascii s) (fun b => a2b_base64 (map urlsafe_translate b)).

(** The URL-safe alphabet, from six bits to the character. *)
Definition urlsafe_alphabet (v : Z) : Z :=
  if v <? 26 then v + 65
  else if v <? 52 then v + 71
  else if v <? 62 then v - 4
  else if v =? 62 then 45
  else 95.

(** [base64.urlsafe_b64encode(data).rstrip(b"=")]: three octets give four
    characters, a last group of one or two octets gives two or three. *)
Fixpoint urlsafe_b64encode_nopad (data : bytes) : str :=
  match data with
  | [] => []
  | [a] => [urlsafe_alphabet (a / 4); urlsafe_alphabet (a mod 4 * 16)]
  | [a; b] =>
      [urlsafe_alphabet (a / 4); urlsafe_alphabet (a mod 4 * 16 + b / 16);
       urlsafe_alphabet (b mod 16 * 4)]
  | a :: b :: c :: rest =>
      urlsafe_alphabet (a / 4) :: urlsafe_alphabet (a mod 4 * 16 + b / 16)
      :: urlsafe_alphabet (b mod 16 * 4 + c / 64) :: urlsafe_alphabet (c mod 64)
      :: urlsafe_b64encode_nopad rest
  end.

(** ** UTF-8 *)

Definition continuation (b : Z) : bool := (128 <=? b) && (b <? 192).

(** [data.decode("utf-8")]: strict decoding; overlong forms, surrogates and
    values above U+10FFFF are errors. *)
Fixpoint utf8_decode (data : bytes) : result str :=
  match data with
  | [] => Ok []
  | b0 :: r0 =>
      if (0 <=? b0) && (b0 <? 128) then rmap (cons b0) (utf8_decode r0)
      else if (194 <=? b0) && (b0 <? 224) then
        match r0 with
        | b1 :: r1 =>
            if continuation b1
            then rmap (cons ((b0 - 192) * 64 + (b1 - 128))) (utf8_decode r1)
            else Raise UnicodeDecodeError
        | _ => Raise UnicodeDecodeError
        end
      else if (224 <=? b0) && (b0 <? 240) then
        match r0 with
        | b1 :: b2 :: r2 =>
            if continuation b1 && continuation b2
               && (negb (b0 =? 224) || (160 <=? b1))
               && (negb (b0 =? 237) || (b1 <? 160))
            then rmap (cons ((b0 - 224) * 4096 + (b1 - 128) * 64 + (b2 - 128)))
                      (utf8_decode r2)
            else Raise UnicodeDecodeError
        | _ => Raise UnicodeDecodeError
        end
      else if (240 <=? b0) && (b0 <? 245) then
        match r0 with
        | b1 :: b2 :: b3 :: r3 =>
            if continuation b1 && continuation b2 && continuation b3
               && (negb (b0 =? 240) || (144 <=? b1))
               && (negb (b0 =? 244) || (b1 <? 144))
            then rmap (cons ((b0 - 240) * 262144 + (b1 - 128) * 4096
                             + (b2 - 128) * 64 + (b3 - 128)))
                      (utf8_decode r3)
            else Raise UnicodeDecodeError
        | _ => Raise UnicodeDecodeError
        end
      else Raise UnicodeDecodeError
  end.

Definition surrogate (c : Z) : bool := (55296 <=? c) && (c <=? 57343).

(** [s.encode("utf-8")] *)
Fixpoint utf8_encode (s : str) : result bytes :=
  match s with
  | [] => Ok []
  | c :: r =>
      if (0 <=? c) && (c <? 128) then rmap (cons c) (utf8_encode r)
      else if (128 <=? c) && (c <? 2048) then
        rmap (fun t => 192 + c / 64 :: 128 + c mod 64 :: t) (utf8_encode r)
      else if (2048 <=? c) && (c <? 65536) && negb (surrogate c) then
        rmap (fun t => 224 + c / 4096 :: 128 + c / 64 mod 64 :: 128 + c mod 64 :: t)
             (utf8_encode r)
      else if (65536 <=? c) && (c <? 1114112) then
        rmap (fun t => 240 + c / 262144 :: 128 + c / 4096 mod 64
                       :: 128 + c / 64 mod 64 :: 128 + c mod 64 :: t)
             (utf8_encode r)
      else Raise UnicodeEncodeError
  end.

(** ** json: the encoder *)

(** [repr] of a non-negative [int], most significant digit first.  The
    fuel is the number itself in binary: a division by ten removes at
    least one bit. *)
Fixpoint digits_of (fuel : positive) (n : Z) (acc : str) : str :=
  if n <? 10 then 48 + n :: acc
  else match fuel with
       | xH => acc
       | xO f | xI f => digits_of f (n / 10) (48 + n mod 10 :: acc)
       end.

Definition nat_repr (n : Z) : str := digits_of (Z.to_pos n) n [].

Definition int_repr (n : Z) : str :=
  if n <? 0 then 45 :: nat_repr (- n) else nat_repr n.

(** The text [json.dumps] writes for a [float]: the three constants, and a
    decimal literal that denotes the number. *)
Definition float_repr (f : pyfloat) : str :=
  match f with
  | FNaN => lit "NaN"
  | FInf false => lit "Infinity"
  | FInf true => lit "-Infinity"
  | FDec neg d e => (if neg then [45] else []) ++ nat_repr d ++ 101 :: int_repr e
  end.

Definition hex_digit (v : Z) : Z := if v <? 10 then 48 + v else 87 + v.

Definition hex4 (n : Z) : str :=
  [hex_digit (n / 4096); hex_digit (n / 256 mod 16);
   hex_digit (n / 16 mod 16); hex_digit (n mod 16)].

(** The characters [json.dumps] leaves as they are: printable ASCII other
    than the quote and the backslash. *)
Definition S_CHAR (c : Z) : bool :=
  (32 <=? c) && (c <=? 126) && negb (c =? 92) && negb (c =? 34).

Definition ascii_escape_unichar (c : Z) : str :=
  if (c =? 92) || (c =? 34) then [92; c]
  else if c =? 8 then [92; 98]
  else if c =? 12 then [92; 102]
  else if c =? 10 then [92; 110]
  else if c =? 13 then [92; 114]
  else if c =? 9 then [92; 116]
  else if 65536 <=? c then
    92 :: 117 :: hex4 (55296 + (c - 65536) / 1024)
    ++ 92 :: 117 :: hex4 (56320 + (c - 65536) mod 1024)
  else 92 :: 117 :: hex4 c.

Definition escape (s : str) : str :=
  flat_map (fun c => if S_CHAR c then [c] else ascii_escape_unichar c) s.

(** [json.encoder.encode_basestring_ascii] *)
Definition encode_basestring_ascii (s : str) : str := 34 :: escape s ++ [34].

Definition newline_indent (indent : option nat) (level : nat) : str :=
  match indent with
  | None => []
  | Some n => 10 :: repeat 32 (n * level)
  end.

Definition item_separator (indent : option nat) (level : nat) : str :=
  match indent with
  | None => lit ", "
  | Some _ => 44 :: newline_indent indent level
  end.

(** The items of a container after the first one, each behind the item
    separator, and the closing bracket. *)
Section Containers.
Variable A : Type.
Variable write : A -> str.
Variables separator closing : str.

Fixpoint write_rest (l : list A) : str :=
  match l with
  | [] => closing
  | y :: l' => separator ++ write y ++ write_rest l'
  end.

End Containers.
Arguments write_rest {A} write separator closing l.

(** [json.dumps(obj, indent=indent)] at a nesting level. *)
Fixpoint encode (indent : option nat) (level : nat) (v : json) {struct v} : str :=
  match v with
  | JNull => lit "null"
  | JBool true => lit "true"
  | JBool false => lit "false"
  | JInt n => int_repr n
  | JFloat f => float_repr f
  | JStr s => encode_basestring_ascii s
  | JList [] => lit "[]"
  | JList (x :: r) =>
      91 :: newline_indent indent (S level) ++ encode indent (S level) x
      ++ write_rest (encode indent (S level)) (item_separator indent (S level))
           (newline_indent indent level ++ [93]) r
  | JDict [] => lit "{}"
  | JDict ((k, x) :: r) =>
      123 :: newline_indent indent (S level)
      ++ encode_basestring_ascii k ++ lit ": " ++ encode indent (S level) x
      ++ write_rest
           (fun kv => encode_basestring_ascii (fst kv) ++ lit ": "
                      ++ encode indent (S level) (snd kv))
           (item_separator indent (S level))
           (newline_indent indent level ++ [125]) r
  end.

Definition json_dumps (indent : option nat) (v : json) : str := encode indent 0 v.

(** ** json: the decoder *)

Definition whitespace (c : Z) : bool :=
  (c =? 32) || (c =? 9) || (c =? 10) || (c =? 13).

Fixpoint skip_ws (s : str) : str :=
  match s with
  | c :: r => if whitespace c then skip_ws r else s
  | [] => []
  end.

Definition hex_value (c : Z) : option Z :=
  if (48 <=? c) && (c <=? 57) then Some (c - 48)
  else if (97 <=? c) && (c <=? 102) then Some (c - 87)
  else if (65 <=? c) && (c <=? 70) then Some (c - 55)
  else None.

Definition decode_uXXXX (h1 h2 h3 h4 : Z) : option Z :=
  match hex_value h1, hex_value h2, hex_value h3, hex_value h4 with
  | Some a, Some b, Some c, Some d => Some (a * 4096 + b * 256 + c * 16 + d)
  | _, _, _, _ => None
  end.

Definition BACKSLASH (c : Z) : option Z :=
  if (c =? 34) || (c =? 92) || (c =? 47) then Some c
  else if c =? 98 then Some 8
  else if c =? 102 then Some 12
  else if c =? 110 then Some 10
  else if c =? 114 then Some 13
  else if c =? 116 then Some 9
  else None.

Definition high_surrogate (c : Z) : bool := (55296 <=? c) && (c <=? 56319).
Definition low_surrogate (c : Z) : bool := (56320 <=? c) && (c <=? 57343).

Definition push {A} (c : Z) (m : result (str * A)) : result (str * A) :=
  rmap (fun p => (c :: fst p, snd p)) m.

(** [json.decoder.scanstring] in strict mode, from the character after the
    opening quote; returns the string and the text after the closing
    quote. *)
Fixpoint scanstring (s : str) : result (str * str) :=
  match s with
  | [] => Raise JSONDecodeError
  | c :: r =>
      if c =? 34 then Ok ([], r)
      else if c =? 92 then
        match r with
        | [] => Raise JSONDecodeError
        | esc :: r1 =>
            if esc =? 117 then
              match r1 with
              | h1 :: h2 :: h3 :: h4 :: r2 =>
                  match decode_uXXXX h1 h2 h3 h4 with
                  | None => Raise JSONDecodeError
                  | Some uni =>
                      match r2 with
                      | b :: u :: g1 :: g2 :: g3 :: g4 :: r3 =>
                          if high_surrogate uni && (b =? 92) && (u =? 117) then
                            match decode_uXXXX g1 g2 g3 g4 with
                            | None => Raise JSONDecodeError
                            | Some uni2 =>
                                if low_surrogate uni2
                                then push (65536 + (uni - 55296) * 1024 + (uni2 - 56320))
                                          (scanstring r3)
                                else push uni (scanstring r2)
                            end
                          else push uni (scanstring r2)
                      | _ => push uni (scanstring r2)
                      end
                  end
              | _ => Raise JSONDecodeError
              end
            else
              match BACKSLASH esc with
              | Some ch => push ch (scanstring r1)
              | None => Raise JSONDecodeError
              end
        end
      else if c <=? 31 then Raise JSONDecodeError
      else push c (scanstring r)
  end.

Definition digit (c : Z) : bool := (48 <=? c) && (c <=? 57).

Fixpoint span_digits (s : str) : str * str :=
  match s with
  | c :: r => if digit c then let (ds, r') := span_digits r in (c :: ds, r') else ([], s)
  | [] => ([], [])
  end.

(** [int(digits)] for a run of decimal digits. *)
Definition int_of_digits (ds : str) : Z :=
  fold_left (fun a d => 10 * a + (d - 48)) ds 0.

(** The fraction of a number: a point followed by at least one digit. *)
Definition scan_frac (s : str) : str * str :=
  match s with
  | p :: d :: r =>
      if (p =? 46) && digit d then let (ds, r') := span_digits r in (d :: ds, r')
      else ([], s)
  | _ => ([], s)
  end.

(** The exponent of a number: [e] or [E], an optional sign, at least one
    digit; without a digit nothing is consumed. *)
Definition scan_exp (s : str) : option Z * str :=
  match s with
  | e :: r =>
      if (e =? 101) || (e =? 69) then
        let '(neg, r1) :=
          match r with
          | sg :: t => if sg =? 45 then (true, t) else if sg =? 43 then (false, t)
                       else (false, r)
          | [] => (false, r)
          end in
        match span_digits r1 with
        | ([], _) => (None, s)
        | (ds, r2) => (Some (if neg then - int_of_digits ds else int_of_digits ds), r2)
        end
      else (None, s)
  | [] => (None, s)
  end.

(** The number scanner of [json.scanner]: an [int] when the literal has
    neither fraction nor exponent, a [float] otherwise. *)
Definition match_number (s : str) : result (json * str) :=
  let '(neg, s1) :=
    match s with
    | c :: r => if c =? 45 then (true, r) else (false, s)
    | [] => (false, s)
    end in
  match s1 with
  | [] => Raise JSONDecodeError
  | c :: r =>
      if digit c then
        let '(ip, r1) := if c =? 48 then ([c], r)
                         else let (ds, r') := span_digits r in (c :: ds, r') in
        let '(frac, r2) := scan_frac r1 in
        let '(ex, r3) := scan_exp r2 in
        match frac, ex with
        | [], None =>
            Ok (JInt (if neg then - int_of_digits ip else int_of_digits ip), r3)
        | _, _ =>
            Ok (JFloat (FDec neg (int_of_digits (ip ++ frac))
                             (match ex with Some e => e | None => 0 end
                              - Z.of_nat (List.length frac))), r3)
        end
      else Raise JSONDecodeError
  end.

(** [scan_once] of [json.scanner] with the array and object parsers of
    [json.decoder]; each works on the text that remains and returns the
    value read with the text after it.  The fuel bounds the number of
    nested calls. *)
Fixpoint scan_once (fuel : nat) (s : str) {struct fuel} : result (json * str) :=
  match fuel with
  | O => Raise RecursionError
  | S fuel' =>
      match s with
      | [] => Raise JSONDecodeError
      | c :: r =>
          if c =? 34 then rmap (fun p => (JStr (fst p), snd p)) (scanstring r)
          else if c =? 123 then
            match skip_ws r with
            | q :: r1 =>
                if q =? 125 then Ok (JDict [], r1)
                else if q =? 34 then
                  rmap (fun p => (JDict (dict_of_pairs (fst p)), snd p))
                       (JSONObject fuel' r1)
                else Raise JSONDecodeError
            | [] => Raise JSONDecodeError
            end
          else if c =? 91 then
            match skip_ws r with
            | q :: r1 =>
                if q =? 93 then Ok (JList [], r1)
                else rmap (fun p => (JList (fst p), snd p)) (JSONArray fuel' (q :: r1))
            | [] => Raise JSONDecodeError
            end
          else if starts_with (lit "null") s then Ok (JNull, skipn 4 s)
          else if starts_with (lit "true") s then Ok (JBool true, skipn 4 s)
          else if starts_with (lit "false") s then Ok (JBool false, skipn 5 s)
          else if starts_with (lit "NaN") s then Ok (JFloat FNaN, skipn 3 s)
          else if starts_with (lit "Infinity") s then Ok (JFloat (FInf false), skipn 8 s)
          else if starts_with (lit "-Infinity") s then Ok (JFloat (FInf true), skipn 9 s)
          else match_number s
      end
  end
with JSONArray (fuel : nat) (s : str) {struct fuel} : result (list json * str) :=
  match fuel with
  | O => Raise RecursionError
  | S fuel' =>
      rbind (scan_once fuel' s) (fun p =>
        match skip_ws (snd p) with
        | c :: r1 =>
            if c =? 93 then Ok ([fst p], r1)
            else if c =? 44 then
              rmap (fun q => (fst p :: fst q, snd q)) (JSONArray fuel' (skip_ws r1))
            else Raise JSONDecodeError
        | [] => Raise JSONDecodeError
        end)
  end
with JSONObject (fuel : nat) (s : str) {struct fuel} : result (list (str * json) * str) :=
  match fuel with
  | O => Raise RecursionError
  | S fuel' =>
      rbind (scanstring s) (fun k =>
        match skip_ws (snd k) with
        | c :: r1 =>
            if c =? 58 then
              rbind (scan_once fuel' (skip_ws r1)) (fun p =>
                match skip_ws (snd p) with
                | d :: r3 =>
                    if d =? 125 then Ok ([(fst k, fst p)], r3)
                    else if d =? 44 then
                      match skip_ws r3 with
                      | q :: r4 =>
                          if q =? 34 then
                            rmap (fun m => ((fst k, fst p) :: fst m, snd m))
                                 (JSONObject fuel' r4)
                          else Raise JSONDecodeError
                      | [] => Raise JSONDecodeError
                      end
                    else Raise JSONDecodeError
                | [] => Raise JSONDecodeError
                end)
            else Raise JSONDecodeError
        | [] => Raise JSONDecodeError
        end)
  end.

(** [json.loads(s)] for a [str]: a leading byte order mark is refused, the
    value may be surrounded by whitespace, and nothing may follow it. *)
Definition json_loads (s : str) : result json :=
  if starts_with [65279] s then Raise JSONDecodeError
  else
    rbind (scan_once (S (List.length s)) (skip_ws s)) (fun p =>
      match skip_ws (snd p) with
      | [] => Ok (fst p)
      | _ :: _ => Raise JSONDecodeError
      end).

(** ** lambda_function.py *)

Local Open Scope py_scope.

(** [decode_jwt_payload(token)]: the payload of the token, or [None]. *)
Definition decode_jwt_payload (token : json) : M json :=
  try_except
    (parts <- lift (rmap (split 46) (as_str token)) ;;
     if negb (List.length parts =? 3)%nat then
       log ERROR Invalid_JWT_token_format ;;;
       ret JNull
     else
       let payload_part := nth 1 parts [] in
       let padding := 4 - Z.of_nat (List.length payload_part) mod 4 in
       let payload_part :=
         if negb (padding =? 4)
         then payload_part ++ repeat 61 (Z.to_nat padding)
         else payload_part in
       decoded_bytes <- lift (urlsafe_b64decode payload_part) ;;
       text <- lift (utf8_decode decoded_bytes) ;;
       payload <- lift (json_loads text) ;;
       ret payload)
    (fun e =>
       log ERROR (Error_decoding_JWT_payload e) ;;;
       ret JNull).

(** The loop over [headers.items()] that looks for the custom header and
    leaves at the first match. *)
Fixpoint find_id_token (headers : list (str * json)) (id_token : json) : json :=
  match headers with
  | [] => id_token
  | (header_name, header_value) :: rest =>
      if str_eqb (lower header_name) (lit "x-cognito-id-token")
      then header_value
      else find_id_token rest id_token
  end.

Definition possible_group_claims : list str :=
  [lit "cognito:groups"; lit "groups"; lit "custom:groups"; lit "memberOf"; lit "roles"].

(** The loop over [possible_group_claims]: the first name present in the
    payload decides, whatever its value is. *)
Fixpoint extract_groups (claims : list str) (token_payload : json)
    (groups : list json) : result (list json) :=
  match claims with
  | [] => Ok groups
  | claim_name :: rest =>
      rbind (contains claim_name token_payload) (fun present =>
        if present then
          rbind (getitem token_payload claim_name) (fun claim_value =>
            match claim_value with
            | JList l => Ok (groups ++ l)
            | JStr s => Ok (groups ++ map (fun g => JStr (strip g)) (split 44 s))
            | _ => Ok groups
            end)
        else extract_groups rest token_payload groups)
  end.

(** [get_user_info_from_token(event)]: the pair [(user_info, groups)], with
    [None] for [user_info] when no identity could be read. *)
Definition get_user_info_from_token (event : json) : M (json * list json) :=
  try_except
    (headers <- lift (get event (lit "headers") (JDict [])) ;;
     header_items <- lift (items headers) ;;
     let id_token := find_id_token header_items JNull in
     if negb (truthy id_token) then
       log WARNING No_X_Cognito_Id_Token_header_found ;;;
       ret (JNull, [])
     else
       token_payload <- decode_jwt_payload id_token ;;
       if negb (truthy token_payload) then ret (JNull, [])
       else
         log INFO (Token_payload token_payload) ;;;
         username <- lift (get token_payload (lit "cognito:username") JNull) ;;
         email <- lift (get token_payload (lit "email") JNull) ;;
         email_verified <- lift (get token_payload (lit "email_verified") JNull) ;;
         sub <- lift (get token_payload (lit "sub") JNull) ;;
         aud <- lift (get token_payload (lit "aud") JNull) ;;
         iss <- lift (get token_payload (lit "iss") JNull) ;;
         token_use <- lift (get token_payload (lit "token_use") JNull) ;;
         let user_info :=
           JDict [(lit "username", username); (lit "email", email);
                  (lit "email_verified", email_verified); (lit "sub", sub);
                  (lit "aud", aud); (lit "iss", iss); (lit "token_use", token_use)] in
         groups <- lift (extract_groups possible_group_claims token_payload []) ;;
         log INFO (User_info user_info) ;;;
         log INFO (User_groups groups) ;;;
         ret (user_info, groups))
    (fun e =>
       log ERROR (Error_extracting_user_info_from_token e) ;;;
       ret (JNull, [])).

(** [get_user_from_cognito_context(event)]: the fallback identity. *)
Definition get_user_from_cognito_context (event : json) : M (json * list json) :=
  try_except
    (request_context <- lift (get event (lit "requestContext") (JDict [])) ;;
     identity <- lift (get request_context (lit "identity") (JDict [])) ;;
     cognito_identity_id <- lift (get identity (lit "cognitoIdentityId") JNull) ;;
     cognito_auth_provider <-
       lift (get identity (lit "cognitoAuthenticationProvider") JNull) ;;
     source_ip <- lift (get identity (lit "sourceIp") JNull) ;;
     user_agent <- lift (get identity (lit "userAgent") JNull) ;;
     let user_info :=
       JDict [(lit "cognito_identity_id", cognito_identity_id);
              (lit "cognito_auth_provider", cognito_auth_provider);
              (lit "source_ip", source_ip); (lit "user_agent", user_agent)] in
     log INFO (Cognito_context_user_info user_info) ;;;
     ret (user_info, []))
    (fun e =>
       log ERROR (Error_extracting_user_from_Cognito_context e) ;;;
       ret (JNull, [])).

(** The [dict] the handler returns. *)
Record response : Type := {
  statusCode : Z;
  headers : list (str * str);
  body : str
}.

(** The object the handler serialises into the body of its response. *)
Definition response_body (user_info : json) (user_groups : list json)
    (is_admin is_viewer : bool) (api_info : json) (context : context) : json :=
  JDict [(lit "message", JStr (lit "Hello from Lambda!"));
         (lit "user_info", user_info);
         (lit "user_groups", JList user_groups);
         (lit "is_admin", JBool is_admin);
         (lit "is_viewer", JBool is_viewer);
         (lit "api_info", api_info);
         (lit "timestamp", JStr (aws_request_id context))].

(** The second half of the handler, from the role flags on: the flags, the
    request metadata and the response, for the identity chosen before. *)
Definition assemble_response (event : json) (context : context)
    (user_info : json) (user_groups : list json) : M response :=
  let is_admin := existsb (eq_str (lit "Admin")) user_groups in
  let is_viewer := existsb (eq_str (lit "Viewer")) user_groups in
  request_context <- lift (get event (lit "requestContext") (JDict [])) ;;
  api_id <- lift (get request_context (lit "apiId") JNull) ;;
  stage <- lift (get request_context (lit "stage") JNull) ;;
  request_id <- lift (get request_context (lit "requestId") JNull) ;;
  http_method <- lift (get request_context (lit "httpMethod") JNull) ;;
  resource_path <- lift (get request_context (lit "resourcePath") JNull) ;;
  let api_info :=
    JDict [(lit "api_id", api_id); (lit "stage", stage);
           (lit "request_id", request_id); (lit "http_method", http_method);
           (lit "resource_path", resource_path)] in
  ret {| statusCode := 200;
         headers := [(lit "Content-Type", lit "application/json")];
         body := json_dumps (Some 2%nat)
                   (response_body user_info user_groups is_admin is_viewer
                                  api_info context) |}.

(** [handler(event, context)] *)
Definition handler (event : json) (context : context) : M response :=
  log INFO (Event (json_dumps (Some 2%nat) event)) ;;;
  log INFO (Invocation_context context) ;;;
  from_token <- get_user_info_from_token event ;;
  identity <-
    (if negb (truthy (fst from_token))
     then get_user_from_cognito_context event
     else ret from_token) ;;
  assemble_response event context (fst identity) (snd identity).

(** ** The specification's vocabulary *)

(** The padding count as the specification writes it. *)
Definition padding_count (payload_part : str) : Z :=
  (4 - Z.of_nat (List.length payload_part) mod 4) mod 4.

(** What the decoder does with the padded second segment: base64url, then
    UTF-8, then JSON. *)
Definition decode_segment (padded : str) : result json :=
  rbind (urlsafe_b64decode padded) (fun decoded_bytes =>
  rbind (utf8_decode decoded_bytes) json_loads).

(** The number of [.] delimiters of a token. *)
Definition delimiters (token : str) : nat := count_occ Z.eq_dec token 46.

(** The priority order of the group claims as the specification lists it. *)
Definition group_claim_priority : list str :=
  map lit ["cognito:groups"; "groups"; "custom:groups"; "memberOf"; "roles"]%string.

Definition present (d : dict) (name : str) : bool :=
  match lookup name d with Some _ => true | None => false end.

(** The value of the first group claim present in a payload. *)
Definition first_group_claim (d : dict) : option json :=
  match find (present d) group_claim_priority with
  | Some name => lookup name d
  | None => None
  end.

(** The group list the specification derives from a payload. *)
Definition group_list (d : dict) : list json :=
  match first_group_claim d with
  | Some (JList l) => l
  | Some (JStr s) => map (fun piece => JStr (strip piece)) (split 44 s)
  | _ => []
  end.

(** The seven fields of the user identity record. *)
Definition user_identity (d : dict) : json :=
  let claim name := match lookup (lit name) d with Some v => v | None => JNull end in
  JDict [(lit "username", claim "cognito:username"%string);
         (lit "email", claim "email"%string);
         (lit "email_verified", claim "email_verified"%string);
         (lit "sub", claim "sub"%string);
         (lit "aud", claim "aud"%string);
         (lit "iss", claim "iss"%string);
         (lit "token_use", claim "token_use"%string)].

(** The fallback identity record built from an identity block. *)
Definition fallback_identity (identity : dict) : json :=
  let field name := match lookup (lit name) identity with Some v => v | None => JNull end in
  JDict [(lit "cognito_identity_id", field "cognitoIdentityId"%string);
         (lit "cognito_auth_provider", field "cognitoAuthenticationProvider"%string);
         (lit "source_ip", field "sourceIp"%string);
         (lit "user_agent", field "userAgent"%string)].

(** The request metadata echoed in the response. *)
Definition api_information (request_context : dict) : json :=
  let field name :=
    match lookup (lit name) request_context with Some v => v | None => JNull end in
  JDict [(lit "api_id", field "apiId"%string);
         (lit "stage", field "stage"%string);
         (lit "request_id", field "requestId"%string);
         (lit "http_method", field "httpMethod"%string);
         (lit "resource_path", field "resourcePath"%string)].

(** The header name the locator looks for, and equality of header names up
    to the case of ASCII letters. *)
Definition token_header : str := lit "x-cognito-id-token".

Definition same_letter (a b : Z) : bool :=
  (a =? b)
  || ((65 <=? a) && (a <=? 90) && (b =? a + 32))
  || ((65 <=? b) && (b <=? 90) && (a =? b + 32)).

Fixpoint caseless_eq (a b : str) : bool :=
  match a, b with
  | [], [] => true
  | x :: a', y :: b' => same_letter x y && caseless_eq a' b'
  | _, _ => false
  end.

Definition matches (header : str * json) : bool :=
  str_eqb (lower (fst header)) token_header.

(** The no-identity sentinel of the claim extractor. *)
Definition no_identity : json * list json := (JNull, []).

(** A payload that makes the extractor give up although decoding
    succeeded: any value but a non-empty object. *)
Definition non_empty_object (v : json) : bool :=
  match v with
  | JDict (_ :: _) => true
  | _ => false
  end.

(** A log written before a computation. *)
Definition tell (w : list record) : M unit := (w, Ok tt).

(** The request shapes: the event is an object, and its [requestContext],
    when present, is an object too. *)
Definition request_context_of (event : json) : option dict :=
  match event with
  | JDict d =>
      match lookup (lit "requestContext") d with
      | None => Some []
      | Some (JDict rc) => Some rc
      | Some _ => None
      end
  | _ => None
  end.

(** The identity block of a request context: absent counts as empty, and
    anything but an object is unusable. *)
Definition identity_block_of (request_context : dict) : option dict :=
  match lookup (lit "identity") request_context with
  | None => Some []
  | Some (JDict i) => Some i
  | Some _ => None
  end.

(** The response the handler assembles for an identity and a group list. *)
Definition response_for (user_info : json) (user_groups : list json)
    (request_context : dict) (context : context) : response :=
  {| statusCode := 200;
     headers := [(lit "Content-Type", lit "application/json")];
     body := json_dumps (Some 2%nat)
               (response_body user_info user_groups
                  (existsb (eq_str (lit "Admin")) user_groups)
                  (existsb (eq_str (lit "Viewer")) user_groups)
                  (api_information request_context) context) |}.

(** ** The round trip: well-formed objects and synthetic tokens *)

Definition ascii_text (s : str) : Prop := Forall (fun c => 0 <= c < 128) s.

Definition code_point (c : Z) : bool := (0 <=? c) && (c <? 1114112).

(** A [str] that holds a high surrogate directly followed by a low one is
    written by [json.dumps] as the escapes of a surrogate pair, which
    [json.loads] reads as one character; text never holds such a pair. *)
Fixpoint no_split_pair (s : str) : bool :=
  match s with
  | [] => true
  | a :: r =>
      match r with
      | b :: _ => negb (high_surrogate a && low_surrogate b)
      | [] => true
      end && no_split_pair r
  end.

Definition wf_str (s : str) : bool := forallb code_point s && no_split_pair s.

Fixpoint unique_keys (d : list (str * json)) : bool :=
  match d with
  | [] => true
  | (k, _) :: r => negb (existsb (fun kv => str_eqb k (fst kv)) r) && unique_keys r
  end.

(** The values that are JSON data as Python holds it: the keys of a [dict]
    are distinct, every [str] is a sequence of code points without a split
    surrogate pair, and the significand of a [float] carries no sign. *)
Fixpoint wf_json (v : json) : bool :=
  match v with
  | JNull | JBool _ | JInt _ => true
  | JFloat (FDec _ d _) => 0 <=? d
  | JFloat _ => true
  | JStr s => wf_str s
  | JList l => forallb wf_json l
  | JDict d =>
      unique_keys d && forallb (fun kv => wf_str (fst kv) && wf_json (snd kv)) d
  end.

(** A bound on the nesting the decoder goes through for a value. *)
Fixpoint size (v : json) : nat :=
  match v with
  | JList l => S (fold_right (fun x n => S (size x + n)) O l)
  | JDict d => S (fold_right (fun kv n => S (size (snd kv) + n)) O d)
  | _ => 1
  end.

(** What [json.dumps] writes after a value: nothing, a comma or a closing
    bracket. *)
Definition terminated (rest : str) : bool :=
  match rest with
  | [] => true
  | c :: _ => (c =? 44) || (c =? 93) || (c =? 125)
  end.

(** The characters a serialised value can begin with. *)
Definition value_start (c : Z) : bool :=
  digit c || (c =? 34) || (c =? 45) || (c =? 73) || (c =? 78) || (c =? 91)
  || (c =? 102) || (c =? 110) || (c =? 116) || (c =? 123).

Definition begins_value (text : str) : Prop :=
  exists c r, text = c :: r /\ value_start c = true.

(** A value the decoder reads back from its serialisation, whatever
    follows it in a container. *)
Definition round_trips (v : json) : Prop :=
  wf_json v = true ->
  forall level fuel rest,
    (size v <= fuel)%nat -> terminated rest = true ->
    scan_once fuel (encode None level v ++ rest) = Ok (v, rest).

Definition items_size (l : list json) : nat :=
  fold_right (fun x n => S (size x + n)) O l.

Definition members_size (d : list (str * json)) : nat :=
  fold_right (fun kv n => S (size (snd kv) + n)) O d.

(** One member of an object as [json.dumps] writes it. *)
Definition write_member (level : nat) (kv : str * json) : str :=
  encode_basestring_ascii (fst kv) ++ lit ": " ++ encode None level (snd kv).

(** A decimal numeral: digits only, and no leading zero before another
    digit. *)
Definition numeral (ds : str) (n : Z) : Prop :=
  Forall (fun c => digit c = true) ds
  /\ (exists c r, ds = c :: r /\ (c = 48 -> r = []))
  /\ int_of_digits ds = n.

(** Text that does not begin with the escape of a low surrogate: after the
    escape of a lone high surrogate the decoder looks at it. *)
Definition no_low_escape (text : str) : Prop :=
  forall g1 g2 g3 g4 r,
    text = 92 :: 117 :: g1 :: g2 :: g3 :: g4 :: r ->
    exists uni, decode_uXXXX g1 g2 g3 g4 = Some uni /\ low_surrogate uni = false.

(** The synthetic token of the round trip: the object serialised by
    [json.dumps], encoded in UTF-8 and in base64url without padding, and
    set between a header and a signature segment. *)
Definition synthetic_token (header : str) (payload : json) (signature : str)
  : result str :=
  rmap (fun data => header ++ 46 :: urlsafe_b64encode_nopad data ++ 46 :: signature)
       (utf8_encode (json_dumps None payload)).

(** ** Further vocabulary *)

(** A character of one of the two base64 alphabets the decoder accepts. *)
Definition base64_char (c : Z) : bool :=
  match table_a2b_base64 (urlsafe_translate c) with
  | Some _ => true
  | None => false
  end.

(** A [str] without whitespace at either end. *)
Definition trimmed (p : str) : Prop :=
  match p with
  | [] => True
  | c :: _ => isspace c = false /\ isspace (last p 0) = false
  end.

(** The records the extractor logs when it reads an identity from a
    payload. *)
Definition identity_log (d : dict) : list record :=
  [(INFO, Token_payload (JDict d));
   (INFO, User_info (user_identity d));
   (INFO, User_groups (group_list d))].

(** An identity and a group list read from the payload of a token sent with
    the request. *)
Definition from_payload (event : json) (user_info : json) (groups : list json)
  : Prop :=
  exists hs w d,
    get event (lit "headers") (JDict []) = Ok (JDict hs)
    /\ truthy (find_id_token hs JNull) = true
    /\ decode_jwt_payload (find_id_token hs JNull) = (w, Ok (JDict d))
    /\ d <> []
    /\ user_info = user_identity d
    /\ groups = group_list d.

(** What can follow a value in a text [json.dumps] wrote with or without
    indentation: nothing, a comma, a closing bracket or whitespace. *)
Definition closes (rest : str) : bool :=
  match rest with
  | [] => true
  | c :: _ => (c =? 44) || (c =? 93) || (c =? 125) || whitespace c
  end.

Definition blank (ws : str) : Prop := Forall (fun c => whitespace c = true) ws.

(** A value the decoder reads back from the text [json.dumps] writes for
    it at a given indentation. *)
Definition round_trips_at (indent : option nat) (v : json) : Prop :=
  wf_json v = true ->
  forall level fuel rest,
    (size v <= fuel)%nat -> closes rest = true ->
    scan_once fuel (encode indent level v ++ rest) = Ok (v, rest).

(** One member of an object at an indentation. *)
Definition write_member_at (indent : option nat) (level : nat) (kv : str * json)
  : str :=
  encode_basestring_ascii (fst kv) ++ lit ": " ++ encode indent level (snd kv).

(** A Unicode scalar value: a code point that is not a surrogate.  Text
    decoded from UTF-8 holds nothing else. *)
Definition scalar (c : Z) : bool := code_point c && negb (surrogate c).

Definition scalar_text (s : str) : Prop := forallb scalar s = true.

(** [rest] is what remains of [text] after a prefix was read. *)
Definition suffix (rest text : str) : Prop := exists read, text = read ++ rest.

Definition wf_member (kv : str * json) : bool := wf_str (fst kv) && wf_json (snd kv).

(** Text that, if it begins with a [\u] escape, begins with the escape of
    something else than a low surrogate. *)
Definition not_low_escape (text : str) : Prop :=
  forall g1 g2 g3 g4 r b,
    text = 92 :: 117 :: g1 :: g2 :: g3 :: g4 :: r ->
    decode_uXXXX g1 g2 g3 g4 = Some b -> low_surrogate b = false.

(** The character two surrogates stand for. *)
Definition join_surrogates (high low : Z) : Z :=
  65536 + (high - 55296) * 1024 + (low - 56320).

(** ** Sample requests *)

(** A request whose only header carries a token. *)
Definition request_with (header_name : string) (token : json) : json :=
  JDict [(lit "headers", JDict [(lit header_name, token)])].

Definition sample_context : context := {| aws_request_id := lit "request-1" |}.

(** Tokens whose payloads are [{"cognito:groups": ["Admin", "X"]}],
    [{"groups": "Admin, Viewer"}], [{"cognito:groups": 5, "groups":
    ["Admin"]}], [{}] and [[1]]. *)
Definition token_admin_x : json :=
  JStr (lit "aGVhZGVy.eyJjb2duaXRvOmdyb3VwcyI6IFsiQWRtaW4iLCAiWCJdfQ.c2ln").
Definition token_groups_string : json :=
  JStr (lit "aGVhZGVy.eyJncm91cHMiOiAiQWRtaW4sIFZpZXdlciJ9.c2ln").
Definition token_groups_number : json :=
  JStr (lit "aGVhZGVy.eyJjb2duaXRvOmdyb3VwcyI6IDUsICJncm91cHMiOiBbIkFkbWluIl19.c2ln").
Definition token_empty_object : json := JStr (lit "aGVhZGVy.e30.c2ln").
Definition token_array : json := JStr (lit "aGVhZGVy.WzFd.c2ln").

(** An object with every kind of value in it. *)
Definition sample_object : json :=
  JDict [(lit "sub", JStr (lit "user-1"));
         (lit "cognito:groups", JList [JStr (lit "Admin"); JStr (lit "X")]);
         (lit "exp", JInt 1700000000);
         (lit "delta", JInt (-12));
         (lit "ratio", JFloat (FDec false 15 (-1)));
         (lit "name", JStr [74; 111; 115; 233; 10; 128512; 34]);
         (lit "flags", JList [JBool true; JBool false; JNull; JList []; JDict []]);
         (lit "nested", JDict [(lit "k", JList [JInt 0; JDict [(lit "z", JInt 1)]])])].

Definition payload_groups_number : dict :=
  [(lit "cognito:groups", JInt 5); (lit "groups", JList [JStr (lit "Admin")])].

(** * Proofs *)

(** ** The monad and the builtins *)

Ltac run :=
  cbn [bind ret lift log raise try_except tell truthy negb get items rbind rmap
       app fst snd].

Ltac done_log := rewrite <- ?app_assoc, ?app_nil_r; reflexivity.

Lemma str_eqb_eq (a b : str) : str_eqb a b = true <-> a = b.
Proof.
  unfold str_eqb. destruct (list_eq_dec Z.eq_dec a b); split; congruence.
Qed.

Lemma str_eqb_refl (a : str) : str_eqb a a = true.
Proof. now apply str_eqb_eq. Qed.

Lemma str_eqb_neq (a b : str) : str_eqb a b = false <-> a <> b.
Proof.
  unfold str_eqb. destruct (list_eq_dec Z.eq_dec a b); split; congruence.
Qed.

Lemma bind_lift_lift {A B C} (a : result A) (f : A -> result B) (k : B -> M C) :
  bind (lift a) (fun x => bind (lift (f x)) k) = bind (lift (rbind a f)) k.
Proof.
  destruct a as [a|e]; simpl; [|reflexivity].
  destruct (f a) as [b|e]; simpl; [|reflexivity].
  now destruct (k b).
Qed.

Lemma bind_lift_ret {A} (a : result A) : bind (lift a) (fun x => ret x) = lift a.
Proof. destruct a; reflexivity. Qed.

Lemma bind_lift_Ok {A B} (a : A) (k : A -> M B) : bind (lift (Ok a)) k = k a.
Proof. unfold bind, lift. destruct (k a); reflexivity. Qed.

Lemma bind_ret {A B} (a : A) (k : A -> M B) : bind (ret a) k = k a.
Proof. apply bind_lift_Ok. Qed.

Lemma bind_assoc {A B C} (m : M A) (f : A -> M B) (g : B -> M C) :
  bind (bind m f) g = bind m (fun a => bind (f a) g).
Proof.
  destruct m as [w [a|e]]; simpl; [|reflexivity].
  destruct (f a) as [w1 [b|e]]; simpl; [|reflexivity].
  destruct (g b) as [w2 r]. now rewrite app_assoc.
Qed.

(** A computation guarded by [try]/[except] whose handler returns never
    raises. *)
Lemma try_except_returns {A} (body : M A) (h : exn -> M A) :
  (forall e, exists w a, h e = (w, Ok a)) ->
  exists w a, try_except body h = (w, Ok a).
Proof.
  intros Hh. destruct body as [w [a|e]]; simpl.
  - now exists w, a.
  - destruct (Hh e) as (w' & a & ->). now exists (w ++ w'), a.
Qed.

(** ** The segments of a token *)

Lemma split_length (sep : Z) (s : str) :
  List.length (split sep s) = S (count_occ Z.eq_dec s sep).
Proof.
  induction s as [|c r IH]; simpl; [reflexivity|].
  destruct (Z.eqb_spec c sep) as [->|Hne].
  - destruct (Z.eq_dec sep sep); [|congruence]. simpl. now rewrite IH.
  - destruct (Z.eq_dec c sep); [congruence|].
    destruct (split sep r); simpl in *; [discriminate|assumption].
Qed.

Lemma three_segments_iff (s : str) :
  List.length (split 46 s) = 3%nat <-> delimiters s = 2%nat.
Proof. unfold delimiters. rewrite split_length. lia. Qed.

Lemma decode_three_segments (token h p s : str) :
  split 46 token = [h; p; s] ->
  decode_jwt_payload (JStr token)
  = try_except
      (lift (decode_segment (p ++ repeat 61 (Z.to_nat (padding_count p)))))
      (fun e => (log ERROR (Error_decoding_JWT_payload e) ;;; ret JNull)%py).
Proof.
  intros Hs. unfold decode_jwt_payload. simpl as_str. simpl rmap.
  rewrite bind_lift_Ok, Hs. cbn [List.length Nat.eqb negb nth].
  assert (Hpad :
    (if negb (4 - Z.of_nat (List.length p) mod 4 =? 4)
     then p ++ repeat 61 (Z.to_nat (4 - Z.of_nat (List.length p) mod 4))
     else p) = p ++ repeat 61 (Z.to_nat (padding_count p))).
  { unfold padding_count.
    destruct (Z.eqb_spec (4 - Z.of_nat (List.length p) mod 4) 4) as [E|E];
      cbn [negb].
    - replace ((4 - Z.of_nat (List.length p) mod 4) mod 4) with 0 by lia.
      simpl. now rewrite app_nil_r.
    - replace ((4 - Z.of_nat (List.length p) mod 4) mod 4)
        with (4 - Z.of_nat (List.length p) mod 4) by lia.
      reflexivity. }
  rewrite Hpad. f_equal. unfold decode_segment.
  destruct (urlsafe_b64decode _) as [b|e]; [|reflexivity].
  rewrite bind_lift_Ok. cbn [rbind].
  destruct (utf8_decode b) as [t|e]; [|reflexivity].
  rewrite bind_lift_Ok. cbn [rbind]. apply bind_lift_ret.
Qed.

(** C2. A token of three segments has its second segment padded with
    exactly [(4 - length % 4) % 4] characters [=] before it is decoded:
    one, two or three when the length is not a multiple of four, none
    when it is; the padded segment always has a length that is a multiple
    of four. *)
Theorem padding_before_decoding (token h p s : str) :
  split 46 token = [h; p; s] ->
  let padded := p ++ repeat 61 (Z.to_nat (padding_count p)) in
  decode_jwt_payload (JStr token)
  = try_except (lift (decode_segment padded))
      (fun e => (log ERROR (Error_decoding_JWT_payload e) ;;; ret JNull)%py)
  /\ (Z.of_nat (List.length p) mod 4 <> 0 ->
      1 <= padding_count p <= 3
      /\ padding_count p = 4 - Z.of_nat (List.length p) mod 4)
  /\ (Z.of_nat (List.length p) mod 4 = 0 -> padding_count p = 0 /\ padded = p)
  /\ Z.of_nat (List.length padded) mod 4 = 0.
Proof.
  intros Hs padded. split; [exact (decode_three_segments _ _ _ _ Hs)|].
  unfold padded, padding_count. repeat split.
  - lia.
  - lia.
  - lia.
  - lia.
  - replace ((4 - Z.of_nat (List.length p) mod 4) mod 4) with 0 by lia.
    simpl. apply app_nil_r.
  - rewrite length_app, repeat_length, Nat2Z.inj_add, Z2Nat.id by lia. lia.
Qed.

Lemma padding_before_decoding_witness :
  let token := lit "aGVhZA.eyJhIjoxfQ.c2ln" in
  decode_jwt_payload (JStr token)
  = try_except (lift (decode_segment (lit "eyJhIjoxfQ==")))
      (fun e => (log ERROR (Error_decoding_JWT_payload e) ;;; ret JNull)%py)
  /\ padding_count (lit "eyJhIjoxfQ") = 2.
Proof.
  split.
  - exact (proj1 (padding_before_decoding (lit "aGVhZA.eyJhIjoxfQ.c2ln")
                    (lit "aGVhZA") (lit "eyJhIjoxfQ") (lit "c2ln") eq_refl)).
  - reflexivity.
Defined.

Lemma decode_wrong_segment_count (s : str) :
  List.length (split 46 s) <> 3%nat ->
  decode_jwt_payload (JStr s) = ([(ERROR, Invalid_JWT_token_format)], Ok JNull).
Proof.
  intros Hn. unfold decode_jwt_payload. cbn [as_str rmap rbind].
  rewrite bind_lift_Ok.
  destruct (Nat.eqb_spec (List.length (split 46 s)) 3) as [E|_]; [contradiction|].
  reflexivity.
Qed.

Lemma decode_not_a_str (token : json) :
  (forall s, token <> JStr s) ->
  decode_jwt_payload token
  = ([(ERROR, Error_decoding_JWT_payload AttributeError)], Ok JNull).
Proof.
  intros Hn. destruct token; try reflexivity. now elim (Hn s).
Qed.

Lemma decode_never_raises (token : json) :
  exists w payload, decode_jwt_payload token = (w, Ok payload).
Proof.
  unfold decode_jwt_payload. apply try_except_returns.
  intros e. eexists _, _. reflexivity.
Qed.

(** C3. A token that does not have exactly two [.] delimiters, which is
    the same as not splitting into exactly three segments, makes the
    decoder log the format error and return [None].  Whatever the input
    is, the decoder returns: a segment that is bad base64, bad UTF-8 or bad
    JSON, and a token that is not a [str] at all, are logged with the
    exception and answered with [None]. *)
Theorem malformed_token_is_invalid (token : json) :
  (exists w payload, decode_jwt_payload token = (w, Ok payload))
  /\ (forall s, token = JStr s -> delimiters s <> 2%nat ->
        List.length (split 46 s) <> 3%nat
        /\ decode_jwt_payload token
           = ([(ERROR, Invalid_JWT_token_format)], Ok JNull))
  /\ (forall s h p g e, token = JStr s -> split 46 s = [h; p; g] ->
        decode_segment (p ++ repeat 61 (Z.to_nat (padding_count p))) = Raise e ->
        decode_jwt_payload token
        = ([(ERROR, Error_decoding_JWT_payload e)], Ok JNull))
  /\ ((forall s, token <> JStr s) ->
        decode_jwt_payload token
        = ([(ERROR, Error_decoding_JWT_payload AttributeError)], Ok JNull)).
Proof.
  split; [apply decode_never_raises|]. split; [|split].
  - intros s -> Hd.
    assert (Hl : List.length (split 46 s) <> 3%nat)
      by (rewrite three_segments_iff; exact Hd).
    split; [exact Hl|now apply decode_wrong_segment_count].
  - intros s h p g e -> Hs He.
    rewrite (decode_three_segments _ _ _ _ Hs), He. reflexivity.
  - apply decode_not_a_str.
Qed.

Lemma malformed_token_is_invalid_witness :
  decode_jwt_payload (JStr (lit "only.two"))
  = ([(ERROR, Invalid_JWT_token_format)], Ok JNull)
  /\ decode_jwt_payload (JStr (lit "a.b.c.d"))
     = ([(ERROR, Invalid_JWT_token_format)], Ok JNull)
  /\ decode_jwt_payload (JStr (lit "h.QUJDR.s"))
     = ([(ERROR, Error_decoding_JWT_payload BinasciiError)], Ok JNull)
  /\ decode_jwt_payload (JStr (lit "h.bm90IGpzb24.s"))
     = ([(ERROR, Error_decoding_JWT_payload JSONDecodeError)], Ok JNull)
  /\ decode_jwt_payload (JInt 7)
     = ([(ERROR, Error_decoding_JWT_payload AttributeError)], Ok JNull).
Proof.
  split; [|split; [|split; [|split]]].
  - refine (proj2 (proj1 (proj2 (malformed_token_is_invalid (JStr (lit "only.two"))))
                     (lit "only.two") eq_refl _)).
    vm_compute. discriminate.
  - refine (proj2 (proj1 (proj2 (malformed_token_is_invalid (JStr (lit "a.b.c.d"))))
                     (lit "a.b.c.d") eq_refl _)).
    vm_compute. discriminate.
  - exact (proj1 (proj2 (proj2 (malformed_token_is_invalid (JStr (lit "h.QUJDR.s")))))
             (lit "h.QUJDR.s") (lit "h") (lit "QUJDR") (lit "s") BinasciiError
             eq_refl eq_refl eq_refl).
  - exact (proj1 (proj2 (proj2 (malformed_token_is_invalid (JStr (lit "h.bm90IGpzb24.s")))))
             (lit "h.bm90IGpzb24.s") (lit "h") (lit "bm90IGpzb24") (lit "s")
             JSONDecodeError eq_refl eq_refl eq_refl).
  - refine (proj2 (proj2 (proj2 (malformed_token_is_invalid (JInt 7)))) _).
    intros s. discriminate.
Defined.

(** ** The claim extractor *)

Lemma get_dict (d : dict) (key : str) (default : json) :
  get (JDict d) key default
  = Ok (match lookup key d with Some v => v | None => default end).
Proof. reflexivity. Qed.

Lemma extract_groups_find (d : dict) (names : list str) (acc : list json) :
  extract_groups names (JDict d) acc
  = Ok (acc ++ match find (present d) names with
               | Some name =>
                   match lookup name d with
                   | Some (JList l) => l
                   | Some (JStr s) => map (fun piece => JStr (strip piece)) (split 44 s)
                   | _ => []
                   end
               | None => []
               end).
Proof.
  induction names as [|name rest IH]; cbn [extract_groups find].
  - now rewrite app_nil_r.
  - cbn [contains rbind]. unfold present at 1.
    destruct (lookup name d) as [v|] eqn:E.
    + cbn [getitem]. rewrite E. cbn [rbind].
      destruct v; now rewrite ?app_nil_r.
    + apply IH.
Qed.

Lemma extract_groups_group_list (d : dict) :
  extract_groups possible_group_claims (JDict d) [] = Ok (group_list d).
Proof.
  rewrite extract_groups_find. unfold group_list, first_group_claim.
  change possible_group_claims with group_claim_priority.
  destruct (find (present d) group_claim_priority); reflexivity.
Qed.

Lemma extractor_no_headers (event : json) (e : exn) :
  rbind (get event (lit "headers") (JDict [])) items = Raise e ->
  get_user_info_from_token event
  = ([(ERROR, Error_extracting_user_info_from_token e)], Ok no_identity).
Proof.
  unfold get_user_info_from_token. intros H.
  destruct (get event (lit "headers") (JDict [])) as [h|e']; cbn [rbind] in H.
  - rewrite bind_lift_Ok. rewrite H. reflexivity.
  - injection H as ->. reflexivity.
Qed.

Lemma extractor_no_token (event : json) (hs : list (str * json)) :
  get event (lit "headers") (JDict []) = Ok (JDict hs) ->
  truthy (find_id_token hs JNull) = false ->
  get_user_info_from_token event
  = ([(WARNING, No_X_Cognito_Id_Token_header_found)], Ok no_identity).
Proof.
  unfold get_user_info_from_token. intros -> Ht.
  rewrite bind_lift_Ok. cbn [items]. rewrite bind_lift_Ok, Ht. reflexivity.
Qed.

Lemma extractor_decoded (event : json) (hs : list (str * json))
    (w : list record) (payload : json) :
  get event (lit "headers") (JDict []) = Ok (JDict hs) ->
  truthy (find_id_token hs JNull) = true ->
  decode_jwt_payload (find_id_token hs JNull) = (w, Ok payload) ->
  get_user_info_from_token event
  = match payload with
    | JDict (item :: d) =>
        (w ++ [(INFO, Token_payload payload);
               (INFO, User_info (user_identity (item :: d)));
               (INFO, User_groups (group_list (item :: d)))],
         Ok (user_identity (item :: d), group_list (item :: d)))
    | _ =>
        if truthy payload
        then (w ++ [(INFO, Token_payload payload);
                    (ERROR, Error_extracting_user_info_from_token AttributeError)],
              Ok no_identity)
        else (w, Ok no_identity)
    end.
Proof.
  unfold get_user_info_from_token. intros -> Ht Hd.
  rewrite bind_lift_Ok. cbn [items]. rewrite bind_lift_Ok, Ht, Hd.
  cbn [negb].
  destruct payload as [| b | n | f | s | l | d]; run.
  - done_log.
  - destruct b; run; done_log.
  - destruct (n =? 0); run; done_log.
  - destruct (float_is_zero f); run; done_log.
  - destruct s; run; done_log.
  - destruct l; run; done_log.
  - destruct d as [|item d]; run; [done_log|].
    rewrite extract_groups_group_list. run. done_log.
Qed.

(** ** The fallback and the handler *)

Lemma existsb_eq_str (s : str) (l : list json) :
  existsb (eq_str s) l = true <-> In (JStr s) l.
Proof.
  rewrite existsb_exists. split.
  - intros (v & Hin & He). destruct v; try discriminate.
    apply str_eqb_eq in He. now subst.
  - intros Hin. exists (JStr s). split; [assumption|apply str_eqb_refl].
Qed.

Lemma request_context_get (event : json) :
  get event (lit "requestContext") (JDict [])
  = match event with
    | JDict d =>
        Ok (match lookup (lit "requestContext") d with Some v => v | None => JDict [] end)
    | _ => Raise AttributeError
    end.
Proof. now destruct event. Qed.

Lemma fallback_usable (event : json) (rc i : dict) :
  request_context_of event = Some rc ->
  identity_block_of rc = Some i ->
  get_user_from_cognito_context event
  = ([(INFO, Cognito_context_user_info (fallback_identity i))],
     Ok (fallback_identity i, [])).
Proof.
  unfold request_context_of, identity_block_of, get_user_from_cognito_context.
  rewrite request_context_get.
  destruct event as [| | | | | |d]; try discriminate.
  destruct (lookup (lit "requestContext") d) as [[| | | | | |rc']|];
    try discriminate; intros [= <-]; run;
    [destruct (lookup (lit "identity") rc') as [[| | | | | |i']|]
    |change (lookup (lit "identity") []) with (@None json)];
    try discriminate; intros [= <-]; reflexivity.
Qed.

Lemma fallback_unusable (event : json) :
  match request_context_of event with
  | Some rc => identity_block_of rc = None
  | None => True
  end ->
  get_user_from_cognito_context event
  = ([(ERROR, Error_extracting_user_from_Cognito_context AttributeError)],
     Ok (JNull, [])).
Proof.
  unfold request_context_of, identity_block_of, get_user_from_cognito_context.
  rewrite request_context_get.
  destruct event as [| | | | | |d]; try reflexivity.
  destruct (lookup (lit "requestContext") d) as [[| | | | | |rc']|];
    try reflexivity; run.
  - destruct (lookup (lit "identity") rc') as [[| | | | | |i']|];
      try discriminate; reflexivity.
  - change (lookup (lit "identity") []) with (@None json). discriminate.
Qed.

Lemma fallback_never_raises (event : json) :
  exists w user_info,
    get_user_from_cognito_context event = (w, Ok (user_info, [])).
Proof.
  destruct (request_context_of event) as [rc|] eqn:E.
  - destruct (identity_block_of rc) as [i|] eqn:Ei.
    + eexists _, _. exact (fallback_usable _ _ _ E Ei).
    + eexists _, _. apply fallback_unusable. now rewrite E.
  - eexists _, _. apply fallback_unusable. now rewrite E.
Qed.

Lemma assemble_response_object (event : json) (context : context)
    (rc : dict) (user_info : json) (user_groups : list json) :
  request_context_of event = Some rc ->
  assemble_response event context user_info user_groups
  = ([], Ok (response_for user_info user_groups rc context)).
Proof.
  unfold request_context_of, assemble_response. rewrite request_context_get.
  destruct event as [| | | | | |d]; try discriminate.
  destruct (lookup (lit "requestContext") d) as [[| | | | | |rc']|];
    try discriminate; intros [= <-]; reflexivity.
Qed.

Lemma assemble_response_raises (event : json) (context : context)
    (user_info : json) (user_groups : list json) :
  request_context_of event = None ->
  assemble_response event context user_info user_groups
  = ([], Raise AttributeError).
Proof.
  unfold request_context_of, assemble_response. rewrite request_context_get.
  destruct event as [| | | | | |d]; try reflexivity.
  destruct (lookup (lit "requestContext") d) as [[| | | | | |rc']|];
    try discriminate; reflexivity.
Qed.

Lemma extractor_never_raises (event : json) :
  exists w identity, get_user_info_from_token event = (w, Ok identity).
Proof.
  unfold get_user_info_from_token. apply try_except_returns.
  intros e. eexists _, _. reflexivity.
Qed.

(** The handler once the extractor has answered with no usable identity:
    the fallback runs, and its answer goes into the response. *)
Lemma handler_falls_back (event : json) (context : context)
    (w : list record) (from_token : json * list json) :
  get_user_info_from_token event = (w, Ok from_token) ->
  truthy (fst from_token) = false ->
  handler event context
  = (log INFO (Event (json_dumps (Some 2%nat) event)) ;;;
     log INFO (Invocation_context context) ;;;
     tell w ;;;
     identity <- get_user_from_cognito_context event ;;
     assemble_response event context (fst identity) (snd identity))%py.
Proof.
  intros He Ht. unfold handler. rewrite He. unfold tell.
  cbn [bind log]. rewrite Ht. cbn [negb].
  destruct (bind (get_user_from_cognito_context event) _) as [w' r].
  reflexivity.
Qed.

(** ** The group list *)

(** C1. For a decoded payload the extractor returns the group list that
    the first claim name present, in the order [cognito:groups], [groups],
    [custom:groups], [memberOf], [roles], decides: a list is taken as it
    is, a string is split on commas and each piece stripped, any other
    value gives the empty list, and so does a payload with none of the five
    names. *)
Theorem groups_from_first_claim (event : json) (hs : list (str * json))
    (w : list record) (d : dict) :
  get event (lit "headers") (JDict []) = Ok (JDict hs) ->
  truthy (find_id_token hs JNull) = true ->
  decode_jwt_payload (find_id_token hs JNull) = (w, Ok (JDict d)) ->
  (exists w' user_info,
     get_user_info_from_token event = (w', Ok (user_info, group_list d))
     /\ (d <> [] -> user_info = user_identity d))
  /\ possible_group_claims = group_claim_priority
  /\ (forall name, find (present d) group_claim_priority = Some name ->
        exists value,
          lookup name d = Some value
          /\ group_list d
             = match value with
               | JList l => l
               | JStr s => map (fun piece => JStr (strip piece)) (split 44 s)
               | _ => []
               end)
  /\ (find (present d) group_claim_priority = None -> group_list d = []).
Proof.
  intros Hh Ht Hd. split; [|split; [reflexivity|split]].
  - rewrite (extractor_decoded _ _ _ _ Hh Ht Hd).
    destruct d as [|item d]; cbn [truthy].
    + eexists _, _. split; [reflexivity|congruence].
    + eexists _, _. split; [reflexivity|reflexivity].
  - intros name Hf. unfold group_list, first_group_claim. rewrite Hf.
    apply find_some in Hf. destruct Hf as [_ Hp]. unfold present in Hp.
    destruct (lookup name d) as [value|]; [|discriminate].
    exists value. split; [reflexivity|]. now destruct value.
  - intros Hf. unfold group_list, first_group_claim. now rewrite Hf.
Qed.

Lemma groups_from_first_claim_witness :
  exists w' user_info,
    get_user_info_from_token (request_with "X-Cognito-Id-Token" token_groups_number)
    = (w', Ok (user_info, []))
    /\ (payload_groups_number <> [] -> user_info = user_identity payload_groups_number).
Proof.
  refine (proj1 (groups_from_first_claim
                   (request_with "X-Cognito-Id-Token" token_groups_number)
                   [(lit "X-Cognito-Id-Token", token_groups_number)]
                   [] payload_groups_number _ _ _)).
  - reflexivity.
  - reflexivity.
  - vm_compute. reflexivity.
Defined.

(** ** The token locator *)

Lemma find_id_token_find (hs : list (str * json)) (default : json) :
  find_id_token hs default
  = match find matches hs with
    | Some header => snd header
    | None => default
    end.
Proof.
  induction hs as [|[name value] rest IH]; cbn [find_id_token find]; [reflexivity|].
  unfold matches at 1, token_header. cbn [fst].
  now destruct (str_eqb (lower name) (lit "x-cognito-id-token")).
Qed.

Lemma lower_caseless (name target : str) :
  caseless_eq name target = true -> lower target = target ->
  lower name = target.
Proof.
  revert target. induction name as [|x name IH]; intros [|y target];
    cbn [caseless_eq lower map]; try discriminate; [reflexivity|].
  intros H Hl. apply andb_prop in H. destruct H as [Hxy Hrest].
  injection Hl as Hy Ht.
  f_equal; [|now apply IH].
  unfold same_letter in Hxy. unfold lower_char in *.
  destruct ((65 <=? y) && (y <=? 90)) eqn:Ey.
  - lia.
  - destruct (y =? 8490) eqn:Ek; [lia|].
    destruct ((65 <=? x) && (x <=? 90)) eqn:Ex; [lia|].
    destruct (x =? 8490) eqn:Ekx; lia.
Qed.

Lemma find_id_token_first (hs before after : list (str * json))
    (name : str) (value : json) :
  hs = before ++ (name, value) :: after ->
  Forall (fun header => matches header = false) before ->
  lower name = token_header ->
  find_id_token hs JNull = value.
Proof.
  intros -> Hb Hm. rewrite find_id_token_find.
  induction Hb as [|header before Hh Hb IH]; cbn [app find].
  - unfold matches at 1. cbn [fst]. rewrite Hm, str_eqb_refl. reflexivity.
  - rewrite Hh. exact IH.
Qed.

(** C6. The locator returns the value of the first header, in iteration
    order, whose name lowered is [x-cognito-id-token], and [None] when no
    header matches; a name that differs from it only in the case of its
    letters matches, and a request that sends a well-formed token under
    [X-COGNITO-ID-TOKEN] gets its identity and groups from the token. *)
Theorem locator_first_match (hs : list (str * json)) :
  find_id_token hs JNull
  = match find matches hs with Some header => snd header | None => JNull end
  /\ (forall before name value after,
        hs = before ++ (name, value) :: after ->
        Forall (fun header => matches header = false) before ->
        lower name = token_header ->
        find_id_token hs JNull = value)
  /\ (Forall (fun header => matches header = false) hs ->
        find_id_token hs JNull = JNull)
  /\ (forall name value,
        caseless_eq name token_header = true -> matches (name, value) = true)
  /\ get_user_info_from_token (request_with "X-COGNITO-ID-TOKEN" token_admin_x)
     = ([(INFO, Token_payload
                  (JDict [(lit "cognito:groups",
                           JList [JStr (lit "Admin"); JStr (lit "X")])]));
         (INFO, User_info
                  (user_identity [(lit "cognito:groups",
                                   JList [JStr (lit "Admin"); JStr (lit "X")])]));
         (INFO, User_groups [JStr (lit "Admin"); JStr (lit "X")])],
        Ok (user_identity [(lit "cognito:groups",
                            JList [JStr (lit "Admin"); JStr (lit "X")])],
            [JStr (lit "Admin"); JStr (lit "X")])).
Proof.
  split; [apply find_id_token_find|]. split; [|split; [|split]].
  - intros before name value after. apply find_id_token_first.
  - intros Hall. rewrite find_id_token_find.
    induction Hall as [|header rest Hh Hall IH]; cbn [find]; [reflexivity|].
    now rewrite Hh.
  - intros name value Hc. unfold matches. cbn [fst].
    apply str_eqb_eq. now apply lower_caseless.
  - vm_compute. reflexivity.
Qed.

Lemma locator_first_match_witness :
  find_id_token [(lit "Host", JStr (lit "example.org"));
                 (lit "X-Cognito-Id-Token", JStr (lit "first"));
                 (lit "x-cognito-id-token", JStr (lit "second"))] JNull
  = JStr (lit "first").
Proof.
  refine (proj1 (proj2 (locator_first_match _))
            [(lit "Host", JStr (lit "example.org"))]
            (lit "X-Cognito-Id-Token") (JStr (lit "first"))
            [(lit "x-cognito-id-token", JStr (lit "second"))] eq_refl _ _).
  - repeat constructor.
  - reflexivity.
Defined.

(** ** Tokens that give no identity *)

Lemma decode_falsy_logs (value : json) :
  truthy value = false ->
  exists m, decode_jwt_payload value = ([(ERROR, m)], Ok JNull).
Proof.
  destruct value as [| b | n | f | s | l | d]; cbn [truthy]; intros H;
    try (eexists; reflexivity).
  destruct s; [|discriminate]. eexists. reflexivity.
Qed.

(** C10. When the header is there but its value is the empty string, or any
    other false value, the extractor answers as for an absent token: it
    logs the warning and returns the no-identity sentinel.  Decoding the
    value would have logged an error; the log has the warning only, and
    the handler goes on with the context fallback. *)
Theorem falsy_token_is_absent (event : json) (context : context)
    (hs before after : list (str * json)) (name : str) (value : json) :
  get event (lit "headers") (JDict []) = Ok (JDict hs) ->
  hs = before ++ (name, value) :: after ->
  Forall (fun header => matches header = false) before ->
  lower name = token_header ->
  truthy value = false ->
  get_user_info_from_token event
  = ([(WARNING, No_X_Cognito_Id_Token_header_found)], Ok no_identity)
  /\ (exists m, decode_jwt_payload value = ([(ERROR, m)], Ok JNull))
  /\ handler event context
     = (log INFO (Event (json_dumps (Some 2%nat) event)) ;;;
        log INFO (Invocation_context context) ;;;
        tell [(WARNING, No_X_Cognito_Id_Token_header_found)] ;;;
        identity <- get_user_from_cognito_context event ;;
        assemble_response event context (fst identity) (snd identity))%py.
Proof.
  intros Hh Hs Hb Hm Ht.
  assert (Hf : find_id_token hs JNull = value)
    by exact (find_id_token_first _ _ _ _ _ Hs Hb Hm).
  assert (He : get_user_info_from_token event
               = ([(WARNING, No_X_Cognito_Id_Token_header_found)], Ok no_identity))
    by (apply (extractor_no_token _ hs Hh); now rewrite Hf).
  split; [exact He|]. split; [now apply decode_falsy_logs|].
  now apply (handler_falls_back _ _ _ _ He).
Qed.

Lemma falsy_token_is_absent_witness :
  get_user_info_from_token (request_with "X-Cognito-Id-Token" (JStr []))
  = ([(WARNING, No_X_Cognito_Id_Token_header_found)], Ok no_identity).
Proof.
  refine (proj1 (falsy_token_is_absent
                   (request_with "X-Cognito-Id-Token" (JStr [])) sample_context
                   [(lit "X-Cognito-Id-Token", JStr [])] []  []
                   (lit "X-Cognito-Id-Token") (JStr []) eq_refl eq_refl _ eq_refl eq_refl)).
  constructor.
Defined.

(** C9. When the middle segment decodes to a value that is not a non-empty
    object (the empty object, [null], [false], [0], a string, an array)
    the extractor returns the no-identity sentinel, the same answer as for
    a malformed or an absent token, and the handler goes on with the
    context fallback. *)
Theorem valid_json_without_identity (event : json) (context : context)
    (hs : list (str * json)) (w : list record) (payload : json) :
  get event (lit "headers") (JDict []) = Ok (JDict hs) ->
  truthy (find_id_token hs JNull) = true ->
  decode_jwt_payload (find_id_token hs JNull) = (w, Ok payload) ->
  non_empty_object payload = false ->
  exists w',
    get_user_info_from_token event = (w', Ok no_identity)
    /\ handler event context
       = (log INFO (Event (json_dumps (Some 2%nat) event)) ;;;
          log INFO (Invocation_context context) ;;;
          tell w' ;;;
          identity <- get_user_from_cognito_context event ;;
          assemble_response event context (fst identity) (snd identity))%py.
Proof.
  intros Hh Ht Hd Hn.
  assert (He : exists w', get_user_info_from_token event = (w', Ok no_identity)).
  { rewrite (extractor_decoded _ _ _ _ Hh Ht Hd).
    destruct payload as [| b | n | f | s | l | [|item d]]; try discriminate;
      match goal with
      | |- context [if ?c then _ else _] => destruct c
      end; eexists; reflexivity. }
  destruct He as [w' He]. exists w'. split; [exact He|].
  now apply (handler_falls_back _ _ _ _ He).
Qed.

Lemma valid_json_without_identity_witness :
  (exists w', get_user_info_from_token
                (request_with "X-Cognito-Id-Token" token_empty_object)
              = (w', Ok no_identity))
  /\ (exists w', get_user_info_from_token
                   (request_with "X-Cognito-Id-Token" token_array)
                 = (w', Ok no_identity)).
Proof.
  split.
  - destruct (valid_json_without_identity
                (request_with "X-Cognito-Id-Token" token_empty_object)
                sample_context
                [(lit "X-Cognito-Id-Token", token_empty_object)] [] (JDict []))
      as (w' & H & _).
    + reflexivity.
    + reflexivity.
    + vm_compute. reflexivity.
    + reflexivity.
    + now exists w'.
  - destruct (valid_json_without_identity
                (request_with "X-Cognito-Id-Token" token_array)
                sample_context
                [(lit "X-Cognito-Id-Token", token_array)] [] (JList [JInt 1]))
      as (w' & H & _).
    + reflexivity.
    + reflexivity.
    + vm_compute. reflexivity.
    + reflexivity.
    + now exists w'.
Defined.

(** ** The response *)

(** The handler, run: the two extractors never raise, so the outcome is
    decided by the request context alone. *)
Lemma handler_run (event : json) (context : context) :
  exists w1 from_token w2 identity,
    get_user_info_from_token event = (w1, Ok from_token)
    /\ (if negb (truthy (fst from_token))
        then get_user_from_cognito_context event
        else ret from_token) = (w2, Ok identity)
    /\ (truthy (fst from_token) = false -> snd identity = [])
    /\ handler event context
       = ([(INFO, Event (json_dumps (Some 2%nat) event)); (INFO, Invocation_context context)]
          ++ w1 ++ w2,
          match request_context_of event with
          | Some rc => Ok (response_for (fst identity) (snd identity) rc context)
          | None => Raise AttributeError
          end).
Proof.
  destruct (extractor_never_raises event) as (w1 & from_token & He).
  assert (Hi : exists w2 identity,
             (if negb (truthy (fst from_token))
              then get_user_from_cognito_context event
              else ret from_token) = (w2, Ok identity)
             /\ (truthy (fst from_token) = false -> snd identity = [])).
  { destruct (truthy (fst from_token)); cbn [negb].
    - eexists _, _. split; [reflexivity|discriminate].
    - destruct (fallback_never_raises event) as (w2 & ui & Hf).
      exists w2, (ui, []). split; [exact Hf|reflexivity]. }
  destruct Hi as (w2 & identity & Hi & Hg).
  exists w1, from_token, w2, identity. repeat split; try assumption.
  unfold handler. rewrite He. cbn [bind log]. rewrite Hi. cbn [bind].
  destruct (request_context_of event) as [rc|] eqn:Erc.
  - rewrite (assemble_response_object _ _ _ _ _ Erc). cbn [app].
    now rewrite app_nil_r.
  - rewrite (assemble_response_raises _ _ _ _ Erc). cbn [app].
    now rewrite app_nil_r.
Qed.



Lemma handler_with_fallback (event : json) (context : context) (rc : dict)
    (w : list record) (from_token : json * list json) :
  request_context_of event = Some rc ->
  get_user_info_from_token event = (w, Ok from_token) ->
  truthy (fst from_token) = false ->
  exists w',
    handler event context
    = (w', Ok (response_for
                 match identity_block_of rc with
                 | Some i => fallback_identity i
                 | None => JNull
                 end [] rc context)).
Proof.
  intros Erc He Ht.
  rewrite (handler_falls_back _ _ _ _ He Ht).
  destruct (identity_block_of rc) as [i|] eqn:Ei.
  - rewrite (fallback_usable _ _ _ Erc Ei).
    cbn [bind log tell fst snd]. rewrite (assemble_response_object _ _ _ _ _ Erc).
    eexists. reflexivity.
  - rewrite fallback_unusable by (now rewrite Erc).
    cbn [bind log tell fst snd]. rewrite (assemble_response_object _ _ _ _ _ Erc).
    eexists. reflexivity.
Qed.




(** C4, as the code has it.  For a request that is an object whose
    [requestContext] is absent or an object the handler returns status 200
    with the JSON content type, whatever happened while the token was
    located and decoded, the claims were read or the fallback ran; for any
    other request it raises [AttributeError] when it reads the request
    metadata. *)
Theorem handler_status (event : json) (context : context) :
  (forall rc, request_context_of event = Some rc ->
     exists w r,
       handler event context = (w, Ok r)
       /\ statusCode r = 200
       /\ headers r = [(lit "Content-Type", lit "application/json")])
  /\ (request_context_of event = None ->
      exists w, handler event context = (w, Raise AttributeError)).
Proof.
  destruct (handler_run event context)
    as (w1 & from_token & w2 & identity & _ & _ & _ & Hh).
  split.
  - intros rc Erc. rewrite Erc in Hh. eexists _, _. split; [exact Hh|].
    split; reflexivity.
  - intros Erc. rewrite Erc in Hh. eexists. exact Hh.
Qed.

Lemma handler_status_witness :
  exists w r,
    handler (JDict [(lit "headers", JNull);
                    (lit "requestContext", JDict [(lit "identity", JNull)])])
            sample_context = (w, Ok r)
    /\ statusCode r = 200
    /\ headers r = [(lit "Content-Type", lit "application/json")].
Proof.
  exact (proj1 (handler_status
                  (JDict [(lit "headers", JNull);
                          (lit "requestContext", JDict [(lit "identity", JNull)])])
                  sample_context)
           [(lit "identity", JNull)] eq_refl).
Defined.

(** C4 as the specification states it fails: a request whose
    [requestContext] is [null] makes the handler raise. *)
Lemma handler_status_counterexample :
  snd (handler (JDict [(lit "requestContext", JNull)]) sample_context)
  = Raise AttributeError
  /\ ~ (forall event context, exists w r,
          handler event context = (w, Ok r) /\ statusCode r = 200).
Proof.
  split; [reflexivity|].
  intros H.
  destruct (H (JDict [(lit "requestContext", JNull)]) sample_context)
    as (w & r & E & _).
  vm_compute in E. discriminate.
Qed.

(** ** base64: encoding without padding, then the decoder's padding *)

Lemma list_ind3 {A} (P : list A -> Prop) :
  P [] -> (forall a, P [a]) -> (forall a b, P [a; b]) ->
  (forall a b c l, P l -> P (a :: b :: c :: l)) ->
  forall l, P l.
Proof.
  intros H0 H1 H2 H3 l.
  enough (H : P l /\ (forall a, P (a :: l)) /\ (forall a b, P (a :: b :: l)))
    by apply H.
  induction l as [|x l (IH0 & IH1 & IH2)].
  - auto.
  - repeat split; auto.
Qed.

Lemma alphabet_decodes (v : Z) :
  0 <= v < 64 ->
  table_a2b_base64 (urlsafe_translate (urlsafe_alphabet v)) = Some v
  /\ urlsafe_translate (urlsafe_alphabet v) <> 61.
Proof.
  intros Hv. unfold urlsafe_alphabet.
  destruct (Z.ltb_spec v 26);
    [|destruct (Z.ltb_spec v 52);
      [|destruct (Z.ltb_spec v 62); [|destruct (Z.eqb_spec v 62)]]];
    unfold urlsafe_translate, table_a2b_base64;
    repeat match goal with
           | |- context [if ?c then _ else _] => destruct c eqn:?
           end; split; try (f_equal; lia); lia.
Qed.

Lemma alphabet_ascii (v : Z) :
  0 <= v < 64 ->
  0 <= urlsafe_alphabet v < 128 /\ urlsafe_alphabet v <> 46
  /\ urlsafe_alphabet v <> 61.
Proof.
  intros Hv. unfold urlsafe_alphabet.
  destruct (Z.ltb_spec v 26);
    [|destruct (Z.ltb_spec v 52);
      [|destruct (Z.ltb_spec v 62); [|destruct (Z.eqb_spec v 62)]]]; lia.
Qed.

Lemma a2b_quad (leftchar pads v1 v2 : Z) (rest : bytes) :
  0 <= v1 < 64 -> 0 <= v2 < 64 ->
  a2b_loop 0 leftchar pads
    (urlsafe_translate (urlsafe_alphabet v1)
     :: urlsafe_translate (urlsafe_alphabet v2) :: rest)
  = rmap (cons (v1 * 4 + v2 / 16)) (a2b_loop 2 (v2 mod 16) 0 rest).
Proof.
  intros H1 H2.
  destruct (alphabet_decodes v1 H1) as [Ht1 Hne1].
  destruct (alphabet_decodes v2 H2) as [Ht2 Hne2].
  cbn [a2b_loop]. rewrite Ht1, Ht2.
  destruct (Z.eqb_spec (urlsafe_translate (urlsafe_alphabet v1)) 61); [contradiction|].
  destruct (Z.eqb_spec (urlsafe_translate (urlsafe_alphabet v2)) 61); [contradiction|].
  reflexivity.
Qed.

Lemma a2b_third (leftchar pads v : Z) (rest : bytes) :
  0 <= v < 64 ->
  a2b_loop 2 leftchar pads (urlsafe_translate (urlsafe_alphabet v) :: rest)
  = rmap (cons (leftchar * 16 + v / 4)) (a2b_loop 3 (v mod 4) 0 rest).
Proof.
  intros H. destruct (alphabet_decodes v H) as [Ht Hne].
  cbn [a2b_loop]. rewrite Ht.
  destruct (Z.eqb_spec (urlsafe_translate (urlsafe_alphabet v)) 61); [contradiction|].
  reflexivity.
Qed.

Lemma a2b_fourth (leftchar pads v : Z) (rest : bytes) :
  0 <= v < 64 ->
  a2b_loop 3 leftchar pads (urlsafe_translate (urlsafe_alphabet v) :: rest)
  = rmap (cons (leftchar * 64 + v)) (a2b_loop 0 0 0 rest).
Proof.
  intros H. destruct (alphabet_decodes v H) as [Ht Hne].
  cbn [a2b_loop]. rewrite Ht.
  destruct (Z.eqb_spec (urlsafe_translate (urlsafe_alphabet v)) 61); [contradiction|].
  reflexivity.
Qed.

Lemma padding_count_quad (a b c d : Z) (l : str) :
  padding_count (a :: b :: c :: d :: l) = padding_count l.
Proof.
  unfold padding_count. cbn [List.length]. rewrite !Nat2Z.inj_succ. lia.
Qed.

(** The decoder's padding makes the unpadded encoding of any octets
    decodable, and decoding gives the octets back. *)
Lemma b64_round_trip (data : bytes) :
  Forall (fun b => 0 <= b < 256) data ->
  a2b_base64 (map urlsafe_translate
                (urlsafe_b64encode_nopad data
                 ++ repeat 61 (Z.to_nat (padding_count (urlsafe_b64encode_nopad data)))))
  = Ok data.
Proof.
  unfold a2b_base64. induction data as [|a|a b|a b c l IH] using list_ind3;
    intros Hall.
  - reflexivity.
  - inversion Hall as [|? ? Ha _]; subst.
    cbn [urlsafe_b64encode_nopad app map].
    rewrite a2b_quad by lia.
    change (padding_count [urlsafe_alphabet (a / 4); urlsafe_alphabet (a mod 4 * 16)])
      with 2.
    change (a2b_loop 2 ((a mod 4 * 16) mod 16) 0
              (map urlsafe_translate (repeat 61 (Z.to_nat 2)))) with (@Ok bytes []).
    cbn [rmap rbind].
    replace (a / 4 * 4 + a mod 4 * 16 / 16) with a by lia. reflexivity.
  - inversion Hall as [|? ? Ha Hall']; subst.
    inversion Hall' as [|? ? Hb _]; subst.
    cbn [urlsafe_b64encode_nopad app map].
    rewrite a2b_quad, a2b_third by lia.
    change (padding_count [urlsafe_alphabet (a / 4);
                           urlsafe_alphabet (a mod 4 * 16 + b / 16);
                           urlsafe_alphabet (b mod 16 * 4)]) with 1.
    change (a2b_loop 3 ((b mod 16 * 4) mod 4) 0
              (map urlsafe_translate (repeat 61 (Z.to_nat 1)))) with (@Ok bytes []).
    cbn [rmap rbind].
    replace (a / 4 * 4 + (a mod 4 * 16 + b / 16) / 16) with a by lia.
    replace ((a mod 4 * 16 + b / 16) mod 16 * 16 + b mod 16 * 4 / 4) with b by lia.
    reflexivity.
  - inversion Hall as [|? ? Ha Hall1]; subst.
    inversion Hall1 as [|? ? Hb Hall2]; subst.
    inversion Hall2 as [|? ? Hc Hall3]; subst.
    cbn [urlsafe_b64encode_nopad]. rewrite padding_count_quad.
    cbn [app map]. rewrite a2b_quad, a2b_third, a2b_fourth by lia.
    rewrite (IH Hall3). cbn [rmap rbind].
    replace (a / 4 * 4 + (a mod 4 * 16 + b / 16) / 16) with a by lia.
    replace ((a mod 4 * 16 + b / 16) mod 16 * 16 + (b mod 16 * 4 + c / 64) / 4)
      with b by lia.
    replace ((b mod 16 * 4 + c / 64) mod 4 * 64 + c mod 64) with c by lia.
    reflexivity.
Qed.

Lemma b64_segment_alphabet (data : bytes) :
  Forall (fun b => 0 <= b < 256) data ->
  Forall (fun c => 0 <= c < 128 /\ c <> 46) (urlsafe_b64encode_nopad data).
Proof.
  induction data as [|a|a b|a b c l IH] using list_ind3; intros Hall;
    cbn [urlsafe_b64encode_nopad].
  - constructor.
  - inversion Hall as [|? ? Ha _]; subst.
    repeat constructor; apply alphabet_ascii; lia.
  - inversion Hall as [|? ? Ha Hall']; subst.
    inversion Hall' as [|? ? Hb _]; subst.
    repeat constructor; apply alphabet_ascii; lia.
  - inversion Hall as [|? ? Ha Hall1]; subst.
    inversion Hall1 as [|? ? Hb Hall2]; subst.
    inversion Hall2 as [|? ? Hc Hall3]; subst.
    repeat (constructor; [split; apply alphabet_ascii; lia|]). now apply IH.
Qed.

(** ** ASCII text through UTF-8 and through [split] *)

Lemma utf8_encode_ascii (s : str) : ascii_text s -> utf8_encode s = Ok s.
Proof.
  induction 1 as [|c s Hc _ IH]; cbn [utf8_encode]; [reflexivity|].
  destruct (Z.leb_spec 0 c); [|lia]. destruct (Z.ltb_spec c 128); [|lia].
  cbn [andb]. now rewrite IH.
Qed.

Lemma utf8_decode_ascii (s : bytes) : ascii_text s -> utf8_decode s = Ok s.
Proof.
  induction 1 as [|c s Hc _ IH]; cbn [utf8_decode]; [reflexivity|].
  destruct (Z.leb_spec 0 c); [|lia]. destruct (Z.ltb_spec c 128); [|lia].
  cbn [andb]. now rewrite IH.
Qed.

Lemma encode_ascii_ok (s : str) : ascii_text s -> encode_ascii s = Ok s.
Proof.
  intros H. unfold encode_ascii.
  replace (forallb (fun c => (0 <=? c) && (c <? 128)) s) with true; [reflexivity|].
  symmetry. apply forallb_forall. intros c Hc.
  apply (proj1 (Forall_forall _ _) H) in Hc. lia.
Qed.

Lemma ascii_text_app (a b : str) : ascii_text a -> ascii_text b -> ascii_text (a ++ b).
Proof. intros Ha Hb. apply Forall_app. now split. Qed.

Lemma split_no_separator (sep : Z) (s : str) :
  ~ In sep s -> split sep s = [s].
Proof.
  induction s as [|c r IH]; cbn [split]; [reflexivity|].
  intros Hn. destruct (Z.eqb_spec c sep) as [->|_].
  - elim Hn. now left.
  - rewrite IH; [reflexivity|]. intros Hin. apply Hn. now right.
Qed.

Lemma split_at_separator (sep : Z) (s t : str) :
  ~ In sep s -> split sep (s ++ sep :: t) = s :: split sep t.
Proof.
  induction s as [|c r IH]; cbn [split app].
  - intros _. now rewrite Z.eqb_refl.
  - intros Hn. destruct (Z.eqb_spec c sep) as [->|_].
    + elim Hn. now left.
    + rewrite IH; [reflexivity|]. intros Hin. apply Hn. now right.
Qed.

Lemma split_three (h p s : str) :
  ~ In 46 h -> ~ In 46 p -> ~ In 46 s ->
  split 46 (h ++ 46 :: p ++ 46 :: s) = [h; p; s].
Proof.
  intros Hh Hp Hs.
  now rewrite (split_at_separator _ _ _ Hh), (split_at_separator _ _ _ Hp),
    (split_no_separator _ _ Hs).
Qed.

(** ** json: numbers *)

Lemma int_of_digits_snoc (ds : str) (d : Z) :
  int_of_digits (ds ++ [d]) = 10 * int_of_digits ds + (d - 48).
Proof. unfold int_of_digits. now rewrite fold_left_app. Qed.

Lemma digits_of_numeral (fuel : positive) :
  forall n acc, 0 <= n <= Z.pos fuel ->
  exists ds, digits_of fuel n acc = ds ++ acc /\ numeral ds n
             /\ (n <> 0 -> hd 0 ds <> 48).
Proof.
  induction fuel as [f IH|f IH|]; intros n acc Hn; cbn [digits_of];
    destruct (Z.ltb_spec n 10) as [Hlt|Hge];
    try (exists [48 + n]; repeat split;
         [repeat constructor; unfold digit; lia
         |exists (48 + n), []; split; [reflexivity|reflexivity]
         |unfold int_of_digits; cbn [fold_left]; lia
         |cbn [hd]; lia]).
  - destruct (IH (n / 10) (48 + n mod 10 :: acc)) as (ds & E & (Hd & Hl & Hv) & Hh);
      [lia|].
    exists (ds ++ [48 + n mod 10]). rewrite E, <- app_assoc. split; [reflexivity|].
    destruct Hl as (c & r & -> & Hz).
    assert (Hc : c <> 48) by (apply Hh; lia).
    split; [split; [|split]|].
    + apply Forall_app. split; [assumption|]. repeat constructor. unfold digit. lia.
    + exists c, (r ++ [48 + n mod 10]). split; [reflexivity|]. intros. contradiction.
    + rewrite int_of_digits_snoc, Hv. lia.
    + intros _. exact Hc.
  - destruct (IH (n / 10) (48 + n mod 10 :: acc)) as (ds & E & (Hd & Hl & Hv) & Hh);
      [lia|].
    exists (ds ++ [48 + n mod 10]). rewrite E, <- app_assoc. split; [reflexivity|].
    destruct Hl as (c & r & -> & Hz).
    assert (Hc : c <> 48) by (apply Hh; lia).
    split; [split; [|split]|].
    + apply Forall_app. split; [assumption|]. repeat constructor. unfold digit. lia.
    + exists c, (r ++ [48 + n mod 10]). split; [reflexivity|]. intros. contradiction.
    + rewrite int_of_digits_snoc, Hv. lia.
    + intros _. exact Hc.
  - lia.
Qed.

Lemma nat_repr_numeral (n : Z) :
  0 <= n -> numeral (nat_repr n) n /\ (n <> 0 -> hd 0 (nat_repr n) <> 48).
Proof.
  intros Hn. unfold nat_repr.
  destruct (digits_of_numeral (Z.to_pos n) n []) as (ds & E & Hnum & Hh).
  - destruct n; [cbn; lia|rewrite Z2Pos.id; lia|lia].
  - rewrite E, app_nil_r. now split.
Qed.

Lemma span_digits_app (ds rest : str) :
  Forall (fun c => digit c = true) ds ->
  match rest with [] => true | c :: _ => negb (digit c) end = true ->
  span_digits (ds ++ rest) = (ds, rest).
Proof.
  intros Hd Hr. induction Hd as [|c ds Hc _ IH]; cbn [app span_digits].
  - destruct rest as [|c r]; [reflexivity|]. cbn [span_digits].
    now destruct (digit c).
  - now rewrite Hc, IH.
Qed.

Lemma terminated_not_digit (rest : str) :
  terminated rest = true ->
  match rest with [] => true | c :: _ => negb (digit c) end = true.
Proof. destruct rest as [|c r]; [reflexivity|]. unfold terminated, digit. lia. Qed.

Lemma scan_frac_terminated (rest : str) :
  terminated rest = true -> scan_frac rest = ([], rest).
Proof.
  destruct rest as [|p [|d r]]; try reflexivity. unfold terminated, scan_frac.
  intros H. destruct (Z.eqb_spec p 46); [lia|]. reflexivity.
Qed.

Lemma scan_exp_terminated (rest : str) :
  terminated rest = true -> scan_exp rest = (None, rest).
Proof.
  destruct rest as [|e r]; try reflexivity. unfold terminated, scan_exp.
  intros H. destruct (Z.eqb_spec e 101); [lia|]. destruct (Z.eqb_spec e 69); [lia|].
  reflexivity.
Qed.

(** The integer part of a literal, as [match_number] reads it. *)
Lemma integer_part (ds rest : str) (n : Z) :
  numeral ds n ->
  match rest with [] => true | c :: _ => negb (digit c) end = true ->
  exists c r,
    ds ++ rest = c :: r /\ digit c = true
    /\ (if c =? 48 then ([c], r)
        else let (ds', r') := span_digits r in (c :: ds', r')) = (ds, rest).
Proof.
  intros (Hd & (c & r & -> & Hz) & _) Hr.
  exists c, (r ++ rest). inversion Hd as [|? ? Hc Hd']; subst.
  split; [reflexivity|]. split; [assumption|].
  destruct (Z.eqb_spec c 48) as [E|_].
  - now rewrite (Hz E).
  - now rewrite (span_digits_app _ _ Hd' Hr).
Qed.

Lemma numeral_digits (ds : str) (n : Z) :
  numeral ds n -> Forall (fun c => digit c = true) ds.
Proof. now intros (H & _). Qed.

Lemma numeral_cons (ds : str) (n : Z) :
  numeral ds n -> exists c r, ds = c :: r /\ digit c = true.
Proof.
  intros (Hd & (c & r & -> & _) & _). exists c, r.
  inversion Hd; subst. now split.
Qed.

Lemma match_number_natural (ds rest : str) (n : Z) :
  numeral ds n -> terminated rest = true ->
  match_number (ds ++ rest) = Ok (JInt n, rest).
Proof.
  intros Hn Ht.
  destruct (integer_part ds rest n Hn (terminated_not_digit _ Ht))
    as (c & r & E & Hc & Hip).
  unfold match_number. rewrite E.
  destruct (Z.eqb_spec c 45) as [->|_]; [discriminate|].
  rewrite Hc, Hip, (scan_frac_terminated _ Ht), (scan_exp_terminated _ Ht).
  destruct Hn as (_ & _ & <-). reflexivity.
Qed.

Lemma match_number_negative (ds rest : str) (n : Z) :
  numeral ds n -> terminated rest = true ->
  match_number (45 :: ds ++ rest) = Ok (JInt (- n), rest).
Proof.
  intros Hn Ht.
  destruct (integer_part ds rest n Hn (terminated_not_digit _ Ht))
    as (c & r & E & Hc & Hip).
  unfold match_number. rewrite Z.eqb_refl, E.
  rewrite Hc, Hip, (scan_frac_terminated _ Ht), (scan_exp_terminated _ Ht).
  destruct Hn as (_ & _ & <-). reflexivity.
Qed.

Lemma match_number_int (n : Z) (rest : str) :
  terminated rest = true ->
  match_number (int_repr n ++ rest) = Ok (JInt n, rest).
Proof.
  intros Ht. unfold int_repr. destruct (Z.ltb_spec n 0).
  - cbn [app]. rewrite (match_number_negative _ _ (- n)); [|apply nat_repr_numeral; lia|assumption].
    now rewrite Z.opp_involutive.
  - apply match_number_natural; [apply nat_repr_numeral; lia|assumption].
Qed.

Lemma scan_frac_other (c : Z) (r : str) :
  c <> 46 -> scan_frac (c :: r) = ([], c :: r).
Proof.
  intros Hc. destruct r as [|d r]; [reflexivity|]. unfold scan_frac.
  destruct (Z.eqb_spec c 46); [contradiction|]. reflexivity.
Qed.

Lemma scan_exp_repr (e : Z) (rest : str) :
  terminated rest = true ->
  scan_exp (101 :: int_repr e ++ rest) = (Some e, rest).
Proof.
  intros Ht. unfold scan_exp. cbn [Z.eqb Pos.eqb orb].
  unfold int_repr. destruct (Z.ltb_spec e 0) as [Hneg|Hpos].
  - cbn [app]. rewrite Z.eqb_refl.
    destruct (nat_repr_numeral (- e)) as [Hn _]; [lia|].
    rewrite (span_digits_app _ _ (numeral_digits _ _ Hn) (terminated_not_digit _ Ht)).
    destruct (numeral_cons _ _ Hn) as (c & r & E & _).
    destruct Hn as (_ & _ & Hv). rewrite Hv. rewrite E.
    f_equal. f_equal. lia.
  - destruct (nat_repr_numeral e Hpos) as [Hn _].
    destruct (numeral_cons _ _ Hn) as (c & r & E & Hc).
    assert (Hs : span_digits (nat_repr e ++ rest) = (nat_repr e, rest))
      by exact (span_digits_app _ _ (numeral_digits _ _ Hn) (terminated_not_digit _ Ht)).
    destruct Hn as (_ & _ & Hv). rewrite <- Hv at 2.
    rewrite E in *. cbn [app] in *.
    unfold digit in Hc.
    destruct (Z.eqb_spec c 45); [lia|]. destruct (Z.eqb_spec c 43); [lia|].
    rewrite Hs. reflexivity.
Qed.

Lemma match_number_float (neg : bool) (d e : Z) (rest : str) :
  0 <= d -> terminated rest = true ->
  match_number (float_repr (FDec neg d e) ++ rest)
  = Ok (JFloat (FDec neg d e), rest).
Proof.
  intros Hd Ht. cbn [float_repr].
  destruct (nat_repr_numeral d Hd) as [Hn _].
  assert (Hnd : match 101 :: int_repr e ++ rest with
                | [] => true
                | c :: _ => negb (digit c)
                end = true) by reflexivity.
  destruct (integer_part (nat_repr d) (101 :: int_repr e ++ rest) d Hn Hnd)
    as (c & r & E & Hc & Hip).
  assert (Hbody :
    match_number (nat_repr d ++ 101 :: int_repr e ++ rest)
    = Ok (JFloat (FDec false d e), rest)
    /\ match_number (45 :: nat_repr d ++ 101 :: int_repr e ++ rest)
       = Ok (JFloat (FDec true d e), rest)).
  { unfold match_number. rewrite Z.eqb_refl, E.
    destruct (Z.eqb_spec c 45) as [->|_]; [discriminate|].
    rewrite Hc, Hip, scan_frac_other by lia.
    rewrite (scan_exp_repr _ _ Ht), app_nil_r.
    destruct Hn as (_ & _ & ->). cbn [List.length Z.of_nat].
    rewrite Z.sub_0_r. split; reflexivity. }
  destruct neg; cbn [app]; rewrite <- ?app_assoc; cbn [app]; apply Hbody.
Qed.

(** ** json: strings *)

Lemma hex_value_digit (v : Z) : 0 <= v < 16 -> hex_value (hex_digit v) = Some v.
Proof.
  intros Hv. unfold hex_digit, hex_value.
  destruct (Z.ltb_spec v 10).
  - destruct (Z.leb_spec 48 (48 + v)); [|lia].
    destruct (Z.leb_spec (48 + v) 57); [|lia]. cbn [andb]. f_equal. lia.
  - destruct (Z.leb_spec (87 + v) 57); [lia|]. rewrite andb_false_r.
    destruct (Z.leb_spec 97 (87 + v)); [|lia].
    destruct (Z.leb_spec (87 + v) 102); [|lia]. cbn [andb]. f_equal. lia.
Qed.

Lemma decode_hex4 (n : Z) :
  0 <= n < 65536 ->
  decode_uXXXX (hex_digit (n / 4096)) (hex_digit (n / 256 mod 16))
               (hex_digit (n / 16 mod 16)) (hex_digit (n mod 16)) = Some n.
Proof.
  intros Hn. unfold decode_uXXXX. rewrite !hex_value_digit by lia. f_equal. lia.
Qed.

Lemma scanstring_plain (c : Z) (text : str) :
  S_CHAR c = true -> scanstring (c :: text) = push c (scanstring text).
Proof.
  unfold S_CHAR. intros Hc. cbn [scanstring].
  destruct (Z.eqb_spec c 34); [lia|]. destruct (Z.eqb_spec c 92); [lia|].
  destruct (Z.leb_spec c 31); [lia|]. reflexivity.
Qed.

Lemma scanstring_backslash (esc : Z) (text : str) :
  esc <> 117 ->
  scanstring (92 :: esc :: text)
  = match BACKSLASH esc with
    | Some ch => push ch (scanstring text)
    | None => Raise JSONDecodeError
    end.
Proof.
  intros He. cbn [scanstring].
  change (92 =? 34) with false. change (92 =? 92) with true. cbv iota.
  destruct (Z.eqb_spec esc 117); [contradiction|]. reflexivity.
Qed.

Lemma scanstring_unicode (h1 h2 h3 h4 uni : Z) (text : str) :
  decode_uXXXX h1 h2 h3 h4 = Some uni ->
  scanstring (92 :: 117 :: h1 :: h2 :: h3 :: h4 :: text)
  = match text with
    | b :: u :: g1 :: g2 :: g3 :: g4 :: r3 =>
        if high_surrogate uni && (b =? 92) && (u =? 117) then
          match decode_uXXXX g1 g2 g3 g4 with
          | None => Raise JSONDecodeError
          | Some uni2 =>
              if low_surrogate uni2
              then push (65536 + (uni - 55296) * 1024 + (uni2 - 56320)) (scanstring r3)
              else push uni (scanstring text)
          end
        else push uni (scanstring text)
    | _ => push uni (scanstring text)
    end.
Proof.
  intros Hd. cbn [scanstring].
  change (92 =? 34) with false. change (92 =? 92) with true.
  change (117 =? 117) with true. cbv iota. rewrite Hd. reflexivity.
Qed.

Lemma scanstring_lone (h1 h2 h3 h4 uni : Z) (text : str) :
  decode_uXXXX h1 h2 h3 h4 = Some uni ->
  (high_surrogate uni = true -> no_low_escape text) ->
  scanstring (92 :: 117 :: h1 :: h2 :: h3 :: h4 :: text) = push uni (scanstring text).
Proof.
  intros Hd Hf. rewrite (scanstring_unicode _ _ _ _ _ _ Hd).
  destruct text as [|b [|u [|g1 [|g2 [|g3 [|g4 r3]]]]]]; try reflexivity.
  destruct (high_surrogate uni) eqn:Hh; [|reflexivity].
  destruct (Z.eqb_spec b 92) as [->|_]; [|reflexivity].
  destruct (Z.eqb_spec u 117) as [->|_]; [|reflexivity].
  cbn [andb].
  destruct (Hf eq_refl g1 g2 g3 g4 r3 eq_refl) as (uni2 & -> & ->). reflexivity.
Qed.

Lemma scanstring_pair (c : Z) (text : str) :
  65536 <= c < 1114112 ->
  scanstring (ascii_escape_unichar c ++ text) = push c (scanstring text).
Proof.
  intros Hc. unfold ascii_escape_unichar.
  destruct (Z.eqb_spec c 92); [lia|]. destruct (Z.eqb_spec c 34); [lia|].
  destruct (Z.eqb_spec c 8); [lia|]. destruct (Z.eqb_spec c 12); [lia|].
  destruct (Z.eqb_spec c 10); [lia|]. destruct (Z.eqb_spec c 13); [lia|].
  destruct (Z.eqb_spec c 9); [lia|]. destruct (Z.leb_spec 65536 c); [|lia].
  cbn [orb hex4 app].
  rewrite (scanstring_unicode _ _ _ _ (55296 + (c - 65536) / 1024))
    by (apply decode_hex4; lia).
  replace (high_surrogate (55296 + (c - 65536) / 1024)) with true
    by (unfold high_surrogate; lia).
  change (92 =? 92) with true. change (117 =? 117) with true. cbn [andb].
  rewrite (decode_hex4 (56320 + (c - 65536) mod 1024)) by lia.
  replace (low_surrogate (56320 + (c - 65536) mod 1024)) with true
    by (unfold low_surrogate; lia).
  f_equal. lia.
Qed.

Lemma scanstring_piece (c : Z) (text : str) :
  code_point c = true ->
  (high_surrogate c = true -> no_low_escape text) ->
  scanstring ((if S_CHAR c then [c] else ascii_escape_unichar c) ++ text)
  = push c (scanstring text).
Proof.
  intros Hc Hf. destruct (S_CHAR c) eqn:Hs; [now apply scanstring_plain|].
  destruct (Z.leb_spec 65536 c) as [Hbig|Hsmall].
  - apply scanstring_pair. unfold code_point in Hc. lia.
  - unfold ascii_escape_unichar. unfold code_point in Hc. unfold S_CHAR in Hs.
    destruct (Z.eqb_spec c 92) as [->|]; [reflexivity|].
    destruct (Z.eqb_spec c 34) as [->|]; [reflexivity|].
    destruct (Z.eqb_spec c 8) as [->|]; [reflexivity|].
    destruct (Z.eqb_spec c 12) as [->|]; [reflexivity|].
    destruct (Z.eqb_spec c 10) as [->|]; [reflexivity|].
    destruct (Z.eqb_spec c 13) as [->|]; [reflexivity|].
    destruct (Z.eqb_spec c 9) as [->|]; [reflexivity|].
    destruct (Z.leb_spec 65536 c); [lia|].
    cbn [orb hex4 app]. apply scanstring_lone; [apply decode_hex4; lia|assumption].
Qed.

Lemma escape_cons (c : Z) (s : str) :
  escape (c :: s) = (if S_CHAR c then [c] else ascii_escape_unichar c) ++ escape s.
Proof. reflexivity. Qed.

Lemma escape_no_low_escape (s rest : str) :
  forallb code_point s = true ->
  match s with c :: _ => low_surrogate c = false | [] => True end ->
  no_low_escape (escape s ++ 34 :: rest).
Proof.
  destruct s as [|c s]; intros Hcp Hlow g1 g2 g3 g4 r E.
  - discriminate.
  - rewrite escape_cons, <- app_assoc in E. cbn [forallb] in Hcp.
    apply andb_prop in Hcp. destruct Hcp as [Hc _]. unfold code_point in Hc.
    destruct (S_CHAR c) eqn:Hs.
    + injection E as -> _. discriminate.
    + unfold ascii_escape_unichar in E.
      destruct (Z.eqb_spec c 92); [cbn [orb app] in E; injection E; lia|].
      destruct (Z.eqb_spec c 34); [cbn [orb app] in E; injection E; lia|].
      destruct (Z.eqb_spec c 8); [discriminate|].
      destruct (Z.eqb_spec c 12); [discriminate|].
      destruct (Z.eqb_spec c 10); [discriminate|].
      destruct (Z.eqb_spec c 13); [discriminate|].
      destruct (Z.eqb_spec c 9); [discriminate|].
      cbn [orb hex4 app] in E.
      destruct (Z.leb_spec 65536 c).
      * cbn [app] in E. injection E as <- <- <- <- _.
        exists (55296 + (c - 65536) / 1024). split; [apply decode_hex4; lia|].
        unfold low_surrogate. lia.
      * cbn [app] in E. injection E as <- <- <- <- _.
        exists c. split; [apply decode_hex4; lia|assumption].
Qed.

(** Reading back an escaped string. *)
Lemma scanstring_escape (s : str) :
  forall rest, wf_str s = true ->
  scanstring (escape s ++ 34 :: rest) = Ok (s, rest).
Proof.
  induction s as [|c s IH]; intros rest Hwf; [reflexivity|].
  unfold wf_str in Hwf. cbn [forallb no_split_pair] in Hwf.
  apply andb_prop in Hwf. destruct Hwf as [Hcp Hns].
  apply andb_prop in Hcp. destruct Hcp as [Hc Hcp].
  apply andb_prop in Hns. destruct Hns as [Hhead Hns].
  rewrite escape_cons, <- app_assoc, scanstring_piece.
  - rewrite IH; [reflexivity|]. unfold wf_str. now rewrite Hcp, Hns.
  - assumption.
  - intros Hh. apply escape_no_low_escape; [assumption|].
    destruct s as [|b s]; [exact I|]. rewrite Hh in Hhead.
    now destruct (low_surrogate b).
Qed.

(** ** json: values *)

Lemma json_induction (P : json -> Prop) :
  P JNull -> (forall b, P (JBool b)) -> (forall n, P (JInt n)) ->
  (forall f, P (JFloat f)) -> (forall s, P (JStr s)) ->
  (forall l, Forall P l -> P (JList l)) ->
  (forall d, Forall (fun kv => P (snd kv)) d -> P (JDict d)) ->
  forall v, P v.
Proof.
  intros Hnull Hbool Hint Hfloat Hstr Hlist Hdict.
  fix IH 1. intros [| b | n | f | s | l | d].
  - exact Hnull.
  - apply Hbool.
  - apply Hint.
  - apply Hfloat.
  - apply Hstr.
  - apply Hlist. induction l as [|x l IHl]; constructor; [apply IH|exact IHl].
  - apply Hdict. induction d as [|[k x] d IHd]; constructor; [apply IH|exact IHd].
Qed.

Lemma skip_ws_value (text : str) : begins_value text -> skip_ws text = text.
Proof.
  intros (c & r & -> & Hc). cbn [skip_ws].
  replace (whitespace c) with false; [reflexivity|].
  unfold value_start, digit in Hc. unfold whitespace. lia.
Qed.

Lemma skip_ws_space_value (text : str) :
  begins_value text -> skip_ws (32 :: text) = text.
Proof. intros H. cbn [skip_ws]. change (whitespace 32) with true. now apply skip_ws_value. Qed.

Lemma nat_repr_cons (n : Z) :
  0 <= n -> exists c r, nat_repr n = c :: r /\ digit c = true.
Proof. intros Hn. apply (numeral_cons _ n). now apply nat_repr_numeral. Qed.

Lemma encode_begins (v : json) (level : nat) (rest : str) :
  wf_json v = true -> begins_value (encode None level v ++ rest).
Proof.
  intros Hwf. unfold begins_value.
  destruct v as [| [|] | n | [| [|] | neg d e] | s | [|x l] | [|[k x] d]];
    try (eexists _, _; split; [reflexivity|reflexivity]).
  - cbn [encode]. unfold int_repr. destruct (Z.ltb_spec n 0).
    + eexists _, _. split; [reflexivity|reflexivity].
    + destruct (nat_repr_cons n) as (c & r & -> & Hc); [assumption|].
      exists c, (r ++ rest). split; [reflexivity|].
      unfold value_start. now rewrite Hc.
  - cbn [encode float_repr]. destruct neg.
    + eexists _, _. split; [reflexivity|reflexivity].
    + cbn [wf_json] in Hwf.
      destruct (nat_repr_cons d) as (c & r & -> & Hc); [lia|].
      eexists c, _. split; [reflexivity|].
      unfold value_start. now rewrite Hc.
Qed.

Lemma scan_once_number (fuel : nat) (c : Z) (r : str) :
  digit c = true
  \/ (c = 45 /\ exists d r', r = d :: r' /\ digit d = true) ->
  scan_once (S fuel) (c :: r) = match_number (c :: r).
Proof.
  intros H. cbn [scan_once].
  change (lit "null") with [110; 117; 108; 108].
  change (lit "true") with [116; 114; 117; 101].
  change (lit "false") with [102; 97; 108; 115; 101].
  change (lit "NaN") with [78; 97; 78].
  change (lit "Infinity") with [73; 110; 102; 105; 110; 105; 116; 121].
  change (lit "-Infinity") with [45; 73; 110; 102; 105; 110; 105; 116; 121].
  cbn [starts_with].
  assert (Hc : (48 <= c <= 57) \/ c = 45) by (unfold digit in H; lia).
  destruct (Z.eqb_spec c 34); [lia|]. destruct (Z.eqb_spec c 123); [lia|].
  destruct (Z.eqb_spec c 91); [lia|]. destruct (Z.eqb_spec 110 c); [lia|].
  destruct (Z.eqb_spec 116 c); [lia|]. destruct (Z.eqb_spec 102 c); [lia|].
  destruct (Z.eqb_spec 78 c); [lia|]. destruct (Z.eqb_spec 73 c); [lia|].
  cbn [andb].
  destruct (Z.eqb_spec 45 c) as [E|_]; [|reflexivity].
  destruct H as [H|(_ & d & r' & -> & Hd)]; [unfold digit in H; lia|].
  cbn [starts_with]. unfold digit in Hd.
  destruct (Z.eqb_spec 73 d); [lia|]. reflexivity.
Qed.

Lemma scan_once_int (fuel : nat) (n : Z) (rest : str) :
  terminated rest = true ->
  scan_once (S fuel) (int_repr n ++ rest) = Ok (JInt n, rest).
Proof.
  intros Ht. rewrite <- (match_number_int n rest Ht).
  unfold int_repr. destruct (Z.ltb_spec n 0).
  - destruct (nat_repr_cons (- n)) as (c & r & E & Hc); [lia|].
    cbn [app]. apply scan_once_number. right. split; [reflexivity|].
    rewrite E. now exists c, (r ++ rest).
  - destruct (nat_repr_cons n) as (c & r & -> & Hc); [lia|].
    cbn [app]. apply scan_once_number. now left.
Qed.

Lemma scan_once_float (fuel : nat) (f : pyfloat) (rest : str) :
  wf_json (JFloat f) = true -> terminated rest = true ->
  scan_once (S fuel) (float_repr f ++ rest) = Ok (JFloat f, rest).
Proof.
  intros Hwf Ht. destruct f as [| [|] | neg d e]; try reflexivity.
  cbn [wf_json] in Hwf. assert (Hd : 0 <= d) by lia.
  rewrite <- (match_number_float neg d e rest Hd Ht).
  cbn [float_repr].
  destruct (nat_repr_cons d Hd) as (c & r & E & Hc).
  destruct neg; rewrite E; cbn [app].
  - apply scan_once_number. right. split; [reflexivity|]. eexists _, _.
    split; [reflexivity|assumption].
  - apply scan_once_number. now left.
Qed.

Lemma scan_once_str (fuel : nat) (s rest : str) :
  wf_str s = true ->
  scan_once (S fuel) (encode_basestring_ascii s ++ rest) = Ok (JStr s, rest).
Proof.
  intros Hwf. unfold encode_basestring_ascii. cbn [app scan_once].
  change (34 =? 34) with true. cbv iota.
  rewrite <- app_assoc. cbn [app]. now rewrite scanstring_escape.
Qed.

Lemma terminated_items {A} (write : A -> str) (closing : Z) (l : list A) (rest : str) :
  closing = 93 \/ closing = 125 ->
  terminated (write_rest write (lit ", ") [closing] l ++ rest) = true.
Proof.
  intros Hc. destruct l as [|y l]; cbn [write_rest app terminated].
  - lia.
  - reflexivity.
Qed.

Lemma array_items (l : list json) :
  forall x level fuel rest,
    Forall round_trips (x :: l) -> forallb wf_json (x :: l) = true ->
    (items_size (x :: l) <= fuel)%nat -> terminated rest = true ->
    JSONArray fuel
      (encode None level x ++ write_rest (encode None level) (lit ", ") [93] l ++ rest)
    = Ok (x :: l, rest).
Proof.
  induction l as [|y l IH]; intros x level fuel rest Hrt Hwf Hfuel Ht;
    inversion Hrt as [|? ? Hx Hrt']; subst;
    cbn [forallb] in Hwf; apply andb_prop in Hwf; destruct Hwf as [Hwx Hwl];
    unfold items_size in Hfuel; cbn [fold_right] in Hfuel;
    (destruct fuel as [|fuel]; [lia|]); cbn [JSONArray].
  - rewrite (Hx Hwx) by (cbn [write_rest app]; (lia || reflexivity)).
    reflexivity.
  - fold (items_size l) in Hfuel.
    rewrite (Hx Hwx) by (try apply terminated_items; (lia || auto)).
    cbn [rbind fst snd write_rest].
    change (lit ", ") with [44; 32]. cbn [app skip_ws].
    change (whitespace 44) with false. cbv iota.
    change (44 =? 93) with false. change (44 =? 44) with true. cbv iota.
    rewrite skip_ws_space_value
      by (rewrite <- app_assoc; apply encode_begins;
          cbn [forallb] in Hwl; apply andb_prop in Hwl; apply Hwl).
    rewrite <- app_assoc. change [44; 32] with (lit ", ").
    rewrite (IH y level fuel rest Hrt' Hwl); [reflexivity| |assumption].
    unfold items_size. cbn [fold_right]. fold (items_size l). lia.
Qed.

Lemma object_members (l : list (str * json)) :
  forall k x level fuel rest,
    Forall (fun kv => round_trips (snd kv)) ((k, x) :: l) ->
    forallb (fun kv => wf_str (fst kv) && wf_json (snd kv)) ((k, x) :: l) = true ->
    (members_size ((k, x) :: l) <= fuel)%nat -> terminated rest = true ->
    JSONObject fuel
      (escape k ++ 34 :: lit ": " ++ encode None level x
       ++ write_rest (write_member level) (lit ", ") [125] l ++ rest)
    = Ok ((k, x) :: l, rest).
Proof.
  induction l as [|[k' y] l IH]; intros k x level fuel rest Hrt Hwf Hfuel Ht;
    inversion Hrt as [|? ? Hx Hrt']; subst; cbn [snd] in Hx;
    cbn [forallb fst snd] in Hwf; apply andb_prop in Hwf; destruct Hwf as [Hwx Hwl];
    apply andb_prop in Hwx; destruct Hwx as [Hwk Hwx];
    unfold members_size in Hfuel; cbn [fold_right snd] in Hfuel;
    (destruct fuel as [|fuel]; [lia|]); cbn [JSONObject];
    rewrite (scanstring_escape k _ Hwk); cbn [rbind fst snd];
    change (lit ": ") with [58; 32]; cbn [app skip_ws];
    change (whitespace 58) with false; cbv iota;
    change (58 =? 58) with true; cbv iota;
    rewrite skip_ws_space_value by (now apply encode_begins).
  - rewrite (Hx Hwx) by (cbn [write_rest app]; (lia || reflexivity)).
    reflexivity.
  - fold (members_size l) in Hfuel.
    rewrite (Hx Hwx) by (try apply terminated_items; (lia || auto)).
    cbn [rbind fst snd write_rest]. unfold write_member at 1.
    unfold encode_basestring_ascii at 1. cbn [fst snd].
    change (lit ", ") with [44; 32]. change (lit ": ") with [58; 32].
    cbn [app skip_ws].
    change (whitespace 44) with false. cbv iota.
    change (44 =? 125) with false. change (44 =? 44) with true. cbv iota.
    change (whitespace 32) with true. change (whitespace 34) with false. cbv iota.
    change (34 =? 34) with true. cbv iota.
    rewrite <- !app_assoc. cbn [app].
    change [44; 32] with (lit ", "). change (58 :: 32 :: ?t) with (lit ": " ++ t).
    cbn [skip_ws].
    change (whitespace 32) with true. change (whitespace 34) with false. cbv iota.
    change (34 =? 34) with true. cbv iota.
    rewrite (IH k' y level fuel rest Hrt' Hwl); [reflexivity| |assumption].
    unfold members_size. cbn [fold_right snd]. fold (members_size l). lia.
Qed.

Lemma dict_set_fresh (d : dict) (k : str) (v : json) :
  existsb (fun kv => str_eqb k (fst kv)) d = false ->
  dict_set d k v = d ++ [(k, v)].
Proof.
  induction d as [|[k' v'] d IH]; cbn [existsb dict_set app fst]; [reflexivity|].
  intros H. apply orb_false_elim in H. destruct H as [Hk Hd].
  rewrite Hk. now rewrite IH.
Qed.

Lemma existsb_key_app (k : str) (a b : dict) :
  existsb (fun kv => str_eqb k (fst kv)) (a ++ b)
  = existsb (fun kv => str_eqb k (fst kv)) a
    || existsb (fun kv => str_eqb k (fst kv)) b.
Proof. apply existsb_app. Qed.

Lemma unique_keys_app_cons (acc : dict) (k : str) (v : json) (l : dict) :
  unique_keys (acc ++ (k, v) :: l) = true ->
  existsb (fun kv => str_eqb k (fst kv)) acc = false
  /\ unique_keys ((acc ++ [(k, v)]) ++ l) = true.
Proof.
  rewrite <- app_assoc. cbn [app]. intros H. split; [|exact H].
  induction acc as [|[k' v'] acc IH]; cbn [existsb app unique_keys fst] in *;
    [reflexivity|].
  apply andb_prop in H. destruct H as [Hk' Hu].
  rewrite (IH Hu), orb_false_r.
  rewrite existsb_key_app in Hk'. cbn [existsb fst] in Hk'.
  destruct (str_eqb k k') eqn:E; [|reflexivity].
  apply str_eqb_eq in E. subst k'. rewrite str_eqb_refl in Hk'.
  rewrite orb_true_r in Hk'. discriminate.
Qed.

Lemma fold_dict_set_unique (l acc : dict) :
  unique_keys (acc ++ l) = true ->
  fold_left (fun d kv => dict_set d (fst kv) (snd kv)) l acc = acc ++ l.
Proof.
  revert acc. induction l as [|[k v] l IH]; intros acc Hu; cbn [fold_left fst snd].
  - now rewrite app_nil_r.
  - destruct (unique_keys_app_cons _ _ _ _ Hu) as [Hfresh Hu'].
    rewrite (dict_set_fresh _ _ _ Hfresh), (IH _ Hu'), <- app_assoc. reflexivity.
Qed.

Lemma dict_of_pairs_unique (d : dict) :
  unique_keys d = true -> dict_of_pairs d = d.
Proof. intros Hu. unfold dict_of_pairs. now rewrite fold_dict_set_unique. Qed.

(** Every well-formed value is read back from its serialisation. *)
Lemma scan_once_encode (v : json) : round_trips v.
Proof.
  induction v as [| b | n | f | s | l IH | d IH] using json_induction;
    intros Hwf level fuel rest Hfuel Ht;
    (destruct fuel as [|fuel]; [cbn [size] in Hfuel; lia|]).
  - reflexivity.
  - destruct b; reflexivity.
  - now apply scan_once_int.
  - now apply scan_once_float.
  - now apply scan_once_str.
  - destruct l as [|x l]; [reflexivity|].
    cbn [encode newline_indent item_separator app].
    cbn [scan_once]. change (91 =? 34) with false. change (91 =? 123) with false.
    change (91 =? 91) with true. cbv iota.
    cbn [wf_json] in Hwf.
    rewrite <- app_assoc. rewrite skip_ws_value
      by (apply encode_begins; cbn [forallb] in Hwf; apply andb_prop in Hwf; apply Hwf).
    destruct (encode_begins x (S level)
                (write_rest (encode None (S level)) (lit ", ") [93] l ++ rest))
      as (q & r1 & E & Hq);
      [cbn [forallb] in Hwf; apply andb_prop in Hwf; apply Hwf|].
    rewrite E. replace (q =? 93) with false by (unfold value_start, digit in Hq; lia).
    rewrite <- E.
    rewrite (array_items l x (S level) fuel rest IH Hwf); [reflexivity| |assumption].
    cbn [size] in Hfuel. fold (items_size (x :: l)) in Hfuel. lia.
  - destruct d as [|[k x] d]; [reflexivity|].
    cbn [encode newline_indent item_separator app].
    unfold encode_basestring_ascii at 1. cbn [app].
    cbn [scan_once]. change (123 =? 34) with false. change (123 =? 123) with true.
    cbv iota. cbn [skip_ws]. change (whitespace 34) with false. cbv iota.
    change (34 =? 125) with false. change (34 =? 34) with true. cbv iota.
    cbn [wf_json] in Hwf. apply andb_prop in Hwf. destruct Hwf as [Hu Hwf].
    rewrite <- !app_assoc. cbn [app].
    change (fun kv : str * json =>
              encode_basestring_ascii (fst kv) ++ lit ": "
              ++ encode None (S level) (snd kv)) with (write_member (S level)).
    rewrite (object_members d k x (S level) fuel rest IH Hwf).
    + cbn [rmap rbind fst snd]. now rewrite (dict_of_pairs_unique _ Hu).
    + cbn [size] in Hfuel. fold (members_size ((k, x) :: d)) in Hfuel. lia.
    + assumption.
Qed.

(** ** json: the serialisation is ASCII and long enough for the decoder's fuel *)

Lemma digits_ascii (ds : str) :
  Forall (fun c => digit c = true) ds -> ascii_text ds.
Proof.
  apply Forall_impl. intros c Hc. unfold digit in Hc. lia.
Qed.

Lemma nat_repr_ascii (n : Z) : 0 <= n -> ascii_text (nat_repr n).
Proof.
  intros Hn. apply digits_ascii. apply (numeral_digits _ n).
  now apply nat_repr_numeral.
Qed.

Lemma int_repr_ascii (n : Z) : ascii_text (int_repr n).
Proof.
  unfold int_repr. destruct (Z.ltb_spec n 0).
  - constructor; [lia|]. apply nat_repr_ascii. lia.
  - now apply nat_repr_ascii.
Qed.

Lemma float_repr_ascii (f : pyfloat) :
  wf_json (JFloat f) = true -> ascii_text (float_repr f).
Proof.
  destruct f as [| [|] | neg d e]; intros Hwf;
    try (cbn; repeat constructor; lia).
  cbn [wf_json] in Hwf. cbn [float_repr]. apply ascii_text_app.
  - destruct neg; repeat constructor; lia.
  - apply ascii_text_app; [apply nat_repr_ascii; lia|].
    constructor; [lia|apply int_repr_ascii].
Qed.

Lemma hex_digit_ascii (v : Z) : 0 <= v < 16 -> 0 <= hex_digit v < 128.
Proof. intros Hv. unfold hex_digit. destruct (v <? 10); lia. Qed.

Lemma hex4_ascii (n : Z) : 0 <= n < 65536 -> ascii_text (hex4 n).
Proof.
  intros Hn. unfold hex4. repeat constructor; apply hex_digit_ascii; lia.
Qed.

Lemma escape_ascii (s : str) : forallb code_point s = true -> ascii_text (escape s).
Proof.
  induction s as [|c s IH]; intros Hcp; [constructor|].
  cbn [forallb] in Hcp. apply andb_prop in Hcp. destruct Hcp as [Hc Hcp].
  rewrite escape_cons. apply ascii_text_app; [|now apply IH].
  unfold code_point in Hc.
  destruct (S_CHAR c) eqn:Hs; [unfold S_CHAR in Hs; repeat constructor; lia|].
  unfold ascii_escape_unichar.
  destruct (Z.eqb_spec c 92); [cbn [orb]; repeat constructor; lia|].
  destruct (Z.eqb_spec c 34); [cbn [orb]; repeat constructor; lia|].
  cbn [orb].
  destruct (Z.eqb_spec c 8); [repeat constructor; lia|].
  destruct (Z.eqb_spec c 12); [repeat constructor; lia|].
  destruct (Z.eqb_spec c 10); [repeat constructor; lia|].
  destruct (Z.eqb_spec c 13); [repeat constructor; lia|].
  destruct (Z.eqb_spec c 9); [repeat constructor; lia|].
  destruct (Z.leb_spec 65536 c).
  - constructor; [lia|]. constructor; [lia|].
    apply ascii_text_app; [apply hex4_ascii; lia|].
    constructor; [lia|]. constructor; [lia|]. apply hex4_ascii. lia.
  - constructor; [lia|]. constructor; [lia|]. apply hex4_ascii. lia.
Qed.

Lemma basestring_ascii (s : str) :
  wf_str s = true -> ascii_text (encode_basestring_ascii s).
Proof.
  intros Hwf. unfold wf_str in Hwf. apply andb_prop in Hwf.
  unfold encode_basestring_ascii. constructor; [lia|].
  apply ascii_text_app; [now apply escape_ascii|]. repeat constructor; lia.
Qed.

Lemma write_rest_ascii {A} (write : A -> str) (closing : Z) (l : list A) :
  0 <= closing < 128 ->
  Forall (fun y => ascii_text (write y)) l ->
  ascii_text (write_rest write (lit ", ") [closing] l).
Proof.
  intros Hc. induction 1 as [|y l Hy _ IH]; cbn [write_rest].
  - repeat constructor; lia.
  - apply ascii_text_app; [repeat constructor; lia|]. now apply ascii_text_app.
Qed.

Lemma encode_ascii_text (v : json) :
  wf_json v = true -> forall level, ascii_text (encode None level v).
Proof.
  induction v as [| b | n | f | s | l IH | d IH] using json_induction;
    intros Hwf level.
  - repeat constructor; lia.
  - destruct b; repeat constructor; lia.
  - apply int_repr_ascii.
  - now apply float_repr_ascii.
  - now apply basestring_ascii.
  - destruct l as [|x l]; [repeat constructor; lia|].
    cbn [wf_json forallb] in Hwf. apply andb_prop in Hwf. destruct Hwf as [Hx Hl].
    inversion IH as [|? ? IHx IHl]; subst.
    cbn [encode newline_indent item_separator app]. constructor; [lia|].
    apply ascii_text_app; [now apply IHx|].
    apply write_rest_ascii; [lia|].
    rewrite forallb_forall in Hl. rewrite Forall_forall in IHl |- *.
    intros y Hy. apply IHl; [assumption|now apply Hl].
  - destruct d as [|[k x] d]; [repeat constructor; lia|].
    cbn [wf_json] in Hwf. apply andb_prop in Hwf. destruct Hwf as [_ Hwf].
    cbn [forallb fst snd] in Hwf. apply andb_prop in Hwf. destruct Hwf as [Hx Hl].
    apply andb_prop in Hx. destruct Hx as [Hk Hx].
    inversion IH as [|? ? IHx IHl]; subst. cbn [snd] in IHx.
    cbn [encode newline_indent item_separator app]. constructor; [lia|].
    apply ascii_text_app; [now apply basestring_ascii|].
    apply ascii_text_app; [repeat constructor; lia|].
    apply ascii_text_app; [now apply IHx|].
    apply write_rest_ascii; [lia|].
    rewrite forallb_forall in Hl. rewrite Forall_forall in IHl |- *.
    intros [k' y] Hy. specialize (Hl _ Hy). cbn [fst snd] in *.
    apply andb_prop in Hl. destruct Hl as [Hk' Hy'].
    apply ascii_text_app; [now apply basestring_ascii|].
    apply ascii_text_app; [repeat constructor; lia|].
    apply (IHl _ Hy); assumption.
Qed.

Lemma write_rest_length {A} (write : A -> str) (measure : A -> nat)
    (closing : Z) (l : list A) :
  Forall (fun y => (measure y <= List.length (write y))%nat) l ->
  (fold_right (fun y n => S (measure y + n)) O l + 1
   <= List.length (write_rest write (lit ", ") [closing] l))%nat.
Proof.
  induction 1 as [|y l Hy _ IH]; cbn [write_rest fold_right].
  - cbn [List.length]. lia.
  - rewrite !length_app. change (List.length (lit ", ")) with 2%nat. lia.
Qed.

Lemma size_le_length (v : json) :
  wf_json v = true ->
  forall level, (size v <= List.length (encode None level v))%nat.
Proof.
  induction v as [| b | n | f | s | l IH | d IH] using json_induction;
    intros Hwf level.
  - cbn. lia.
  - destruct b; cbn; lia.
  - cbn [size encode]. unfold int_repr. destruct (Z.ltb_spec n 0).
    + cbn [List.length]. lia.
    + destruct (nat_repr_cons n) as (c & r & -> & _); [assumption|].
      cbn [List.length]. lia.
  - destruct f as [| [|] | neg d e]; try (cbn; lia).
    cbn [size encode float_repr]. rewrite !length_app. cbn [List.length]. lia.
  - cbn [size encode]. unfold encode_basestring_ascii. cbn [List.length]. lia.
  - destruct l as [|x l]; [cbn; lia|].
    cbn [wf_json forallb] in Hwf. apply andb_prop in Hwf. destruct Hwf as [Hx Hl].
    inversion IH as [|? ? IHx IHl]; subst.
    cbn [size fold_right encode newline_indent item_separator app List.length].
    rewrite length_app. specialize (IHx Hx (S level)).
    assert (Hrest := write_rest_length (encode None (S level)) size 93 l).
    cbn beta in Hrest. rewrite Forall_forall in Hrest, IHl.
    rewrite forallb_forall in Hl.
    specialize (Hrest (fun y Hy => IHl y Hy (Hl y Hy) (S level))). lia.
  - destruct d as [|[k x] d]; [cbn; lia|].
    cbn [wf_json] in Hwf. apply andb_prop in Hwf. destruct Hwf as [_ Hwf].
    cbn [forallb fst snd] in Hwf. apply andb_prop in Hwf. destruct Hwf as [Hx Hl].
    apply andb_prop in Hx. destruct Hx as [_ Hx].
    inversion IH as [|? ? IHx IHl]; subst. cbn [snd] in IHx.
    cbn [size fold_right snd encode newline_indent item_separator app List.length].
    rewrite !length_app. specialize (IHx Hx (S level)).
    assert (Hrest := write_rest_length
                       (fun kv : str * json =>
                          encode_basestring_ascii (fst kv) ++ lit ": "
                          ++ encode None (S level) (snd kv))
                       (fun kv => size (snd kv)) 125 d).
    cbn beta in Hrest. rewrite Forall_forall in Hrest, IHl.
    rewrite forallb_forall in Hl.
    assert (Hall : forall kv, In kv d ->
              (size (snd kv)
               <= List.length (encode_basestring_ascii (fst kv) ++ lit ": "
                               ++ encode None (S level) (snd kv)))%nat).
    { intros kv Hin. specialize (Hl kv Hin). apply andb_prop in Hl.
      rewrite !length_app. specialize (IHl kv Hin (proj2 Hl) (S level)). lia. }
    specialize (Hrest Hall). lia.
Qed.

(** ** The round trip *)

Lemma json_loads_dumps (v : json) :
  wf_json v = true -> json_loads (json_dumps None v) = Ok v.
Proof.
  intros Hwf. unfold json_loads, json_dumps.
  destruct (encode_begins v 0 [] Hwf) as (c & r & E & Hc).
  rewrite app_nil_r in E.
  assert (Hb : begins_value (encode None 0 v)) by (rewrite E; now exists c, r).
  rewrite (skip_ws_value _ Hb).
  replace (starts_with [65279] (encode None 0 v)) with false.
  - rewrite <- (app_nil_r (encode None 0 v)) at 2.
    rewrite (scan_once_encode v Hwf 0%nat _ []); [reflexivity| |reflexivity].
    pose proof (size_le_length v Hwf 0). lia.
  - rewrite E. cbn [starts_with]. unfold value_start, digit in Hc.
    destruct (Z.eqb_spec 65279 c); [lia|reflexivity].
Qed.

Lemma padded_segment_ascii (data : bytes) :
  Forall (fun b => 0 <= b < 256) data ->
  ascii_text (urlsafe_b64encode_nopad data
              ++ repeat 61 (Z.to_nat (padding_count (urlsafe_b64encode_nopad data)))).
Proof.
  intros Hd. apply ascii_text_app.
  - eapply Forall_impl; [|exact (b64_segment_alphabet data Hd)].
    intros c [Hc _]. exact Hc.
  - apply Forall_forall. intros c Hc. apply repeat_spec in Hc. lia.
Qed.

Lemma decode_segment_encoded (text : str) (v : json) :
  ascii_text text -> json_loads text = Ok v ->
  decode_segment
    (urlsafe_b64encode_nopad text
     ++ repeat 61 (Z.to_nat (padding_count (urlsafe_b64encode_nopad text))))
  = Ok v.
Proof.
  intros Ha Hl.
  assert (Hb : Forall (fun b => 0 <= b < 256) text)
    by (eapply Forall_impl; [|exact Ha]; intros c Hc; cbn beta in Hc; lia).
  unfold decode_segment, urlsafe_b64decode.
  rewrite (encode_ascii_ok _ (padded_segment_ascii text Hb)). cbn [rbind].
  rewrite (b64_round_trip text Hb). cbn [rbind].
  rewrite (utf8_decode_ascii text Ha). cbn [rbind]. exact Hl.
Qed.



(** * Further properties of the decoder, the extractor and the handler *)

(** ** The decoder looks at the middle segment only *)

(** X1. The decoder does not look at the first and the third segment of a
    token: two tokens with the same middle segment decode alike, log and
    result, whatever their header and signature segments are. *)
Theorem signature_is_ignored (token1 token2 h1 h2 p s1 s2 : str) :
  split 46 token1 = [h1; p; s1] ->
  split 46 token2 = [h2; p; s2] ->
  decode_jwt_payload (JStr token1) = decode_jwt_payload (JStr token2).
Proof.
  intros H1 H2.
  now rewrite (decode_three_segments _ _ _ _ H1), (decode_three_segments _ _ _ _ H2).
Qed.

Lemma signature_is_ignored_witness :
  decode_jwt_payload (JStr (lit "aGVhZGVy.eyJzdWIiOiAidTEifQ.c2ln"))
  = decode_jwt_payload (JStr (lit "anything.eyJzdWIiOiAidTEifQ.forged")).
Proof.
  exact (signature_is_ignored
           (lit "aGVhZGVy.eyJzdWIiOiAidTEifQ.c2ln")
           (lit "anything.eyJzdWIiOiAidTEifQ.forged")
           (lit "aGVhZGVy") (lit "anything") (lit "eyJzdWIiOiAidTEifQ")
           (lit "c2ln") (lit "forged") eq_refl eq_refl).
Defined.

Lemma encode_ascii_fails (s : str) (c : Z) :
  In c s -> c < 0 \/ 128 <= c -> encode_ascii s = Raise ValueError.
Proof.
  intros Hin Hc. unfold encode_ascii.
  destruct (forallb (fun c => (0 <=? c) && (c <? 128)) s) eqn:E; [|reflexivity].
  rewrite forallb_forall in E. specialize (E c Hin). lia.
Qed.

(** X2. A middle segment that holds a character outside ASCII is refused
    before any base64 decoding: the decoder logs the [ValueError] and
    returns [None]. *)
Theorem non_ascii_segment_is_invalid (token h p s : str) (c : Z) :
  split 46 token = [h; p; s] ->
  In c p -> c < 0 \/ 128 <= c ->
  decode_jwt_payload (JStr token)
  = ([(ERROR, Error_decoding_JWT_payload ValueError)], Ok JNull).
Proof.
  intros Hs Hin Hc. rewrite (decode_three_segments _ _ _ _ Hs).
  unfold decode_segment, urlsafe_b64decode.
  rewrite (encode_ascii_fails _ c); [reflexivity| |assumption].
  apply in_or_app. now left.
Qed.

Lemma non_ascii_segment_is_invalid_witness :
  decode_jwt_payload (JStr (lit "h.eyJ" ++ [233] ++ lit "9.s"))
  = ([(ERROR, Error_decoding_JWT_payload ValueError)], Ok JNull).
Proof.
  refine (non_ascii_segment_is_invalid
            (lit "h.eyJ" ++ [233] ++ lit "9.s") (lit "h")
            (lit "eyJ" ++ [233] ++ lit "9") (lit "s") 233 eq_refl _ _).
  - vm_compute. tauto.
  - right. lia.
Defined.

(** ** Segments that no padding can repair *)

Lemma rmap_rmap {A B C} (f : A -> B) (g : B -> C) (m : result A) :
  rmap g (rmap f m) = rmap (fun a => g (f a)) m.
Proof. now destruct m. Qed.

Lemma base64_char_table (c : Z) :
  base64_char c = true ->
  (exists v, table_a2b_base64 (urlsafe_translate c) = Some v)
  /\ urlsafe_translate c <> 61 /\ 0 <= c < 128.
Proof.
  unfold base64_char.
  destruct (table_a2b_base64 (urlsafe_translate c)) as [v|] eqn:E; [|discriminate].
  intros _. split; [now exists v|].
  unfold table_a2b_base64, urlsafe_translate in E.
  unfold urlsafe_translate.
  destruct (Z.eqb_spec c 45); [lia|]. destruct (Z.eqb_spec c 95); [lia|].
  repeat match type of E with
         | (if ?b then _ else _) = _ => destruct b eqn:?
         end; try discriminate; lia.
Qed.

(** The decoding loop over characters of the alphabet: bytes come out, and
    the position in the quad advances by one for each character. *)
Lemma a2b_loop_chars (l : str) :
  forall quad_pos leftchar pads rest,
    forallb base64_char l = true -> 0 <= quad_pos < 4 ->
    exists out leftchar' pads',
      a2b_loop quad_pos leftchar pads (map urlsafe_translate l ++ rest)
      = rmap (app out)
          (a2b_loop ((quad_pos + Z.of_nat (List.length l)) mod 4)
                    leftchar' pads' rest).
Proof.
  induction l as [|c l IH]; intros q lc pads rest Hl Hq.
  - exists [], lc, pads. cbn [List.length map app Z.of_nat].
    replace ((q + 0) mod 4) with q by lia.
    now destruct (a2b_loop q lc pads rest).
  - cbn [forallb] in Hl. apply andb_prop in Hl. destruct Hl as [Hc Hl].
    destruct (base64_char_table c Hc) as ((v & Hv) & Hne & _).
    cbn [map app a2b_loop]. rewrite Hv.
    destruct (Z.eqb_spec (urlsafe_translate c) 61); [contradiction|].
    replace ((q + Z.of_nat (List.length (c :: l))) mod 4)
      with ((q + 1 + Z.of_nat (List.length l)) mod 4)
      by (cbn [List.length]; rewrite Nat2Z.inj_succ; f_equal; lia).
    assert (Hcases : q = 0 \/ q = 1 \/ q = 2 \/ q = 3) by lia.
    destruct Hcases as [-> | [-> | [-> | ->]]]; cbn [Z.eqb Pos.eqb].
    + destruct (IH 1 v 0 rest Hl) as (out & lc' & pads' & E); [lia|].
      exists out, lc', pads'. exact E.
    + destruct (IH 2 (v mod 16) 0 rest Hl) as (out & lc' & pads' & E); [lia|].
      exists (lc * 4 + v / 16 :: out), lc', pads'. rewrite E, rmap_rmap.
      reflexivity.
    + destruct (IH 3 (v mod 4) 0 rest Hl) as (out & lc' & pads' & E); [lia|].
      exists (lc * 16 + v / 4 :: out), lc', pads'. rewrite E, rmap_rmap.
      reflexivity.
    + destruct (IH 0 0 0 rest Hl) as (out & lc' & pads' & E); [lia|].
      exists (lc * 64 + v :: out), lc', pads'. rewrite E, rmap_rmap.
      replace ((3 + 1 + Z.of_nat (List.length l)) mod 4)
        with ((0 + Z.of_nat (List.length l)) mod 4) by lia.
      reflexivity.
Qed.

Lemma base64_chars_ascii (l : str) :
  forallb base64_char l = true -> ascii_text l.
Proof.
  intros H. apply Forall_forall. intros c Hc.
  rewrite forallb_forall in H. now apply base64_char_table, H.
Qed.

(** X3. A middle segment of [4k + 1] characters of the base64 alphabet
    cannot be decoded: the three [=] the decoder appends do not help, the
    base64 error is logged and the result is [None]. *)
Theorem one_character_over_is_invalid (token h p s : str) :
  split 46 token = [h; p; s] ->
  forallb base64_char p = true ->
  Z.of_nat (List.length p) mod 4 = 1 ->
  padding_count p = 3
  /\ decode_jwt_payload (JStr token)
     = ([(ERROR, Error_decoding_JWT_payload BinasciiError)], Ok JNull).
Proof.
  intros Hs Hp Hlen.
  assert (Hpad : padding_count p = 3) by (unfold padding_count; lia).
  split; [exact Hpad|].
  rewrite (decode_three_segments _ _ _ _ Hs), Hpad.
  unfold decode_segment, urlsafe_b64decode.
  rewrite encode_ascii_ok
    by (apply ascii_text_app; [now apply base64_chars_ascii|repeat constructor; lia]).
  cbn [rbind]. unfold a2b_base64. rewrite map_app.
  destruct (a2b_loop_chars p 0 0 0 (map urlsafe_translate (repeat 61 (Z.to_nat 3))) Hp)
    as (out & lc & pads & E); [lia|].
  rewrite E. replace ((0 + Z.of_nat (List.length p)) mod 4) with 1 by lia.
  reflexivity.
Qed.

Lemma one_character_over_is_invalid_witness :
  decode_jwt_payload (JStr (lit "h.eyJhIjoxf.s"))
  = ([(ERROR, Error_decoding_JWT_payload BinasciiError)], Ok JNull).
Proof.
  exact (proj2 (one_character_over_is_invalid
                  (lit "h.eyJhIjoxf.s") (lit "h") (lit "eyJhIjoxf") (lit "s")
                  eq_refl eq_refl eq_refl)).
Defined.

(** ** Tokens nobody signed *)

Lemma padded_length (p : str) :
  Z.of_nat (List.length (p ++ repeat 61 (Z.to_nat (padding_count p)))) mod 4 = 0.
Proof.
  unfold padding_count.
  rewrite length_app, repeat_length, Nat2Z.inj_add, Z2Nat.id by lia. lia.
Qed.

Lemma segment_without_dot (text : str) :
  ascii_text text ->
  ~ In 46 (urlsafe_b64encode_nopad text)
  /\ ~ In 46 (urlsafe_b64encode_nopad text
              ++ repeat 61 (Z.to_nat (padding_count (urlsafe_b64encode_nopad text)))).
Proof.
  intros Ha.
  assert (Hb : Forall (fun b => 0 <= b < 256) text)
    by (eapply Forall_impl; [|exact Ha]; intros c Hc; cbn beta in Hc; lia).
  assert (Hp : ~ In 46 (urlsafe_b64encode_nopad text)).
  { intros Hin.
    apply (proj1 (Forall_forall _ _) (b64_segment_alphabet _ Hb)) in Hin.
    now destruct Hin. }
  split; [exact Hp|]. intros Hin. apply in_app_or in Hin.
  destruct Hin as [Hin|Hin]; [now apply Hp|]. apply repeat_spec in Hin. lia.
Qed.

(** The token made from a payload decodes to the payload. *)
Lemma decode_synthetic (header signature : str) (payload : json) :
  wf_json payload = true -> ~ In 46 header -> ~ In 46 signature ->
  synthetic_token header payload signature
  = Ok (header ++ 46 :: urlsafe_b64encode_nopad (json_dumps None payload)
        ++ 46 :: signature)
  /\ decode_jwt_payload
       (JStr (header ++ 46 :: urlsafe_b64encode_nopad (json_dumps None payload)
              ++ 46 :: signature))
     = ([], Ok payload).
Proof.
  intros Hwf Hh Hs.
  pose proof (encode_ascii_text payload Hwf 0%nat) as Ha.
  fold (json_dumps None payload) in Ha.
  unfold synthetic_token. rewrite (utf8_encode_ascii _ Ha). cbn [rmap rbind].
  split; [reflexivity|].
  destruct (segment_without_dot _ Ha) as [Hp _].
  rewrite (decode_three_segments _ _ _ _ (split_three _ _ _ Hh Hp Hs)).
  now rewrite (decode_segment_encoded _ payload Ha (json_loads_dumps _ Hwf)).
Qed.



Lemma extractor_identity (event : json) (hs : list (str * json))
    (w : list record) (d : dict) :
  get event (lit "headers") (JDict []) = Ok (JDict hs) ->
  truthy (find_id_token hs JNull) = true ->
  decode_jwt_payload (find_id_token hs JNull) = (w, Ok (JDict d)) ->
  d <> [] ->
  get_user_info_from_token event
  = (w ++ identity_log d, Ok (user_identity d, group_list d)).
Proof.
  intros Hh Ht Hd Hne. rewrite (extractor_decoded _ _ _ _ Hh Ht Hd).
  destruct d as [|item d]; [congruence|reflexivity].
Qed.

Lemma handler_with_token (event : json) (context : context)
    (hs : list (str * json)) (w : list record) (d rc : dict) :
  get event (lit "headers") (JDict []) = Ok (JDict hs) ->
  truthy (find_id_token hs JNull) = true ->
  decode_jwt_payload (find_id_token hs JNull) = (w, Ok (JDict d)) ->
  d <> [] ->
  request_context_of event = Some rc ->
  handler event context
  = ([(INFO, Event (json_dumps (Some 2%nat) event));
      (INFO, Invocation_context context)] ++ w ++ identity_log d,
     Ok (response_for (user_identity d) (group_list d) rc context)).
Proof.
  intros Hh Ht Hd Hne Erc. unfold handler.
  rewrite (extractor_identity _ _ _ _ Hh Ht Hd Hne).
  cbn [bind log fst snd truthy user_identity negb ret].
  rewrite (assemble_response_object _ _ _ _ _ Erc).
  cbn [app]. now rewrite !app_nil_r.
Qed.

(** X5. When the token gives an identity the handler answers from the token
    alone: the response carries the identity and the groups of the payload,
    the log holds the event, the context, the decoder's records and the
    three records of the extractor, and the fallback is not run, so the
    identity block of the request context is never read. *)
Theorem token_identity_wins (event : json) (context : context)
    (hs : list (str * json)) (w : list record) (d rc : dict) :
  get event (lit "headers") (JDict []) = Ok (JDict hs) ->
  truthy (find_id_token hs JNull) = true ->
  decode_jwt_payload (find_id_token hs JNull) = (w, Ok (JDict d)) ->
  d <> [] ->
  request_context_of event = Some rc ->
  handler event context
  = ([(INFO, Event (json_dumps (Some 2%nat) event));
      (INFO, Invocation_context context)] ++ w ++ identity_log d,
     Ok (response_for (user_identity d) (group_list d) rc context))
  /\ (forall m, ~ In (INFO, Cognito_context_user_info m) (identity_log d))
  /\ (forall e, ~ In (ERROR, Error_extracting_user_from_Cognito_context e)
                   (identity_log d)).
Proof.
  intros Hh Ht Hd Hne Erc. split; [now apply (handler_with_token _ _ hs)|].
  split; intros x Hin; cbn [identity_log In] in Hin;
    repeat (destruct Hin as [Hin|Hin]; [discriminate|]); exact Hin.
Qed.

Lemma token_identity_wins_witness :
  let identity := [(lit "cognitoIdentityId", JStr (lit "eu-west-1:1234"))] in
  let rc := [(lit "identity", JDict identity)] in
  let event := JDict [(lit "headers",
                       JDict [(lit "X-Cognito-Id-Token", token_admin_x)]);
                      (lit "requestContext", JDict rc)] in
  let d := [(lit "cognito:groups", JList [JStr (lit "Admin"); JStr (lit "X")])] in
  handler event sample_context
  = ([(INFO, Event (json_dumps (Some 2%nat) event));
      (INFO, Invocation_context sample_context)] ++ [] ++ identity_log d,
     Ok (response_for (user_identity d) (group_list d) rc sample_context)).
Proof.
  intros identity rc event d.
  refine (proj1 (token_identity_wins event sample_context
                   [(lit "X-Cognito-Id-Token", token_admin_x)] [] d rc
                   eq_refl eq_refl _ _ eq_refl)).
  - vm_compute. reflexivity.
  - discriminate.
Defined.



(** ** What the extractor can answer *)

Lemma extractor_outcomes (event : json) :
  exists w user_info groups,
    get_user_info_from_token event = (w, Ok (user_info, groups))
    /\ ((user_info = JNull /\ groups = []) \/ from_payload event user_info groups).
Proof.
  destruct (rbind (get event (lit "headers") (JDict [])) items) as [hs|e] eqn:E.
  - assert (Hh : get event (lit "headers") (JDict []) = Ok (JDict hs)).
    { destruct (get event (lit "headers") (JDict [])) as [h|]; [|discriminate].
      cbn [rbind] in E. destruct h; try discriminate. cbn [items] in E. congruence. }
    destruct (truthy (find_id_token hs JNull)) eqn:Ht.
    + destruct (decode_never_raises (find_id_token hs JNull)) as (w & payload & Hd).
      rewrite (extractor_decoded _ _ _ _ Hh Ht Hd).
      assert (Hcases : (exists item d, payload = JDict (item :: d))
                       \/ non_empty_object payload = false).
      { destruct payload as [| | | | | |[|item d]]; try (now right).
        left. now exists item, d. }
      destruct Hcases as [(item & d & ->)|Hn].
      * eexists _, _, _. split; [reflexivity|]. right.
        exists hs, w, (item :: d). repeat split; try assumption. discriminate.
      * destruct payload as [| | | | | |[|item d]]; try discriminate;
          match goal with
          | |- context [if ?c then _ else _] => destruct c
          end; eexists _, _, _; (split; [reflexivity|now left]).
    + eexists _, _, _. split; [exact (extractor_no_token _ _ Hh Ht)|now left].
  - eexists _, _, _. split; [exact (extractor_no_headers _ _ E)|now left].
Qed.

(** X7. On every request the extractor returns, and what it returns is
    either the pair of [None] and the empty list, or the identity and the
    group list of a non-empty object that was decoded from the token the
    request carries: there are never groups without an identity. *)
Theorem extractor_answers (event : json) :
  exists w user_info groups,
    get_user_info_from_token event = (w, Ok (user_info, groups))
    /\ ((user_info = JNull /\ groups = []) \/ from_payload event user_info groups)
    /\ (truthy user_info = true \/ groups = []).
Proof.
  destruct (extractor_outcomes event) as (w & ui & g & He & Hc).
  exists w, ui, g. split; [exact He|]. split; [exact Hc|].
  destruct Hc as [[_ Hg]|(hs & w' & d & _ & _ & _ & Hne & -> & _)]; [now right|].
  now left.
Qed.

(** X8. A role flag can only come from a token: whenever the handler
    responds with [Admin] or [Viewer] among the groups, the identity and
    the groups of the response are those of a non-empty object decoded
    from the token of the request; the context fallback never grants a
    role. *)
Theorem roles_come_from_the_token (event : json) (context : context)
    (w : list record) (r : response) :
  handler event context = (w, Ok r) ->
  exists user_info groups rc,
    request_context_of event = Some rc
    /\ r = response_for user_info groups rc context
    /\ (In (JStr (lit "Admin")) groups \/ In (JStr (lit "Viewer")) groups ->
        from_payload event user_info groups).
Proof.
  intros Hr.
  destruct (handler_run event context)
    as (w1 & from_token & w2 & identity & He & Hi & Hg & Hh).
  rewrite Hh in Hr. injection Hr as _ Hr.
  destruct (request_context_of event) as [rc|]; [|discriminate].
  injection Hr as <-.
  exists (fst identity), (snd identity), rc. split; [reflexivity|].
  split; [reflexivity|]. intros Hin.
  destruct (extractor_outcomes event) as (w' & ui & g & He' & Hc).
  rewrite He in He'. injection He' as _ ->.
  destruct Hc as [[-> ->]|Hp].
  - cbn [fst truthy] in Hg. rewrite (Hg eq_refl) in Hin.
    destruct Hin as [[]|[]].
  - destruct Hp as (hs & wd & d & H1 & H2 & H3 & H4 & -> & ->).
    cbn [fst truthy user_identity negb ret] in Hi. injection Hi as _ <-.
    cbn [fst snd]. now exists hs, wd, d.
Qed.

Lemma roles_come_from_the_token_witness :
  exists user_info groups rc,
    request_context_of (request_with "X-Cognito-Id-Token" token_admin_x) = Some rc
    /\ response_for (user_identity [(lit "cognito:groups",
                                     JList [JStr (lit "Admin"); JStr (lit "X")])])
         [JStr (lit "Admin"); JStr (lit "X")] [] sample_context
       = response_for user_info groups rc sample_context
    /\ (In (JStr (lit "Admin")) groups \/ In (JStr (lit "Viewer")) groups ->
        from_payload (request_with "X-Cognito-Id-Token" token_admin_x)
                     user_info groups).
Proof.
  refine (roles_come_from_the_token
            (request_with "X-Cognito-Id-Token" token_admin_x) sample_context _ _ _).
  vm_compute. reflexivity.
Defined.

(** X9. Without usable headers there is no identity, and the log tells the
    cases apart: an event without a [headers] entry has no header to match,
    which is the warning of an absent token; an event whose [headers] entry
    is not an object ([null] for instance), and an event that is not an
    object, raise [AttributeError], which is logged as an error. *)
Theorem headers_absent_or_unusable (event : json) :
  (forall d, event = JDict d -> lookup (lit "headers") d = None ->
     get_user_info_from_token event
     = ([(WARNING, No_X_Cognito_Id_Token_header_found)], Ok no_identity))
  /\ (forall d v, event = JDict d -> lookup (lit "headers") d = Some v ->
        (forall hs, v <> JDict hs) ->
        get_user_info_from_token event
        = ([(ERROR, Error_extracting_user_info_from_token AttributeError)],
           Ok no_identity))
  /\ ((forall d, event <> JDict d) ->
        get_user_info_from_token event
        = ([(ERROR, Error_extracting_user_info_from_token AttributeError)],
           Ok no_identity)).
Proof.
  split; [|split].
  - intros d -> Hl. apply (extractor_no_token _ []); [|reflexivity].
    cbn [get]. now rewrite Hl.
  - intros d v -> Hl Hv. apply extractor_no_headers. cbn [get]. rewrite Hl.
    cbn [rbind]. destruct v; try reflexivity. now elim (Hv items0).
  - intros Hn. apply extractor_no_headers.
    destruct event; try reflexivity. now elim (Hn items0).
Qed.

Lemma headers_absent_or_unusable_witness :
  get_user_info_from_token (JDict [(lit "path", JStr (lit "/test/auth"))])
  = ([(WARNING, No_X_Cognito_Id_Token_header_found)], Ok no_identity)
  /\ get_user_info_from_token (JDict [(lit "headers", JNull)])
     = ([(ERROR, Error_extracting_user_info_from_token AttributeError)],
        Ok no_identity)
  /\ get_user_info_from_token (JList [])
     = ([(ERROR, Error_extracting_user_info_from_token AttributeError)],
        Ok no_identity).
Proof.
  split; [|split].
  - exact (proj1 (headers_absent_or_unusable
                    (JDict [(lit "path", JStr (lit "/test/auth"))]))
             [(lit "path", JStr (lit "/test/auth"))] eq_refl eq_refl).
  - refine (proj1 (proj2 (headers_absent_or_unusable (JDict [(lit "headers", JNull)])))
              [(lit "headers", JNull)] JNull eq_refl eq_refl _).
    intros hs. discriminate.
  - refine (proj2 (proj2 (headers_absent_or_unusable _)) _).
    intros d. discriminate.
Defined.

(** ** Groups written as one string *)

Lemma split_pieces_without_separator (sep : Z) (s : str) :
  Forall (fun p => ~ In sep p) (split sep s).
Proof.
  induction s as [|c r IH]; cbn [split].
  - constructor; [intros []|constructor].
  - destruct (Z.eqb_spec c sep) as [->|Hne].
    + constructor; [intros []|exact IH].
    + destruct (split sep r) as [|p ps]; [repeat constructor; intros [E|[]]; lia|].
      inversion IH as [|? ? Hp Hps]; subst. constructor; [|exact Hps].
      intros [E|Hin]; [lia|now apply Hp].
Qed.

Lemma lstrip_suffix (s : str) :
  exists spaces, s = spaces ++ lstrip s
                 /\ match lstrip s with
                    | [] => True
                    | c :: _ => isspace c = false
                    end.
Proof.
  induction s as [|c r (spaces & E & H)]; cbn [lstrip].
  - now exists [].
  - destruct (isspace c) eqn:Hc.
    + exists (c :: spaces). split; [cbn [app]; now rewrite <- E|exact H].
    + exists []. now split.
Qed.

Lemma rstrip_prefix (s : str) :
  exists spaces, s = rstrip s ++ spaces
                 /\ match rstrip s with
                    | [] => True
                    | _ :: _ => isspace (last (rstrip s) 0) = false
                    end.
Proof.
  unfold rstrip. destruct (lstrip_suffix (rev s)) as (spaces & E & H).
  exists (rev spaces). split.
  - rewrite <- rev_app_distr, <- E. now rewrite rev_involutive.
  - destruct (lstrip (rev s)) as [|c t]; [exact I|]. cbn [rev].
    destruct (rev t ++ [c]) eqn:Er; [exact I|]. rewrite <- Er.
    now rewrite last_last.
Qed.

Lemma strip_trimmed (s : str) : trimmed (strip s).
Proof.
  unfold strip, trimmed.
  destruct (lstrip_suffix s) as (_ & _ & Hhead).
  destruct (rstrip_prefix (lstrip s)) as (spaces & E & Hlast).
  destruct (rstrip (lstrip s)) as [|c t] eqn:Er; [exact I|].
  split; [|exact Hlast]. rewrite E in Hhead. exact Hhead.
Qed.

Lemma strip_sublist (s : str) (c : Z) : In c (strip s) -> In c s.
Proof.
  unfold strip. intros Hin.
  destruct (lstrip_suffix s) as (sp1 & E1 & _).
  destruct (rstrip_prefix (lstrip s)) as (sp2 & E2 & _).
  rewrite E1, E2. apply in_or_app. right. apply in_or_app. now left.
Qed.



(** ** Header names *)

Lemma caseless_of_lower (name target : str) :
  ascii_text name -> lower name = target -> lower target = target ->
  caseless_eq name target = true.
Proof.
  revert target. induction name as [|x name IH]; intros [|y target] Ha Hl Ht;
    cbn [lower map caseless_eq] in *; try discriminate; [reflexivity|].
  inversion Ha as [|? ? Hx Ha']; subst.
  injection Hl as Hxy Hl. injection Ht as Hy Ht.
  rewrite (IH target Ha' Hl Ht), andb_true_r.
  unfold lower_char in *. unfold same_letter.
  destruct ((65 <=? x) && (x <=? 90)) eqn:Ex.
  - lia.
  - destruct (x =? 8490) eqn:Ek; [lia|]. lia.
Qed.

(** X11. For a header name in ASCII, as HTTP header names are, the locator
    takes the header for the token header exactly when the name is
    [x-cognito-id-token] up to the case of its letters. *)
Theorem ascii_header_matches (name : str) (value : json) :
  ascii_text name ->
  matches (name, value) = true <-> caseless_eq name token_header = true.
Proof.
  intros Ha. unfold matches. cbn [fst]. rewrite str_eqb_eq. split.
  - intros Hl. now apply caseless_of_lower.
  - intros Hc. now apply lower_caseless.
Qed.

Lemma ascii_header_matches_witness :
  (matches (lit "X-Cognito-ID-Token", JNull) = true
   <-> caseless_eq (lit "X-Cognito-ID-Token") token_header = true)
  /\ (matches (lit "X-Cognito-Id_Token", JNull) = true
      <-> caseless_eq (lit "X-Cognito-Id_Token") token_header = true).
Proof.
  split.
  - apply ascii_header_matches. repeat constructor; lia.
  - apply ascii_header_matches. repeat constructor; lia.
Defined.

(** ** json: the round trip at any indentation *)

Lemma skip_ws_blank (ws text : str) : blank ws -> skip_ws (ws ++ text) = skip_ws text.
Proof.
  induction 1 as [|c ws Hc _ IH]; cbn [app skip_ws]; [reflexivity|].
  now rewrite Hc.
Qed.

Lemma newline_indent_blank (indent : option nat) (level : nat) :
  blank (newline_indent indent level).
Proof.
  destruct indent as [n|]; cbn [newline_indent]; [|constructor].
  constructor; [reflexivity|]. apply Forall_forall. intros c Hc.
  apply repeat_spec in Hc. now subst.
Qed.

Lemma item_separator_shape (indent : option nat) (level : nat) :
  exists ws, item_separator indent level = 44 :: ws /\ blank ws.
Proof.
  destruct indent as [n|]; cbn [item_separator].
  - eexists. split; [reflexivity|apply newline_indent_blank].
  - exists [32]. split; [reflexivity|]. now repeat constructor.
Qed.

Lemma closes_number (rest : str) :
  closes rest = true ->
  match rest with [] => true | c :: _ => negb (digit c) end = true
  /\ scan_frac rest = ([], rest) /\ scan_exp rest = (None, rest).
Proof.
  intros H. destruct rest as [|c r]; [now repeat split|].
  unfold closes, whitespace in H.
  split; [unfold digit; lia|]. split.
  - apply scan_frac_other. lia.
  - unfold scan_exp. destruct (Z.eqb_spec c 101); [lia|].
    destruct (Z.eqb_spec c 69); [lia|]. reflexivity.
Qed.

Lemma match_number_sign (neg : bool) (ds rest : str) (n : Z) :
  numeral ds n -> closes rest = true ->
  match_number ((if neg then [45] else []) ++ ds ++ rest)
  = Ok (JInt (if neg then - n else n), rest).
Proof.
  intros Hn Hc. destruct (closes_number _ Hc) as (Hd & Hf & He).
  destruct (integer_part ds rest n Hn Hd) as (c & r & E & Hdc & Hip).
  unfold match_number. destruct neg; cbn [app].
  - rewrite Z.eqb_refl, E, Hdc, Hip, Hf, He.
    destruct Hn as (_ & _ & <-). reflexivity.
  - rewrite E. destruct (Z.eqb_spec c 45) as [->|_]; [discriminate|].
    rewrite Hdc, Hip, Hf, He. destruct Hn as (_ & _ & <-). reflexivity.
Qed.

Lemma int_repr_sign (n : Z) :
  exists (neg : bool) (m : Z),
    int_repr n = (if neg then [45] else []) ++ nat_repr m
    /\ 0 <= m /\ n = (if neg then - m else m).
Proof.
  unfold int_repr. destruct (Z.ltb_spec n 0).
  - exists true, (- n). repeat split; [lia|lia].
  - exists false, n. now repeat split.
Qed.

Lemma scan_exp_closed (e : Z) (rest : str) :
  closes rest = true -> scan_exp (101 :: int_repr e ++ rest) = (Some e, rest).
Proof.
  intros Hc. destruct (closes_number _ Hc) as (Hd & _ & _).
  destruct (int_repr_sign e) as (neg & m & -> & Hm & ->).
  destruct (nat_repr_numeral m Hm) as [Hn _].
  destruct (numeral_cons _ _ Hn) as (c & r & E & Hdc).
  pose proof (span_digits_app _ _ (numeral_digits _ _ Hn) Hd) as Hs.
  destruct Hn as (_ & _ & Hv).
  unfold scan_exp. cbn [Z.eqb Pos.eqb orb]. destruct neg; cbn [app].
  - rewrite Z.eqb_refl, Hs, Hv, E. reflexivity.
  - rewrite E in *. cbn [app] in *. unfold digit in Hdc.
    destruct (Z.eqb_spec c 45); [lia|]. destruct (Z.eqb_spec c 43); [lia|].
    rewrite Hs, Hv. reflexivity.
Qed.

Lemma match_number_float_closed (neg : bool) (d e : Z) (rest : str) :
  0 <= d -> closes rest = true ->
  match_number (float_repr (FDec neg d e) ++ rest)
  = Ok (JFloat (FDec neg d e), rest).
Proof.
  intros Hd Hc. cbn [float_repr].
  destruct (nat_repr_numeral d Hd) as [Hn _].
  destruct (integer_part (nat_repr d) (101 :: int_repr e ++ rest) d Hn eq_refl)
    as (c & r & E & Hdc & Hip).
  rewrite <- !app_assoc. cbn [app]. unfold match_number.
  destruct neg; cbn [app].
  - rewrite Z.eqb_refl, E, Hdc, Hip, scan_frac_other by lia.
    rewrite (scan_exp_closed _ _ Hc), app_nil_r.
    destruct Hn as (_ & _ & ->). cbn [List.length Z.of_nat].
    now rewrite Z.sub_0_r.
  - rewrite E. destruct (Z.eqb_spec c 45) as [->|_]; [discriminate|].
    rewrite Hdc, Hip, scan_frac_other by lia.
    rewrite (scan_exp_closed _ _ Hc), app_nil_r.
    destruct Hn as (_ & _ & ->). cbn [List.length Z.of_nat].
    now rewrite Z.sub_0_r.
Qed.

Lemma scan_once_int_closed (fuel : nat) (n : Z) (rest : str) :
  closes rest = true ->
  scan_once (S fuel) (int_repr n ++ rest) = Ok (JInt n, rest).
Proof.
  intros Hc. destruct (int_repr_sign n) as (neg & m & E & Hm & ->).
  rewrite E, <- app_assoc.
  rewrite <- (match_number_sign neg (nat_repr m) rest m);
    [|now apply nat_repr_numeral|assumption].
  destruct (nat_repr_cons m Hm) as (c & r & Er & Hdc). rewrite Er.
  destruct neg; cbn [app]; apply scan_once_number.
  - right. split; [reflexivity|]. now exists c, (r ++ rest).
  - now left.
Qed.

Lemma scan_once_float_closed (fuel : nat) (f : pyfloat) (rest : str) :
  wf_json (JFloat f) = true -> closes rest = true ->
  scan_once (S fuel) (float_repr f ++ rest) = Ok (JFloat f, rest).
Proof.
  intros Hwf Hc. destruct f as [| [|] | neg d e]; try reflexivity.
  cbn [wf_json] in Hwf. assert (Hd : 0 <= d) by lia.
  rewrite <- (match_number_float_closed neg d e rest Hd Hc).
  cbn [float_repr].
  destruct (nat_repr_cons d Hd) as (c & r & E & Hdc).
  destruct neg; rewrite E; cbn [app].
  - apply scan_once_number. right. split; [reflexivity|]. eexists _, _.
    split; [reflexivity|assumption].
  - apply scan_once_number. now left.
Qed.

Lemma encode_begins_at (indent : option nat) (v : json) (level : nat) (rest : str) :
  wf_json v = true -> begins_value (encode indent level v ++ rest).
Proof.
  intros Hwf.
  destruct v as [| b | n | f | s | [|x l] | [|[k x] d]];
    try exact (encode_begins _ level rest Hwf);
    eexists _, _; (split; [reflexivity|reflexivity]).
Qed.

Lemma closes_write_rest {A} (write : A -> str) (indent : option nat)
    (level level' : nat) (closing : Z) (l : list A) (rest : str) :
  closing = 93 \/ closing = 125 ->
  closes (write_rest write (item_separator indent level)
            (newline_indent indent level' ++ [closing]) l ++ rest) = true.
Proof.
  intros Hc. destruct l as [|y l]; cbn [write_rest].
  - destruct indent as [n|]; cbn [newline_indent app closes]; [reflexivity|lia].
  - destruct (item_separator_shape indent level) as (ws & -> & _). reflexivity.
Qed.

Lemma skip_ws_closing (indent : option nat) (level : nat) (closing : Z) (rest : str) :
  closing = 93 \/ closing = 125 ->
  skip_ws ((newline_indent indent level ++ [closing]) ++ rest) = closing :: rest.
Proof.
  intros Hc. rewrite <- app_assoc, (skip_ws_blank _ _ (newline_indent_blank _ _)).
  cbn [app skip_ws]. replace (whitespace closing) with false; [reflexivity|].
  unfold whitespace. lia.
Qed.

Lemma array_items_at (indent : option nat) (l : list json) :
  forall x level fuel rest,
    Forall (round_trips_at indent) (x :: l) -> forallb wf_json (x :: l) = true ->
    (items_size (x :: l) <= fuel)%nat -> closes rest = true ->
    JSONArray fuel
      (encode indent (S level) x
       ++ write_rest (encode indent (S level)) (item_separator indent (S level))
            (newline_indent indent level ++ [93]) l ++ rest)
    = Ok (x :: l, rest).
Proof.
  induction l as [|y l IH]; intros x level fuel rest Hrt Hwf Hfuel Hc;
    inversion Hrt as [|? ? Hx Hrt']; subst;
    cbn [forallb] in Hwf; apply andb_prop in Hwf; destruct Hwf as [Hwx Hwl];
    unfold items_size in Hfuel; cbn [fold_right] in Hfuel;
    (destruct fuel as [|fuel]; [lia|]); cbn [JSONArray].
  - rewrite (Hx Hwx) by (try apply closes_write_rest; (lia || auto)).
    cbn [rbind fst snd write_rest]. rewrite skip_ws_closing by now left.
    reflexivity.
  - fold (items_size l) in Hfuel.
    rewrite (Hx Hwx) by (try apply closes_write_rest; (lia || auto)).
    cbn [rbind fst snd write_rest].
    destruct (item_separator_shape indent (S level)) as (ws & Esep & Hws).
    rewrite Esep at 1. cbn [app skip_ws].
    change (whitespace 44) with false. cbv iota.
    change (44 =? 93) with false. change (44 =? 44) with true. cbv iota.
    rewrite <- !app_assoc, (skip_ws_blank _ _ Hws).
    rewrite skip_ws_value
      by (apply encode_begins_at; cbn [forallb] in Hwl; apply andb_prop in Hwl;
          apply Hwl).
    rewrite (IH y level fuel rest Hrt' Hwl); [reflexivity| |assumption].
    unfold items_size. cbn [fold_right]. fold (items_size l). lia.
Qed.

Lemma object_members_at (indent : option nat) (l : list (str * json)) :
  forall k x level fuel rest,
    Forall (fun kv => round_trips_at indent (snd kv)) ((k, x) :: l) ->
    forallb (fun kv => wf_str (fst kv) && wf_json (snd kv)) ((k, x) :: l) = true ->
    (members_size ((k, x) :: l) <= fuel)%nat -> closes rest = true ->
    JSONObject fuel
      (escape k ++ 34 :: lit ": " ++ encode indent (S level) x
       ++ write_rest (write_member_at indent (S level))
            (item_separator indent (S level))
            (newline_indent indent level ++ [125]) l ++ rest)
    = Ok ((k, x) :: l, rest).
Proof.
  induction l as [|[k' y] l IH]; intros k x level fuel rest Hrt Hwf Hfuel Hc;
    inversion Hrt as [|? ? Hx Hrt']; subst; cbn [snd] in Hx;
    cbn [forallb fst snd] in Hwf; apply andb_prop in Hwf; destruct Hwf as [Hwx Hwl];
    apply andb_prop in Hwx; destruct Hwx as [Hwk Hwx];
    unfold members_size in Hfuel; cbn [fold_right snd] in Hfuel;
    (destruct fuel as [|fuel]; [lia|]); cbn [JSONObject];
    rewrite (scanstring_escape k _ Hwk); cbn [rbind fst snd];
    change (lit ": ") with [58; 32]; cbn [app skip_ws];
    change (whitespace 58) with false; cbv iota;
    change (58 =? 58) with true; cbv iota;
    rewrite skip_ws_space_value by (now apply encode_begins_at).
  - rewrite (Hx Hwx) by (try apply closes_write_rest; (lia || auto)).
    cbn [rbind fst snd write_rest]. rewrite skip_ws_closing by now right.
    reflexivity.
  - fold (members_size l) in Hfuel.
    rewrite (Hx Hwx) by (try apply closes_write_rest; (lia || auto)).
    cbn [rbind fst snd write_rest].
    destruct (item_separator_shape indent (S level)) as (ws & Esep & Hws).
    rewrite Esep at 1. cbn [app skip_ws].
    change (whitespace 44) with false. cbv iota.
    change (44 =? 125) with false. change (44 =? 44) with true. cbv iota.
    rewrite <- !app_assoc, (skip_ws_blank _ _ Hws).
    unfold write_member_at at 1. unfold encode_basestring_ascii at 1.
    cbn [fst snd]. rewrite <- !app_assoc. cbn [app skip_ws].
    change (whitespace 34) with false. cbv iota.
    change (34 =? 34) with true. cbv iota.
    rewrite <- (app_assoc (escape k')). cbn [app].
    rewrite (IH k' y level fuel rest Hrt' Hwl); [reflexivity| |assumption].
    unfold members_size. cbn [fold_right snd]. fold (members_size l). lia.
Qed.

(** Every well-formed value is read back from its serialisation, indented
    or not. *)
Lemma scan_once_encode_at (indent : option nat) (v : json) : round_trips_at indent v.
Proof.
  induction v as [| b | n | f | s | l IH | d IH] using json_induction;
    intros Hwf level fuel rest Hfuel Hc;
    (destruct fuel as [|fuel]; [cbn [size] in Hfuel; lia|]).
  - reflexivity.
  - destruct b; reflexivity.
  - now apply scan_once_int_closed.
  - now apply scan_once_float_closed.
  - now apply scan_once_str.
  - destruct l as [|x l]; [reflexivity|].
    cbn [encode app].
    cbn [scan_once]. change (91 =? 34) with false. change (91 =? 123) with false.
    change (91 =? 91) with true. cbv iota.
    cbn [wf_json] in Hwf.
    rewrite <- !app_assoc, (skip_ws_blank _ _ (newline_indent_blank _ _)).
    assert (Hwx : wf_json x = true)
      by (cbn [forallb] in Hwf; apply andb_prop in Hwf; apply Hwf).
    rewrite skip_ws_value by (now apply encode_begins_at).
    destruct (encode_begins_at indent x (S level)
                (write_rest (encode indent (S level))
                   (item_separator indent (S level))
                   (newline_indent indent level ++ [93]) l ++ rest) Hwx)
      as (q & r1 & E & Hq).
    rewrite E. replace (q =? 93) with false by (unfold value_start, digit in Hq; lia).
    rewrite <- E.
    rewrite (array_items_at indent l x level fuel rest IH Hwf); [reflexivity| |assumption].
    cbn [size] in Hfuel. fold (items_size (x :: l)) in Hfuel. lia.
  - destruct d as [|[k x] d]; [reflexivity|].
    cbn [encode app].
    cbn [scan_once]. change (123 =? 34) with false. change (123 =? 123) with true.
    cbv iota.
    rewrite <- !app_assoc, (skip_ws_blank _ _ (newline_indent_blank _ _)).
    unfold encode_basestring_ascii at 1. cbn [app skip_ws].
    change (whitespace 34) with false. cbv iota.
    change (34 =? 125) with false. change (34 =? 34) with true. cbv iota.
    rewrite <- (app_assoc (escape k)). cbn [app].
    cbn [wf_json] in Hwf. apply andb_prop in Hwf. destruct Hwf as [Hu Hwf].
    change (fun kv : str * json =>
              encode_basestring_ascii (fst kv) ++ lit ": "
              ++ encode indent (S level) (snd kv))
      with (write_member_at indent (S level)).
    rewrite (object_members_at indent d k x level fuel rest IH Hwf).
    + cbn [rmap rbind fst snd]. now rewrite (dict_of_pairs_unique _ Hu).
    + cbn [size] in Hfuel. fold (members_size ((k, x) :: d)) in Hfuel. lia.
    + assumption.
Qed.

Lemma write_rest_length_at {A} (write : A -> str) (measure : A -> nat)
    (separator closing : str) (l : list A) :
  (1 <= List.length separator)%nat -> (1 <= List.length closing)%nat ->
  Forall (fun y => (measure y <= List.length (write y))%nat) l ->
  (fold_right (fun y n => S (measure y + n)) O l + 1
   <= List.length (write_rest write separator closing l))%nat.
Proof.
  intros Hs Hc. induction 1 as [|y l Hy _ IH]; cbn [write_rest fold_right].
  - lia.
  - rewrite !length_app. lia.
Qed.

Lemma item_separator_length (indent : option nat) (level : nat) :
  (1 <= List.length (item_separator indent level))%nat.
Proof.
  destruct (item_separator_shape indent level) as (ws & -> & _).
  cbn [List.length]. lia.
Qed.

Lemma closing_length (indent : option nat) (level : nat) (closing : Z) :
  (1 <= List.length (newline_indent indent level ++ [closing]))%nat.
Proof. rewrite length_app. cbn [List.length]. lia. Qed.

Lemma size_le_length_at (indent : option nat) (v : json) :
  wf_json v = true ->
  forall level, (size v <= List.length (encode indent level v))%nat.
Proof.
  induction v as [| b | n | f | s | l IH | d IH] using json_induction;
    intros Hwf level;
    try exact (size_le_length _ Hwf level).
  - destruct l as [|x l]; [cbn; lia|].
    cbn [wf_json forallb] in Hwf. apply andb_prop in Hwf. destruct Hwf as [Hx Hl].
    inversion IH as [|? ? IHx IHl]; subst.
    cbn [size fold_right encode app List.length].
    rewrite !length_app. specialize (IHx Hx (S level)).
    assert (Hrest := write_rest_length_at (encode indent (S level)) size
                       (item_separator indent (S level))
                       (newline_indent indent level ++ [93]) l
                       (item_separator_length _ _) (closing_length _ _ _)).
    cbn beta in Hrest. rewrite Forall_forall in Hrest, IHl.
    rewrite forallb_forall in Hl.
    specialize (Hrest (fun y Hy => IHl y Hy (Hl y Hy) (S level))). lia.
  - destruct d as [|[k x] d]; [cbn; lia|].
    cbn [wf_json] in Hwf. apply andb_prop in Hwf. destruct Hwf as [_ Hwf].
    cbn [forallb fst snd] in Hwf. apply andb_prop in Hwf. destruct Hwf as [Hx Hl].
    apply andb_prop in Hx. destruct Hx as [_ Hx].
    inversion IH as [|? ? IHx IHl]; subst. cbn [snd] in IHx.
    cbn [size fold_right snd encode app List.length].
    rewrite !length_app. specialize (IHx Hx (S level)).
    assert (Hrest := write_rest_length_at
                       (fun kv : str * json =>
                          encode_basestring_ascii (fst kv) ++ lit ": "
                          ++ encode indent (S level) (snd kv))
                       (fun kv => size (snd kv))
                       (item_separator indent (S level))
                       (newline_indent indent level ++ [125]) d
                       (item_separator_length _ _) (closing_length _ _ _)).
    cbn beta in Hrest. rewrite Forall_forall in Hrest, IHl.
    rewrite forallb_forall in Hl.
    assert (Hall : forall kv, In kv d ->
              (size (snd kv)
               <= List.length (encode_basestring_ascii (fst kv) ++ lit ": "
                               ++ encode indent (S level) (snd kv)))%nat).
    { intros kv Hin. specialize (Hl kv Hin). apply andb_prop in Hl.
      rewrite !length_app. specialize (IHl kv Hin (proj2 Hl) (S level)). lia. }
    specialize (Hrest Hall). lia.
Qed.

Lemma json_loads_dumps_at (indent : option nat) (v : json) :
  wf_json v = true -> json_loads (json_dumps indent v) = Ok v.
Proof.
  intros Hwf. unfold json_loads, json_dumps.
  destruct (encode_begins_at indent v 0 [] Hwf) as (c & r & E & Hc).
  rewrite app_nil_r in E.
  assert (Hb : begins_value (encode indent 0 v)) by (rewrite E; now exists c, r).
  rewrite (skip_ws_value _ Hb).
  replace (starts_with [65279] (encode indent 0 v)) with false.
  - rewrite <- (app_nil_r (encode indent 0 v)) at 2.
    rewrite (scan_once_encode_at indent v Hwf 0%nat _ []); [reflexivity| |reflexivity].
    pose proof (size_le_length_at indent v Hwf 0). lia.
  - rewrite E. cbn [starts_with]. unfold value_start, digit in Hc.
    destruct (Z.eqb_spec 65279 c); [lia|reflexivity].
Qed.

(** ** What the decoder returns is well-formed *)

Lemma rmap_Ok {A B} (f : A -> B) (m : result A) (b : B) :
  rmap f m = Ok b -> exists a, m = Ok a /\ b = f a.
Proof. destruct m as [a|e]; cbn; [|discriminate]. intros [= <-]. now exists a. Qed.

Lemma utf8_decode_scalar_bounded (n : nat) :
  forall data s, (List.length data <= n)%nat ->
  utf8_decode data = Ok s -> scalar_text s.
Proof.
  unfold scalar_text.
  induction n as [|n IH]; intros data s Hlen H.
  - destruct data; [|cbn in Hlen; lia]. cbn in H. now injection H as <-.
  - destruct data as [|b0 r0]; [cbn in H; now injection H as <-|].
    cbn [utf8_decode] in H. cbn [List.length] in Hlen.
    destruct ((0 <=? b0) && (b0 <? 128)) eqn:E1.
    { apply rmap_Ok in H. destruct H as (t & Ht & ->).
      cbn [forallb]. rewrite (IH r0 t) by (lia || assumption).
      unfold scalar, code_point, surrogate. lia. }
    destruct ((194 <=? b0) && (b0 <? 224)) eqn:E2.
    { destruct r0 as [|b1 r1]; [discriminate|]. cbn [List.length] in Hlen.
      destruct (continuation b1) eqn:C1; [|discriminate].
      apply rmap_Ok in H. destruct H as (t & Ht & ->).
      cbn [forallb]. rewrite (IH r1 t) by (lia || assumption).
      unfold continuation in C1. unfold scalar, code_point, surrogate. lia. }
    destruct ((224 <=? b0) && (b0 <? 240)) eqn:E3.
    { destruct r0 as [|b1 [|b2 r2]]; try discriminate. cbn [List.length] in Hlen.
      destruct (continuation b1 && continuation b2
                && (negb (b0 =? 224) || (160 <=? b1))
                && (negb (b0 =? 237) || (b1 <? 160))) eqn:C; [|discriminate].
      apply rmap_Ok in H. destruct H as (t & Ht & ->).
      cbn [forallb]. rewrite (IH r2 t) by (lia || assumption).
      unfold continuation in C. unfold scalar, code_point, surrogate. lia. }
    destruct ((240 <=? b0) && (b0 <? 245)) eqn:E4; [|discriminate].
    destruct r0 as [|b1 [|b2 [|b3 r3]]]; try discriminate. cbn [List.length] in Hlen.
    destruct (continuation b1 && continuation b2 && continuation b3
              && (negb (b0 =? 240) || (144 <=? b1))
              && (negb (b0 =? 244) || (b1 <? 144))) eqn:C; [|discriminate].
    apply rmap_Ok in H. destruct H as (t & Ht & ->).
    cbn [forallb]. rewrite (IH r3 t) by (lia || assumption).
    unfold continuation in C. unfold scalar, code_point, surrogate. lia.
Qed.

Lemma utf8_decode_scalar (data : bytes) (s : str) :
  utf8_decode data = Ok s -> scalar_text s.
Proof. now apply (utf8_decode_scalar_bounded (List.length data)). Qed.

Lemma push_Ok {A} (c : Z) (m : result (str * A)) (x : str) (rest : A) :
  push c m = Ok (x, rest) -> exists x', m = Ok (x', rest) /\ x = c :: x'.
Proof.
  unfold push. intros H. apply rmap_Ok in H. destruct H as ([x' r] & -> & E).
  cbn [fst snd] in E. injection E as -> ->. now exists x'.
Qed.

Ltac plain_escape H Hd :=
  let x' := fresh "x'" in
  let H1 := fresh "H1" in
  let H2 := fresh "H2" in
  apply push_Ok in H; destruct H as (x' & H1 & H2);
  exists x'; split; [reflexivity|]; split; [exact Hd|];
  left; split; [exact H1|]; split; [exact H2|].

(** One step of [scanstring], read backwards from its result. *)
Lemma scanstring_inv (t x rest : str) :
  scanstring t = Ok (x, rest) ->
  (exists r, t = 34 :: r /\ x = [] /\ rest = r)
  \/ (exists c r x', t = c :: r /\ c <> 34 /\ c <> 92 /\ 31 < c
                     /\ scanstring r = Ok (x', rest) /\ x = c :: x')
  \/ (exists esc ch r x', t = 92 :: esc :: r /\ BACKSLASH esc = Some ch
                          /\ scanstring r = Ok (x', rest) /\ x = ch :: x')
  \/ (exists h1 h2 h3 h4 uni r2 x',
        t = 92 :: 117 :: h1 :: h2 :: h3 :: h4 :: r2
        /\ decode_uXXXX h1 h2 h3 h4 = Some uni
        /\ ((scanstring r2 = Ok (x', rest) /\ x = uni :: x'
             /\ (high_surrogate uni = true -> not_low_escape r2))
            \/ (exists g1 g2 g3 g4 uni2 r3,
                  r2 = 92 :: 117 :: g1 :: g2 :: g3 :: g4 :: r3
                  /\ high_surrogate uni = true
                  /\ decode_uXXXX g1 g2 g3 g4 = Some uni2
                  /\ low_surrogate uni2 = true
                  /\ scanstring r3 = Ok (x', rest)
                  /\ x = join_surrogates uni uni2 :: x'))).
Proof.
  destruct t as [|c r]; [discriminate|]. cbn [scanstring].
  destruct (Z.eqb_spec c 34) as [->|Hq].
  { intros [= <- <-]. left. now exists r. }
  destruct (Z.eqb_spec c 92) as [->|Hb].
  - destruct r as [|esc r1]; [discriminate|].
    destruct (Z.eqb_spec esc 117) as [->|He].
    + destruct r1 as [|h1 [|h2 [|h3 [|h4 r2]]]]; try discriminate.
      destruct (decode_uXXXX h1 h2 h3 h4) as [uni|] eqn:Hd; [|discriminate].
      intros H. right. right. right.
      exists h1, h2, h3, h4, uni, r2.
      destruct r2 as [|b [|u [|g1 [|g2 [|g3 [|g4 r3]]]]]];
        try (plain_escape H Hd; intros _ ? ? ? ? ? ? E; discriminate).
      destruct (high_surrogate uni && (b =? 92) && (u =? 117)) eqn:Hc.
      * apply andb_prop in Hc. destruct Hc as [Hc Hu].
        apply andb_prop in Hc. destruct Hc as [Hh Hbb].
        apply Z.eqb_eq in Hu. apply Z.eqb_eq in Hbb. subst b u.
        destruct (decode_uXXXX g1 g2 g3 g4) as [uni2|] eqn:Hd2; [|discriminate].
        destruct (low_surrogate uni2) eqn:Hl.
        -- apply push_Ok in H. destruct H as (x' & H1 & H2).
           exists x'. split; [reflexivity|]. split; [assumption|]. right.
           exists g1, g2, g3, g4, uni2, r3. now repeat split.
        -- plain_escape H Hd. intros _ ? ? ? ? ? ? E Hd3.
           injection E as <- <- <- <- _. congruence.
      * plain_escape H Hd. intros Hh ? ? ? ? ? ? E _.
        injection E as -> -> _ _ _ _ _. rewrite Hh in Hc. discriminate.
    + destruct (BACKSLASH esc) as [ch|] eqn:Hbs; [|discriminate].
      intros H. apply push_Ok in H. destruct H as (x' & H1 & H2).
      right. right. left. now exists esc, ch, r1, x'.
  - destruct (Z.leb_spec c 31) as [|Hc]; [discriminate|].
    intros H. apply push_Ok in H. destruct H as (x' & H1 & H2).
    right. left. exists c, r, x'. now repeat split.
Qed.
Lemma scalar_text_cons (c : Z) (s : str) :
  scalar_text (c :: s) <-> scalar c = true /\ scalar_text s.
Proof. unfold scalar_text. cbn [forallb]. apply andb_true_iff. Qed.

Lemma scalar_text_app (a b : str) : scalar_text (a ++ b) -> scalar_text b.
Proof.
  unfold scalar_text. rewrite forallb_app. intros H.
  apply andb_prop in H. apply H.
Qed.

Lemma scalar_text_suffix (rest text : str) :
  suffix rest text -> scalar_text text -> scalar_text rest.
Proof. intros (read & ->). apply scalar_text_app. Qed.

Lemma scalar_text_skipn (n : nat) (s : str) : scalar_text s -> scalar_text (skipn n s).
Proof.
  intros H. rewrite <- (firstn_skipn n s) in H. exact (scalar_text_app _ _ H).
Qed.

Lemma scalar_text_skip_ws (s : str) : scalar_text s -> scalar_text (skip_ws s).
Proof.
  induction s as [|c r IH]; cbn [skip_ws]; [easy|]. intros H.
  destruct (whitespace c); [|exact H]. apply IH. now apply scalar_text_cons in H.
Qed.

Lemma hex_value_range (c v : Z) : hex_value c = Some v -> 0 <= v < 16.
Proof.
  unfold hex_value.
  destruct ((48 <=? c) && (c <=? 57)) eqn:E1; [intros [= <-]; lia|].
  destruct ((97 <=? c) && (c <=? 102)) eqn:E2; [intros [= <-]; lia|].
  destruct ((65 <=? c) && (c <=? 70)) eqn:E3; [intros [= <-]; lia|discriminate].
Qed.

Lemma decode_uXXXX_range (h1 h2 h3 h4 u : Z) :
  decode_uXXXX h1 h2 h3 h4 = Some u -> 0 <= u < 65536.
Proof.
  unfold decode_uXXXX.
  destruct (hex_value h1) as [a|] eqn:E1; [|discriminate].
  destruct (hex_value h2) as [b|] eqn:E2; [|discriminate].
  destruct (hex_value h3) as [c|] eqn:E3; [|discriminate].
  destruct (hex_value h4) as [d|] eqn:E4; [|discriminate].
  intros [= <-].
  apply hex_value_range in E1. apply hex_value_range in E2.
  apply hex_value_range in E3. apply hex_value_range in E4. lia.
Qed.

Lemma BACKSLASH_range (esc ch : Z) : BACKSLASH esc = Some ch -> 0 <= ch < 128.
Proof.
  unfold BACKSLASH.
  destruct ((esc =? 34) || (esc =? 92) || (esc =? 47)) eqn:E; [intros [= <-]; lia|].
  repeat match goal with
         | |- (if ?c then _ else _) = _ -> _ => destruct c
         end; try discriminate; intros [= <-]; lia.
Qed.

Lemma wf_str_cons (c : Z) (x : str) :
  code_point c = true ->
  (high_surrogate c = true ->
   match x with b :: _ => low_surrogate b = false | [] => True end) ->
  wf_str x = true -> wf_str (c :: x) = true.
Proof.
  unfold wf_str. cbn [forallb no_split_pair]. intros Hc Hh Hx.
  apply andb_prop in Hx. destruct Hx as [Hf Hn]. rewrite Hc, Hf, Hn. cbn [andb].
  rewrite andb_true_r. destruct x as [|b x']; [reflexivity|].
  destruct (high_surrogate c); [|reflexivity]. now rewrite Hh.
Qed.

(** The first character of a string the scanner read is no low surrogate
    when the text did not begin with the escape of one. *)
Lemma scanstring_head (t : str) (c : Z) (x rest : str) :
  scalar_text t -> not_low_escape t ->
  scanstring t = Ok (c :: x, rest) -> low_surrogate c = false.
Proof.
  intros Hs Hn H. apply scanstring_inv in H.
  destruct H as [(r & _ & E & _)
                |[(c0 & r & x' & -> & _ & _ & _ & _ & E)
                 |[(esc & ch & r & x' & _ & Hb & _ & E)
                  |(h1 & h2 & h3 & h4 & uni & r2 & x' & -> & Hd
                    & [(_ & E & _)
                      |(g1 & g2 & g3 & g4 & uni2 & r3 & _ & Hh & Hd2 & Hl & _ & E)])]]].
  - discriminate.
  - injection E as -> _. apply scalar_text_cons in Hs. destruct Hs as [Hs _].
    unfold scalar, code_point, surrogate in Hs. unfold low_surrogate. lia.
  - injection E as -> _. apply BACKSLASH_range in Hb. unfold low_surrogate. lia.
  - injection E as -> _. exact (Hn _ _ _ _ _ _ eq_refl Hd).
  - injection E as -> _. unfold high_surrogate in Hh. unfold low_surrogate in Hl.
    unfold join_surrogates, low_surrogate. lia.
Qed.

Lemma scanstring_wf_bounded (n : nat) :
  forall t x rest, (List.length t <= n)%nat -> scalar_text t ->
  scanstring t = Ok (x, rest) -> wf_str x = true /\ scalar_text rest.
Proof.
  induction n as [|n IH]; intros t x rest Hlen Hs H.
  - destruct t; [discriminate|cbn in Hlen; lia].
  - apply scanstring_inv in H.
    destruct H as [(r & -> & -> & ->)
                  |[(c0 & r & x' & -> & _ & _ & _ & H & ->)
                   |[(esc & ch & r & x' & -> & Hb & H & ->)
                    |(h1 & h2 & h3 & h4 & uni & r2 & x' & -> & Hd
                      & [(H & -> & Hnl)
                        |(g1 & g2 & g3 & g4 & uni2 & r3 & -> & Hh & Hd2 & Hl & H & ->)])]]].
    + split; [reflexivity|]. now apply scalar_text_cons in Hs.
    + apply scalar_text_cons in Hs. destruct Hs as [Hc Hs].
      cbn [List.length] in Hlen.
      destruct (IH r x' rest ltac:(lia) Hs H) as [Hx Hr]. split; [|exact Hr].
      unfold scalar, code_point, surrogate in Hc.
      apply wf_str_cons; [unfold code_point; lia| |exact Hx].
      unfold high_surrogate. intros Hh. lia.
    + apply (scalar_text_app [92; esc]) in Hs. cbn [List.length] in Hlen.
      destruct (IH r x' rest ltac:(lia) Hs H) as [Hx Hr]. split; [|exact Hr].
      apply BACKSLASH_range in Hb.
      apply wf_str_cons; [unfold code_point; lia| |exact Hx].
      unfold high_surrogate. intros Hh. lia.
    + apply (scalar_text_app [92; 117; h1; h2; h3; h4]) in Hs.
      cbn [List.length] in Hlen.
      destruct (IH r2 x' rest ltac:(lia) Hs H) as [Hx Hr]. split; [|exact Hr].
      pose proof (decode_uXXXX_range _ _ _ _ _ Hd) as Hu.
      apply wf_str_cons; [unfold code_point; lia| |exact Hx].
      intros Hh. destruct x' as [|b x'']; [exact I|].
      exact (scanstring_head _ _ _ _ Hs (Hnl Hh) H).
    + apply (scalar_text_app [92; 117; h1; h2; h3; h4; 92; 117; g1; g2; g3; g4]) in Hs.
      cbn [List.length] in Hlen.
      destruct (IH r3 x' rest ltac:(lia) Hs H) as [Hx Hr]. split; [|exact Hr].
      unfold high_surrogate in Hh. unfold low_surrogate in Hl.
      apply wf_str_cons; [unfold join_surrogates, code_point; lia| |exact Hx].
      unfold join_surrogates, high_surrogate. intros Hh'. lia.
Qed.

(** A string read from text that holds no surrogate is well-formed. *)
Lemma scanstring_wf (t x rest : str) :
  scalar_text t -> scanstring t = Ok (x, rest) ->
  wf_str x = true /\ scalar_text rest.
Proof. now apply (scanstring_wf_bounded (List.length t)). Qed.

(** *** Numbers *)

Lemma suffix_refl (s : str) : suffix s s.
Proof. now exists []. Qed.

Lemma suffix_app (a s : str) : suffix s (a ++ s).
Proof. now exists a. Qed.

Lemma suffix_trans (a b c : str) : suffix a b -> suffix b c -> suffix a c.
Proof. intros (x & ->) (y & ->). exists (y ++ x). now rewrite app_assoc. Qed.

Lemma span_digits_spec (s : str) :
  forall ds r, span_digits s = (ds, r) -> s = ds ++ r /\ forallb digit ds = true.
Proof.
  induction s as [|c s IH]; cbn [span_digits]; intros ds r H.
  - injection H as <- <-. now split.
  - destruct (digit c) eqn:D.
    + destruct (span_digits s) as [ds' r'] eqn:E. injection H as <- <-.
      destruct (IH _ _ eq_refl) as [-> Hf]. split; [reflexivity|].
      cbn [forallb]. now rewrite D.
    + injection H as <- <-. now split.
Qed.

Lemma int_of_digits_nonneg (ds : str) :
  forallb digit ds = true -> 0 <= int_of_digits ds.
Proof.
  unfold int_of_digits.
  assert (G : forall a, 0 <= a -> forallb digit ds = true ->
                        0 <= fold_left (fun a d => 10 * a + (d - 48)) ds a).
  { induction ds as [|d ds IH]; intros a Ha Hd; cbn [fold_left]; [exact Ha|].
    cbn [forallb] in Hd. apply andb_prop in Hd. destruct Hd as [Hd Hds].
    apply IH; [|exact Hds]. unfold digit in Hd. lia. }
  intros H. now apply G.
Qed.

Lemma scan_frac_spec (s frac r : str) :
  scan_frac s = (frac, r) -> suffix r s /\ forallb digit frac = true.
Proof.
  unfold scan_frac.
  destruct s as [|p [|d r0]];
    try (intros [= <- <-]; split; [apply suffix_refl|reflexivity]).
  destruct ((p =? 46) && digit d) eqn:C;
    [|intros [= <- <-]; split; [apply suffix_refl|reflexivity]].
  destruct (span_digits r0) as [ds r'] eqn:E. intros [= <- <-].
  destruct (span_digits_spec _ _ _ E) as [-> Hd]. split.
  - exists (p :: d :: ds). reflexivity.
  - cbn [forallb]. apply andb_prop in C. destruct C as [_ ->]. exact Hd.
Qed.

Lemma scan_exp_spec (s : str) : suffix (snd (scan_exp s)) s.
Proof.
  unfold scan_exp. destruct s as [|e r]; [apply suffix_refl|].
  destruct ((e =? 101) || (e =? 69)); [|apply suffix_refl].
  assert (Hs : exists neg r1,
    match r with
    | sg :: t => if sg =? 45 then (true, t) else if sg =? 43 then (false, t)
                 else (false, r)
    | [] => (false, r)
    end = (neg, r1) /\ suffix r1 r).
  { destruct r as [|sg t]; [exists false, []; split; [reflexivity|apply suffix_refl]|].
    destruct (sg =? 45); [exists true, t; split; [reflexivity|now exists [sg]]|].
    destruct (sg =? 43); [exists false, t; split; [reflexivity|now exists [sg]]|].
    exists false, (sg :: t). split; [reflexivity|apply suffix_refl]. }
  destruct Hs as (neg & r1 & -> & Hs).
  destruct (span_digits r1) as [ds r2] eqn:E.
  destruct (span_digits_spec _ _ _ E) as [-> _].
  destruct ds as [|d ds]; cbn [snd]; [apply suffix_refl|].
  apply (suffix_trans _ ((d :: ds) ++ r2)); [apply suffix_app|].
  apply (suffix_trans _ r); [exact Hs|now exists [e]].
Qed.

(** A number the scanner read is an [int], or a [float] whose significand
    carries no sign. *)
Lemma match_number_wf (s : str) (v : json) (rest : str) :
  match_number s = Ok (v, rest) -> wf_json v = true /\ suffix rest s.
Proof.
  assert (Tail : forall (neg : bool) (c : Z) (r : str),
    (if digit c then
       let '(ip, r1) := if c =? 48 then ([c], r)
                        else let (ds, r') := span_digits r in (c :: ds, r') in
       let '(frac, r2) := scan_frac r1 in
       let '(ex, r3) := scan_exp r2 in
       match frac, ex with
       | [], None =>
           Ok (JInt (if neg then - int_of_digits ip else int_of_digits ip), r3)
       | _, _ =>
           Ok (JFloat (FDec neg (int_of_digits (ip ++ frac))
                            (match ex with Some e => e | None => 0 end
                             - Z.of_nat (List.length frac))), r3)
       end
     else Raise JSONDecodeError) = Ok (v, rest) ->
    wf_json v = true /\ suffix rest (c :: r)).
  { intros neg c r. destruct (digit c) eqn:Dc; [|discriminate].
    assert (Hip : exists ip r1,
      (if c =? 48 then ([c], r)
       else let (ds, r') := span_digits r in (c :: ds, r')) = (ip, r1)
      /\ forallb digit ip = true /\ suffix r1 (c :: r)).
    { destruct (c =? 48).
      - exists [c], r. cbn [forallb]. rewrite Dc. repeat split. now exists [c].
      - destruct (span_digits r) as [ds r'] eqn:E.
        destruct (span_digits_spec _ _ _ E) as [-> Hd].
        exists (c :: ds), r'. cbn [forallb]. rewrite Dc, Hd. repeat split.
        now exists (c :: ds). }
    destruct Hip as (ip & r1 & -> & Hd & Hs1).
    destruct (scan_frac r1) as [frac r2] eqn:Ef.
    destruct (scan_frac_spec _ _ _ Ef) as [Hs2 Hf].
    pose proof (scan_exp_spec r2) as Hs3.
    destruct (scan_exp r2) as [ex r3]. cbn [snd] in Hs3.
    assert (Hs : suffix r3 (c :: r))
      by (eapply suffix_trans; [exact Hs3|]; eapply suffix_trans; eassumption).
    assert (Hn : 0 <= int_of_digits (ip ++ frac))
      by (apply int_of_digits_nonneg; rewrite forallb_app, Hd, Hf; reflexivity).
    destruct frac as [|f frac], ex as [e|]; intros [= <- <-];
      (split; [cbn [wf_json]; try reflexivity; lia|exact Hs]). }
  unfold match_number. destruct s as [|c0 r0]; [discriminate|].
  destruct (c0 =? 45).
  - destruct r0 as [|c r]; [discriminate|]. intros H.
    destruct (Tail true c r H) as [Hw Hs]. split; [exact Hw|].
    apply (suffix_trans _ _ _ Hs). now exists [c0].
  - exact (Tail false c0 r0).
Qed.

(** *** Objects *)

Lemma dict_set_keys (d : dict) (k : str) (v : json) (k0 : str) :
  existsb (fun kv => str_eqb k0 (fst kv)) (dict_set d k v)
  = existsb (fun kv => str_eqb k0 (fst kv)) d || str_eqb k0 k.
Proof.
  induction d as [|[k' v'] d IH]; cbn [dict_set existsb fst].
  - apply orb_false_r.
  - destruct (str_eqb k k') eqn:E; cbn [existsb fst].
    + apply str_eqb_eq in E. subst k'.
      destruct (str_eqb k0 k); cbn [orb]; [reflexivity|now rewrite orb_false_r].
    + rewrite IH. apply orb_assoc.
Qed.

Lemma dict_set_wf (d : dict) (k : str) (v : json) :
  unique_keys d = true -> forallb wf_member d = true ->
  wf_member (k, v) = true ->
  unique_keys (dict_set d k v) = true /\ forallb wf_member (dict_set d k v) = true.
Proof.
  intros Hu Hw Hkv. induction d as [|[k' v'] d IH]; cbn [dict_set].
  - cbn [unique_keys forallb existsb]. now rewrite Hkv.
  - cbn [unique_keys forallb] in Hu, Hw.
    apply andb_prop in Hu. destruct Hu as [Hk' Hu].
    apply andb_prop in Hw. destruct Hw as [Hw' Hw].
    destruct (str_eqb k k') eqn:E; cbn [unique_keys forallb].
    + rewrite Hk', Hu, Hw. apply str_eqb_eq in E. subst k'.
      unfold wf_member in *. cbn [fst snd] in *.
      apply andb_prop in Hkv. destruct Hkv as [-> ->]. now split.
    + destruct (IH Hu Hw) as [Hu' Hw2]. rewrite Hu', Hw', Hw2, dict_set_keys.
      apply negb_true_iff in Hk'. rewrite Hk'.
      replace (str_eqb k' k) with false; [now split|].
      symmetry. apply str_eqb_neq. apply str_eqb_neq in E. congruence.
Qed.

Lemma dict_of_pairs_wf (m : list (str * json)) :
  forallb wf_member m = true -> wf_json (JDict (dict_of_pairs m)) = true.
Proof.
  intros Hm.
  assert (G : forall acc, unique_keys acc = true -> forallb wf_member acc = true ->
    unique_keys (fold_left (fun d kv => dict_set d (fst kv) (snd kv)) m acc) = true
    /\ forallb wf_member
         (fold_left (fun d kv => dict_set d (fst kv) (snd kv)) m acc) = true).
  { induction m as [|[k v] m IH]; intros acc Hu Hw; cbn [fold_left fst snd];
      [now split|].
    cbn [forallb] in Hm. apply andb_prop in Hm. destruct Hm as [Hkv Hm].
    destruct (dict_set_wf acc k v Hu Hw Hkv) as [Hu' Hw'].
    now apply IH. }
  destruct (G [] eq_refl eq_refl) as [Hu Hw].
  cbn [wf_json]. fold (dict_of_pairs m) in Hu, Hw. rewrite Hu. exact Hw.
Qed.

(** *** Values *)

Lemma scan_wf (fuel : nat) :
  (forall s v rest, scalar_text s -> scan_once fuel s = Ok (v, rest) ->
     wf_json v = true /\ scalar_text rest)
  /\ (forall s l rest, scalar_text s -> JSONArray fuel s = Ok (l, rest) ->
        forallb wf_json l = true /\ scalar_text rest)
  /\ (forall s m rest, scalar_text s -> JSONObject fuel s = Ok (m, rest) ->
        forallb wf_member m = true /\ scalar_text rest).
Proof.
  induction fuel as [|fuel (IHv & IHa & IHo)];
    [repeat split; discriminate|].
  split; [|split].
  - intros s v rest Hs. cbn [scan_once]. destruct s as [|c r]; [discriminate|].
    assert (Hr : scalar_text r) by (now apply scalar_text_cons in Hs).
    destruct (c =? 34).
    { intros H. apply rmap_Ok in H. destruct H as ([x r'] & H & E).
      cbn [fst snd] in E. injection E as -> ->.
      exact (scanstring_wf _ _ _ Hr H). }
    destruct (c =? 123).
    { pose proof (scalar_text_skip_ws _ Hr) as Hw.
      destruct (skip_ws r) as [|q r1]; [discriminate|].
      apply scalar_text_cons in Hw. destruct Hw as [_ Hw].
      destruct (q =? 125); [intros [= <- <-]; now split|].
      destruct (q =? 34); [|discriminate].
      intros H. apply rmap_Ok in H. destruct H as ([m r'] & H & E).
      cbn [fst snd] in E. injection E as -> ->.
      destruct (IHo _ _ _ Hw H) as [Hm Hrest]. split; [|exact Hrest].
      now apply dict_of_pairs_wf. }
    destruct (c =? 91).
    { pose proof (scalar_text_skip_ws _ Hr) as Hw.
      destruct (skip_ws r) as [|q r1]; [discriminate|].
      destruct (q =? 93).
      { intros [= <- <-]. split; [reflexivity|]. now apply scalar_text_cons in Hw. }
      intros H. apply rmap_Ok in H. destruct H as ([l r'] & H & E).
      cbn [fst snd] in E. injection E as -> ->.
      exact (IHa _ _ _ Hw H). }
    repeat match goal with
           | |- (if ?b then _ else _) = _ -> _ =>
               destruct b;
               [intros [= <- <-]; split;
                [reflexivity
                |first [exact (scalar_text_skipn 3 _ Hs)
                       |exact (scalar_text_skipn 4 _ Hs)
                       |exact (scalar_text_skipn 5 _ Hs)
                       |exact (scalar_text_skipn 8 _ Hs)
                       |exact (scalar_text_skipn 9 _ Hs)]]|]
           end.
    intros H. apply match_number_wf in H. destruct H as [Hv Hsuf].
    split; [exact Hv|exact (scalar_text_suffix _ _ Hsuf Hs)].
  - intros s l rest Hs. cbn [JSONArray].
    destruct (scan_once fuel s) as [[x r]|e] eqn:Ex; [|discriminate].
    destruct (IHv _ _ _ Hs Ex) as [Hx Hr]. cbn [rbind fst snd].
    pose proof (scalar_text_skip_ws _ Hr) as Hw.
    destruct (skip_ws r) as [|c r1]; [discriminate|].
    apply scalar_text_cons in Hw. destruct Hw as [_ Hw].
    destruct (c =? 93).
    { intros [= <- <-]. cbn [forallb]. rewrite Hx. now split. }
    destruct (c =? 44); [|discriminate].
    intros H. apply rmap_Ok in H. destruct H as ([l' r'] & H & E).
    cbn [fst snd] in E. injection E as -> ->.
    destruct (IHa _ _ _ (scalar_text_skip_ws _ Hw) H) as [Hl Hrest].
    cbn [forallb]. rewrite Hx, Hl. now split.
  - intros s m rest Hs. cbn [JSONObject].
    destruct (scanstring s) as [[k r]|e] eqn:Ek; [|discriminate].
    destruct (scanstring_wf _ _ _ Hs Ek) as [Hk Hr]. cbn [rbind fst snd].
    pose proof (scalar_text_skip_ws _ Hr) as Hw.
    destruct (skip_ws r) as [|c r1]; [discriminate|].
    apply scalar_text_cons in Hw. destruct Hw as [_ Hw].
    destruct (c =? 58); [|discriminate].
    destruct (scan_once fuel (skip_ws r1)) as [[x r2]|e] eqn:Ex; [|discriminate].
    destruct (IHv _ _ _ (scalar_text_skip_ws _ Hw) Ex) as [Hx Hr2].
    cbn [rbind fst snd].
    pose proof (scalar_text_skip_ws _ Hr2) as Hw2.
    destruct (skip_ws r2) as [|d r3]; [discriminate|].
    apply scalar_text_cons in Hw2. destruct Hw2 as [_ Hw2].
    destruct (d =? 125).
    { intros [= <- <-]. cbn [forallb]. unfold wf_member at 1. cbn [fst snd].
      rewrite Hk, Hx. now split. }
    destruct (d =? 44); [|discriminate].
    pose proof (scalar_text_skip_ws _ Hw2) as Hw3.
    destruct (skip_ws r3) as [|q r4]; [discriminate|].
    apply scalar_text_cons in Hw3. destruct Hw3 as [_ Hw3].
    destruct (q =? 34); [|discriminate].
    intros H. apply rmap_Ok in H. destruct H as ([m' r'] & H & E).
    cbn [fst snd] in E. injection E as -> ->.
    destruct (IHo _ _ _ Hw3 H) as [Hm Hrest].
    cbn [forallb]. unfold wf_member at 1. cbn [fst snd].
    rewrite Hk, Hx, Hm. now split.
Qed.

(** Whatever [json.loads] reads from text that holds no surrogate is
    well-formed. *)
Lemma json_loads_wf (s : str) (v : json) :
  scalar_text s -> json_loads s = Ok v -> wf_json v = true.
Proof.
  intros Hs. unfold json_loads. destruct (starts_with [65279] s); [discriminate|].
  destruct (scan_once (S (List.length s)) (skip_ws s)) as [[x r]|e] eqn:E;
    [|discriminate].
  cbn [rbind fst snd]. destruct (skip_ws r); [|discriminate]. intros [= <-].
  exact (proj1 (proj1 (scan_wf _) _ _ _ (scalar_text_skip_ws _ Hs) E)).
Qed.

(** *** The decoder *)

Lemma decode_segment_wf (padded : str) (v : json) :
  decode_segment padded = Ok v -> wf_json v = true.
Proof.
  unfold decode_segment.
  destruct (urlsafe_b64decode padded) as [b|]; [|discriminate]. cbn [rbind].
  destruct (utf8_decode b) as [t|] eqn:E; [|discriminate]. cbn [rbind].
  apply json_loads_wf. exact (utf8_decode_scalar _ _ E).
Qed.

(** Whatever the decoder returns is well-formed. *)
Lemma decode_jwt_payload_wf (token : json) (w : list record) (v : json) :
  decode_jwt_payload token = (w, Ok v) -> wf_json v = true.
Proof.
  destruct token as [| | | |s| |];
    try (rewrite decode_not_a_str by discriminate; intros [= _ <-]; reflexivity).
  destruct (Nat.eq_dec (List.length (split 46 s)) 3) as [E|E].
  - destruct (split 46 s) as [|h [|p [|sg [|]]]] eqn:Es; try discriminate.
    rewrite (decode_three_segments _ _ _ _ Es).
    destruct (decode_segment _) as [x|e] eqn:D; cbn [try_except lift].
    + intros [= _ <-]. exact (decode_segment_wf _ _ D).
    + intros [= _ <-]. reflexivity.
  - rewrite (decode_wrong_segment_count _ E). intros [= _ <-]. reflexivity.
Qed.

(** *** What the handler reads and builds *)

Lemma wf_members (d : dict) : wf_json (JDict d) = true -> forallb wf_member d = true.
Proof. cbn [wf_json]. intros H. apply andb_prop in H. apply H. Qed.

Lemma lookup_wf (d : dict) (k : str) :
  forallb wf_member d = true ->
  wf_json (match lookup k d with Some v => v | None => JNull end) = true.
Proof.
  induction d as [|[k' v'] d IH]; cbn [lookup forallb]; [reflexivity|].
  intros H. apply andb_prop in H. destruct H as [Hm Hd].
  destruct (str_eqb k k'); [|now apply IH].
  unfold wf_member in Hm. cbn [fst snd] in Hm. apply andb_prop in Hm. apply Hm.
Qed.

Lemma wf_str_tail (c : Z) (s : str) : wf_str (c :: s) = true -> wf_str s = true.
Proof.
  unfold wf_str. cbn [forallb no_split_pair]. intros H.
  apply andb_prop in H. destruct H as [H1 H2].
  apply andb_prop in H1. apply andb_prop in H2.
  destruct H1 as [_ ->]. destruct H2 as [_ ->]. reflexivity.
Qed.

Lemma wf_str_app_r (a b : str) : wf_str (a ++ b) = true -> wf_str b = true.
Proof.
  induction a as [|x a IH]; cbn [app]; [easy|].
  intros H. apply IH. exact (wf_str_tail _ _ H).
Qed.

Lemma wf_str_app_l (a b : str) : wf_str (a ++ b) = true -> wf_str a = true.
Proof.
  induction a as [|x a IH]; [reflexivity|]. cbn [app]. intros H.
  pose proof (IH (wf_str_tail _ _ H)) as Ht.
  unfold wf_str in H. cbn [forallb no_split_pair] in H.
  apply andb_prop in H. destruct H as [H1 H2].
  apply andb_prop in H1. destruct H1 as [Hx _].
  apply andb_prop in H2. destruct H2 as [H2 _].
  apply wf_str_cons; [exact Hx| |exact Ht].
  intros Hh. destruct a as [|y a']; [exact I|]. cbn [app] in H2.
  rewrite Hh in H2. now destruct (low_surrogate y).
Qed.

Lemma strip_wf (s : str) : wf_str s = true -> wf_str (strip s) = true.
Proof.
  unfold strip. intros H.
  destruct (lstrip_suffix s) as (sp1 & E1 & _).
  destruct (rstrip_prefix (lstrip s)) as (sp2 & E2 & _).
  rewrite E1 in H. apply wf_str_app_r in H. rewrite E2 in H.
  exact (wf_str_app_l _ _ H).
Qed.

Lemma split_head_prefix (sep : Z) (s : str) :
  exists p ps t, split sep s = p :: ps /\ s = p ++ t.
Proof.
  induction s as [|c r (p & ps & t & E & Er)]; cbn [split].
  - now exists [], [], [].
  - destruct (c =? sep); [now exists [], (split sep r), (c :: r)|].
    rewrite E. exists (c :: p), ps, t. split; [reflexivity|].
    cbn [app]. now rewrite <- Er.
Qed.

Lemma split_wf (sep : Z) (s : str) :
  wf_str s = true -> Forall (fun p => wf_str p = true) (split sep s).
Proof.
  induction s as [|c r IH]; cbn [split]; intros H; [now repeat constructor|].
  specialize (IH (wf_str_tail _ _ H)).
  destruct (c =? sep); [now constructor|].
  destruct (split_head_prefix sep r) as (p & ps & t & E & Er).
  rewrite E in IH |- *. inversion IH as [|? ? Hp Hps]. constructor; [|exact Hps].
  apply (wf_str_app_l (c :: p) t). cbn [app]. rewrite <- Er. exact H.
Qed.

Lemma group_list_wf (d : dict) :
  forallb wf_member d = true -> forallb wf_json (group_list d) = true.
Proof.
  intros Hd. unfold group_list, first_group_claim.
  destruct (find (present d) group_claim_priority) as [name|]; [|reflexivity].
  pose proof (lookup_wf d name Hd) as Hv.
  destruct (lookup name d) as [[| | | |s|l|]|]; try reflexivity; [|exact Hv].
  cbn [wf_json] in Hv. apply forallb_forall. intros g Hin.
  apply in_map_iff in Hin. destruct Hin as (piece & <- & Hin).
  cbn [wf_json]. apply strip_wf.
  exact (proj1 (Forall_forall _ _) (split_wf 44 s Hv) _ Hin).
Qed.

Lemma user_identity_wf (d : dict) :
  forallb wf_member d = true -> wf_json (user_identity d) = true.
Proof.
  intros Hd. unfold user_identity. cbn [wf_json forallb fst snd].
  rewrite !(lookup_wf d _ Hd). vm_compute. reflexivity.
Qed.

Lemma fallback_identity_wf (i : dict) :
  forallb wf_member i = true -> wf_json (fallback_identity i) = true.
Proof.
  intros Hd. unfold fallback_identity. cbn [wf_json forallb fst snd].
  rewrite !(lookup_wf i _ Hd). vm_compute. reflexivity.
Qed.

Lemma api_information_wf (rc : dict) :
  forallb wf_member rc = true -> wf_json (api_information rc) = true.
Proof.
  intros Hd. unfold api_information. cbn [wf_json forallb fst snd].
  rewrite !(lookup_wf rc _ Hd). vm_compute. reflexivity.
Qed.

Lemma request_context_wf (event : json) (rc : dict) :
  wf_json event = true -> request_context_of event = Some rc ->
  forallb wf_member rc = true.
Proof.
  unfold request_context_of. destruct event as [| | | | | |d]; try discriminate.
  intros Hw. pose proof (lookup_wf d (lit "requestContext") (wf_members _ Hw)) as H.
  destruct (lookup (lit "requestContext") d) as [[| | | | | |rc']|];
    try discriminate; intros [= <-]; [exact (wf_members _ H)|reflexivity].
Qed.

Lemma identity_block_wf (rc i : dict) :
  forallb wf_member rc = true -> identity_block_of rc = Some i ->
  forallb wf_member i = true.
Proof.
  unfold identity_block_of. intros Hw.
  pose proof (lookup_wf rc (lit "identity") Hw) as H.
  destruct (lookup (lit "identity") rc) as [[| | | | | |i']|];
    try discriminate; intros [= <-]; [exact (wf_members _ H)|reflexivity].
Qed.

Lemma fallback_wf (event : json) (w : list record) (user_info : json)
    (groups : list json) :
  wf_json event = true ->
  get_user_from_cognito_context event = (w, Ok (user_info, groups)) ->
  wf_json user_info = true /\ groups = [].
Proof.
  intros Hev.
  destruct (request_context_of event) as [rc|] eqn:E.
  - destruct (identity_block_of rc) as [i|] eqn:Ei.
    + rewrite (fallback_usable _ _ _ E Ei). intros [= _ <- <-].
      split; [|reflexivity]. apply fallback_identity_wf.
      exact (identity_block_wf _ _ (request_context_wf _ _ Hev E) Ei).
    + rewrite fallback_unusable by (now rewrite E). intros [= _ <- <-]. now split.
  - rewrite fallback_unusable by (now rewrite E). intros [= _ <- <-]. now split.
Qed.

Lemma extractor_wf (event : json) (w : list record) (user_info : json)
    (groups : list json) :
  get_user_info_from_token event = (w, Ok (user_info, groups)) ->
  wf_json user_info = true /\ forallb wf_json groups = true.
Proof.
  intros He. destruct (extractor_outcomes event) as (w' & ui & g & He' & Hc).
  rewrite He in He'. injection He' as _ -> ->.
  destruct Hc as [[-> ->]|(hs & wd & d & _ & _ & Hd & _ & -> & ->)]; [now split|].
  apply decode_jwt_payload_wf in Hd. apply wf_members in Hd.
  split; [now apply user_identity_wf|now apply group_list_wf].
Qed.



Lemma newline_indent_ascii (indent : option nat) (level : nat) :
  ascii_text (newline_indent indent level).
Proof.
  destruct indent as [n|]; cbn [newline_indent]; [|constructor].
  constructor; [lia|]. apply Forall_forall. intros c Hc.
  apply repeat_spec in Hc. lia.
Qed.

Lemma write_rest_ascii_at {A} (write : A -> str) (separator closing : str)
    (l : list A) :
  ascii_text separator -> ascii_text closing ->
  Forall (fun y => ascii_text (write y)) l ->
  ascii_text (write_rest write separator closing l).
Proof.
  intros Hs Hc. induction 1 as [|y l Hy _ IH]; cbn [write_rest]; [exact Hc|].
  apply ascii_text_app; [exact Hs|]. now apply ascii_text_app.
Qed.

Lemma item_separator_ascii (indent : option nat) (level : nat) :
  ascii_text (item_separator indent level).
Proof.
  destruct indent as [n|]; cbn [item_separator].
  - constructor; [lia|]. apply newline_indent_ascii.
  - repeat constructor; lia.
Qed.

Lemma closing_ascii (indent : option nat) (level : nat) (closing : Z) :
  0 <= closing < 128 -> ascii_text (newline_indent indent level ++ [closing]).
Proof.
  intros Hc. apply ascii_text_app; [apply newline_indent_ascii|].
  now repeat constructor.
Qed.

(** At any indentation [json.dumps] writes ASCII only. *)
Lemma encode_ascii_text_at (indent : option nat) (v : json) :
  wf_json v = true -> forall level, ascii_text (encode indent level v).
Proof.
  induction v as [| b | n | f | s | l IH | d IH] using json_induction;
    intros Hwf level.
  - repeat constructor; lia.
  - destruct b; repeat constructor; lia.
  - apply int_repr_ascii.
  - now apply float_repr_ascii.
  - now apply basestring_ascii.
  - destruct l as [|x l]; [repeat constructor; lia|].
    cbn [wf_json forallb] in Hwf. apply andb_prop in Hwf. destruct Hwf as [Hx Hl].
    inversion IH as [|? ? IHx IHl]; subst.
    cbn [encode]. constructor; [lia|].
    apply ascii_text_app; [apply newline_indent_ascii|].
    apply ascii_text_app; [now apply IHx|].
    apply write_rest_ascii_at;
      [apply item_separator_ascii|apply closing_ascii; lia|].
    rewrite forallb_forall in Hl. rewrite Forall_forall in IHl |- *.
    intros y Hy. apply IHl; [assumption|now apply Hl].
  - destruct d as [|[k x] d]; [repeat constructor; lia|].
    cbn [wf_json] in Hwf. apply andb_prop in Hwf. destruct Hwf as [_ Hwf].
    cbn [forallb fst snd] in Hwf. apply andb_prop in Hwf. destruct Hwf as [Hx Hl].
    apply andb_prop in Hx. destruct Hx as [Hk Hx].
    inversion IH as [|? ? IHx IHl]; subst. cbn [snd] in IHx.
    cbn [encode]. constructor; [lia|].
    apply ascii_text_app; [apply newline_indent_ascii|].
    apply ascii_text_app; [now apply basestring_ascii|].
    apply ascii_text_app; [repeat constructor; lia|].
    apply ascii_text_app; [now apply IHx|].
    apply write_rest_ascii_at;
      [apply item_separator_ascii|apply closing_ascii; lia|].
    rewrite forallb_forall in Hl. rewrite Forall_forall in IHl |- *.
    intros [k' y] Hy. specialize (Hl _ Hy). cbn [fst snd] in *.
    apply andb_prop in Hl. destruct Hl as [Hk' Hy'].
    apply ascii_text_app; [now apply basestring_ascii|].
    apply ascii_text_app; [repeat constructor; lia|].
    apply (IHl _ Hy); assumption.
Qed.



(** *** What the handler reads of a request *)

Lemma extractor_reads_headers (d1 d2 : dict) :
  lookup (lit "headers") d1 = lookup (lit "headers") d2 ->
  get_user_info_from_token (JDict d1) = get_user_info_from_token (JDict d2).
Proof.
  intros H. unfold get_user_info_from_token. cbn [get]. now rewrite H.
Qed.

Lemma fallback_reads_request_context (d1 d2 : dict) :
  lookup (lit "requestContext") d1 = lookup (lit "requestContext") d2 ->
  get_user_from_cognito_context (JDict d1) = get_user_from_cognito_context (JDict d2).
Proof.
  intros H. unfold get_user_from_cognito_context. cbn [get]. now rewrite H.
Qed.

Lemma assemble_reads_request_context (d1 d2 : dict) (context : context)
    (user_info : json) (groups : list json) :
  lookup (lit "requestContext") d1 = lookup (lit "requestContext") d2 ->
  assemble_response (JDict d1) context user_info groups
  = assemble_response (JDict d2) context user_info groups.
Proof.
  intros H. unfold assemble_response. cbn [get]. now rewrite H.
Qed.

Lemma snd_bind {A B} (m1 m2 : M A) (f1 f2 : A -> M B) :
  snd m1 = snd m2 -> (forall a, snd (f1 a) = snd (f2 a)) ->
  snd (bind m1 f1) = snd (bind m2 f2).
Proof.
  destruct m1 as [w1 [a|e]], m2 as [w2 [a'|e']]; cbn [snd bind];
    intros E Hf; try discriminate.
  - injection E as <-. specialize (Hf a).
    destruct (f1 a), (f2 a). exact Hf.
  - now injection E as <-.
Qed.

(** X14. Of an event the handler reads the entries [headers] and
    [requestContext] and nothing else: two events that agree on these two
    entries get the same response, or the same exception, from the handler,
    the same answer and the same log from the claim extractor, and the same
    from the fallback.  The log of the handler differs, since it prints
    the whole event. *)
Theorem handler_reads_two_entries (d1 d2 : dict) (context : context) :
  lookup (lit "headers") d1 = lookup (lit "headers") d2 ->
  lookup (lit "requestContext") d1 = lookup (lit "requestContext") d2 ->
  snd (handler (JDict d1) context) = snd (handler (JDict d2) context)
  /\ get_user_info_from_token (JDict d1) = get_user_info_from_token (JDict d2)
  /\ get_user_from_cognito_context (JDict d1)
     = get_user_from_cognito_context (JDict d2).
Proof.
  intros Hh Hrc.
  pose proof (extractor_reads_headers _ _ Hh) as He.
  pose proof (fallback_reads_request_context _ _ Hrc) as Hf.
  split; [|now split].
  unfold handler.
  apply snd_bind; [reflexivity|intros _].
  apply snd_bind; [reflexivity|intros _].
  apply snd_bind; [now rewrite He|intros from_token].
  apply snd_bind; [now rewrite Hf|intros identity].
  now rewrite (assemble_reads_request_context _ _ _ _ _ Hrc).
Qed.

Lemma handler_reads_two_entries_witness :
  snd (handler (JDict [(lit "path", JStr (lit "/a"));
                       (lit "headers", JDict [(lit "x-cognito-id-token", token_admin_x)])])
               sample_context)
  = snd (handler (JDict [(lit "headers",
                          JDict [(lit "x-cognito-id-token", token_admin_x)]);
                         (lit "body", JStr (lit "{}"))])
                 sample_context).
Proof.
  refine (proj1 (handler_reads_two_entries
                   [(lit "path", JStr (lit "/a"));
                    (lit "headers", JDict [(lit "x-cognito-id-token", token_admin_x)])]
                   [(lit "headers", JDict [(lit "x-cognito-id-token", token_admin_x)]);
                    (lit "body", JStr (lit "{}"))]
                   sample_context _ _)).
  - vm_compute. reflexivity.
  - vm_compute. reflexivity.
Defined.
